(** * LightAuth: credential issuance and session lifecycle

    A shallow embedding of the authentication core of the LightAuth
    library (TypeScript) together with the properties its specification
    states about it.

    Conventions of the embedding.
    - A JavaScript string is a [string]: a sequence of 8-bit code units,
      read as Latin-1.  [null]/[undefined] are [None].
    - A [number] used as a count, a length, a status or a time is an
      [N], a [nat] or a [Z]; a [number] a caller configures, which may
      be a fraction, an infinity or [NaN], is a [JsNumber.t]; a
      [Uint8Array] is a [list byte].
    - An [async] function that talks to the relational store, the clock
      or the random source is a computation in the monad [Auth]: it
      threads a [World] and either returns a value or throws.
    - The relational store is an in-memory database whose tables are
      finite maps keyed by their primary key; it executes every
      statement it is sent, or rejects it when the row would break a
      primary key or the unique email column (transport failures are
      the business of the query executor, modelled separately in
      [MechSqlClient]).
    - WebCrypto's PBKDF2 is RFC 8018 over HMAC (RFC 2104) over SHA-2
      (FIPS 180-4); oslo's [base64url] is RFC 4648, section 5.
    - A regular expression is a pattern anchored at both ends, tested
      by derivatives; [decodeURIComponent] may produce a string with a
      code unit above U+00FF, which is [NotLatin1].
    - An HTTP request is what the handlers read of it: the query
      parameters of its URL and its headers, by lower-case name.  A
      response is its status, its body and its headers in the order
      they are set.  A router takes the handlers it dispatches to as
      parameters. *)

From Stdlib Require Import ZArith NArith List String Ascii Bool Lia.
From Stdlib.Strings Require Import Byte.
From Stdlib Require Import DecimalString DecimalN DecimalNat DecimalPos.
From Stdlib Require Import QArith Qround.
From stdpp Require Import base option list gmap fin_maps strings.
From Equations Require Import Equations.

Local Open Scope Z_scope.

(** ** JavaScript strings *)

Module Js.

(** [!s] for a string: only the empty string is falsy. *)
Definition truthy (s : string) : bool :=
  match s with EmptyString => false | String _ _ => true end.

(** Truthiness of [string | null]. *)
Definition truthyOpt (s : option string) : bool :=
  match s with None => false | Some s => truthy s end.

(** White space and line terminators below U+0100. *)
Definition isWhiteSpace (c : ascii) : bool :=
  let n := nat_of_ascii c in
  ((9 <=? n)%nat && (n <=? 13)%nat) || (n =? 32)%nat || (n =? 160)%nat.

Fixpoint trimStart (s : string) : string :=
  match s with
  | EmptyString => EmptyString
  | String c s' => if isWhiteSpace c then trimStart s' else s
  end.

Definition trimEnd (s : string) : string :=
  String.rev (trimStart (String.rev s)).

Definition trim (s : string) : string := trimEnd (trimStart s).

(** [String.prototype.toLowerCase] on Latin-1 code units. *)
Definition lowerChar (c : ascii) : ascii :=
  let n := nat_of_ascii c in
  if ((65 <=? n)%nat && (n <=? 90)%nat)
     || ((192 <=? n)%nat && (n <=? 222)%nat && negb (n =? 215)%nat)
  then ascii_of_nat (n + 32) else c.

Fixpoint toLowerCase (s : string) : string :=
  match s with
  | EmptyString => EmptyString
  | String c s' => String (lowerChar c) (toLowerCase s')
  end.

Fixpoint isPrefix (pre s : string) : bool :=
  match pre with
  | EmptyString => true
  | String a pre' =>
      match s with
      | String b s' => Ascii.eqb a b && isPrefix pre' s'
      | EmptyString => false
      end
  end.

Definition startsWith (s pre : string) : bool := isPrefix pre s.

(** [s.slice(n)] for [n >= 0]. *)
Fixpoint slice (n : nat) (s : string) : string :=
  match n, s with
  | O, _ => s
  | S n', String _ s' => slice n' s'
  | S _, EmptyString => EmptyString
  end.

(** [s.split(sep)] for a one-character separator. *)
Fixpoint split (sep : ascii) (s : string) : list string :=
  match s with
  | EmptyString => [EmptyString]
  | String c s' =>
      if Ascii.eqb c sep then EmptyString :: split sep s'
      else
        match split sep s' with
        | part :: parts => String c part :: parts
        | [] => [String c EmptyString]
        end
  end.

(** [s.replace(c, '')] with a one-character string pattern: only the
    first occurrence goes. *)
Fixpoint removeFirst (c : ascii) (s : string) : string :=
  match s with
  | EmptyString => EmptyString
  | String d s' => if Ascii.eqb d c then s' else String d (removeFirst c s')
  end.

(** [s.replace(/=/g, '')]-style removal of every occurrence. *)
Fixpoint removeAll (c : ascii) (s : string) : string :=
  match s with
  | EmptyString => EmptyString
  | String d s' =>
      if Ascii.eqb d c then removeAll c s' else String d (removeAll c s')
  end.

(** Template-literal rendering of a non-negative integer. *)
Definition numberToString (n : N) : string :=
  NilZero.string_of_uint (N.to_uint n).

(** [Number(s)] on a run of decimal digits (the empty run is [0], as in
    JavaScript), which is what [numberToString] writes.  JavaScript
    reads further spellings as numbers (surrounding white space, a sign,
    a fraction, an exponent, [0x], [Infinity]); they are outside this
    embedding, which answers [None], JavaScript's [NaN], on them.  No
    statement below depends on how such a spelling is read. *)
Definition Number (s : string) : option N :=
  N.of_uint <$> NilEmpty.uint_of_string s.

(** [TextEncoder.encode]: UTF-8 of Latin-1 code units. *)
Definition utf8Char (c : ascii) : list byte :=
  let n := N_of_ascii c in
  if (n <? 128)%N then [byte_of_ascii c]
  else [default Byte.xc2 (Byte.of_N (192 + n / 64));
        default Byte.x80 (Byte.of_N (128 + n mod 64))].

Definition encodeUtf8 (s : string) : list byte :=
  concat (map utf8Char (list_ascii_of_string s)).

(** [s.includes(sub)]. *)
Fixpoint includes (s sub : string) : bool :=
  isPrefix sub s
  || match s with
     | EmptyString => false
     | String _ s' => includes s' sub
     end.

(** [s.endsWith(suffix)]. *)
Definition endsWith (s suffix : string) : bool :=
  isPrefix (String.rev suffix) (String.rev s).

End Js.

(** ** Regular expressions

    [RegExp.prototype.test] for a pattern anchored at both ends, without
    flags: the string matches when what is left of the pattern after
    all its characters accepts the empty string. *)

Module Regex.

Inductive t :=
| Never
| Empty
| Class (member : ascii -> bool)
| Seq (r s : t)
| Alt (r s : t)
| Star (r : t).

Definition char (c : ascii) : t := Class (Ascii.eqb c).

Fixpoint text (s : string) : t :=
  match s with
  | EmptyString => Empty
  | String c s' => Seq (char c) (text s')
  end.

(** [r+], [r?] and [r{0,n}]. *)
Definition plus (r : t) : t := Seq r (Star r).
Definition opt (r : t) : t := Alt r Empty.
Fixpoint upTo (n : nat) (r : t) : t :=
  match n with
  | O => Empty
  | S n' => opt (Seq r (upTo n' r))
  end.

Fixpoint nullable (r : t) : bool :=
  match r with
  | Never => false
  | Empty => true
  | Class _ => false
  | Seq r s => if nullable r then nullable s else false
  | Alt r s => if nullable r then true else nullable s
  | Star _ => true
  end.

Definition seq (r s : t) : t :=
  match r, s with
  | Never, _ => Never
  | _, Never => Never
  | Empty, _ => s
  | _, Empty => r
  | _, _ => Seq r s
  end.

Definition alt (r s : t) : t :=
  match r, s with
  | Never, _ => s
  | _, Never => r
  | _, _ => Alt r s
  end.

(** What is left of [r] after the character [c]. *)
Fixpoint derive (c : ascii) (r : t) : t :=
  match r with
  | Never => Never
  | Empty => Never
  | Class member => if member c then Empty else Never
  | Seq r s => alt (seq (derive c r) s) (if nullable r then derive c s else Never)
  | Alt r s => alt (derive c r) (derive c s)
  | Star r => seq (derive c r) (Star r)
  end.

(** [/^r$/.test(s)]. *)
Fixpoint test (r : t) (s : string) : bool :=
  match s with
  | EmptyString => nullable r
  | String c s' => test (derive c r) s'
  end.

End Regex.

Definition inRange (lo hi : nat) (c : ascii) : bool :=
  (lo <=? nat_of_ascii c)%nat && (nat_of_ascii c <=? hi)%nat.

(** The class [[a-zA-Z0-9]]. *)
Definition alphanumeric (c : ascii) : bool :=
  inRange 97 122 c || inRange 65 90 c || inRange 48 57 c.

Definition oneOf (chars : string) (c : ascii) : bool :=
  existsb (Ascii.eqb c) (list_ascii_of_string chars).

(** ** Bytes *)

Module Bytes.

Definition of_Z (z : Z) : byte :=
  default Byte.x00 (Byte.of_N (Z.to_N (z mod 256))).

Definition to_Z (b : byte) : Z := Z.of_N (Byte.to_N b).

(** The low [n] bytes of [z], most significant first. *)
Fixpoint be_bytes (n : nat) (z : Z) : list byte :=
  match n with
  | O => []
  | S n' => of_Z (Z.shiftr z (8 * Z.of_nat n')) :: be_bytes n' z
  end.

Definition be_value (bs : list byte) : Z :=
  fold_left (fun acc b => Z.lor (Z.shiftl acc 8) (to_Z b)) bs 0.

Definition xor (a b : byte) : byte := of_Z (Z.lxor (to_Z a) (to_Z b)).

Definition hexDigit (n : Z) : ascii :=
  nth (Z.to_nat n) (list_ascii_of_string "0123456789abcdef") "0"%char.

Definition hex (bs : list byte) : string :=
  string_of_list_ascii
    (concat (map (fun b => [hexDigit (to_Z b / 16); hexDigit (to_Z b mod 16)]) bs)).

End Bytes.

(** ** base64url without padding (oslo/encoding) *)

Module Base64url.

Definition alphabet : list ascii :=
  list_ascii_of_string
    "ABCDEFGHIJKLMNOPQRSTUVWXYZabcdefghijklmnopqrstuvwxyz0123456789-_".

Definition char (v : Z) : ascii := nth (Z.to_nat v) alphabet "A"%char.

Fixpoint indexOf (c : ascii) (l : list ascii) (i : Z) : option Z :=
  match l with
  | [] => None
  | d :: l' => if Ascii.eqb c d then Some i else indexOf c l' (i + 1)
  end.

(** The decode map: the position of a character in the alphabet. *)
Definition value (c : ascii) : option Z := indexOf c alphabet 0.

(** [encode(bytes, { includePadding: false })]: every three bytes give
    four characters; one or two trailing bytes give two or three. *)
Fixpoint encodeChars (bs : list byte) : list ascii :=
  match bs with
  | a :: b :: c :: rest =>
      let n := Bytes.to_Z a * 65536 + Bytes.to_Z b * 256 + Bytes.to_Z c in
      char (n / 262144) :: char (n / 4096 mod 64) :: char (n / 64 mod 64)
        :: char (n mod 64) :: encodeChars rest
  | [a; b] =>
      let n := Bytes.to_Z a * 65536 + Bytes.to_Z b * 256 in
      [char (n / 262144); char (n / 4096 mod 64); char (n / 64 mod 64)]
  | [a] =>
      let n := Bytes.to_Z a * 65536 in
      [char (n / 262144); char (n / 4096 mod 64)]
  | [] => []
  end.

Definition encode (bs : list byte) : string :=
  string_of_list_ascii (encodeChars bs).

(** [encode(bytes)] with the default [includePadding: true]. *)
Definition encodePadded (bs : list byte) : string :=
  let chars := encodeChars bs in
  let padCount := ((4 - length chars mod 4) mod 4)%nat in
  string_of_list_ascii (chars ++ repeat "="%char padCount).

(** One chunk of up to four characters: the 24-bit buffer and the
    number of missing or padding positions.  [None] is a throw. *)
Definition sextet (last : bool) (c : option ascii) : option (Z * Z) :=
  match c with
  | None => Some (0, 1)
  | Some c =>
      if Ascii.eqb c "="%char then (if last then Some (0, 1) else None)
      else v ← value c; Some (v, 0)
  end.

Definition chunk (last : bool) (c1 c2 c3 c4 : option ascii) : option (list byte) :=
  '(v1, p1) ← sextet last c1;
  '(v2, p2) ← sextet last c2;
  '(v3, p3) ← sextet last c3;
  '(v4, p4) ← sextet last c4;
  let buffer := v1 * 262144 + v2 * 4096 + v3 * 64 + v4 in
  let padCount := p1 + p2 + p3 + p4 in
  Some ([Bytes.of_Z (buffer / 65536)]
          ++ (if padCount <? 2 then [Bytes.of_Z (buffer / 256)] else [])
          ++ (if padCount <? 1 then [Bytes.of_Z buffer] else [])).

(** [decode(value, { strict: false })]. *)
Fixpoint decodeChars (cs : list ascii) : option (list byte) :=
  match cs with
  | [] => Some []
  | [c1] => chunk true (Some c1) None None None
  | [c1; c2] => chunk true (Some c1) (Some c2) None None
  | [c1; c2; c3] => chunk true (Some c1) (Some c2) (Some c3) None
  | c1 :: c2 :: c3 :: c4 :: rest =>
      out ← chunk (bool_decide (rest = [])) (Some c1) (Some c2) (Some c3) (Some c4);
      more ← decodeChars rest;
      Some (out ++ more)
  end.

Definition decode (s : string) : option (list byte) :=
  decodeChars (list_ascii_of_string s).

End Base64url.

(** ** SHA-2 (FIPS 180-4), the digest under WebCrypto's PBKDF2 *)

Module Sha2.

Definition primes : list Z :=
  [2; 3; 5; 7; 11; 13; 17; 19; 23; 29; 31; 37; 41; 43; 47; 53; 59; 61; 67; 71;
   73; 79; 83; 89; 97; 101; 103; 107; 109; 113; 127; 131; 137; 139; 149; 151;
   157; 163; 167; 173; 179; 181; 191; 193; 197; 199; 211; 223; 227; 229; 233;
   239; 241; 251; 257; 263; 269; 271; 277; 281; 283; 293; 307; 311; 313; 317;
   331; 337; 347; 349; 353; 359; 367; 373; 379; 383; 389; 397; 401; 409].

(** The largest [r] below [2^bits] with [r^3 <= n], found bit by bit. *)
Fixpoint cbrtBits (bits : nat) (n r : Z) : Z :=
  match bits with
  | O => r
  | S b =>
      let r' := r + Z.shiftl 1 (Z.of_nat b) in
      cbrtBits b n (if r' * r' * r' <=? n then r' else r)
  end.

(** The first [w] fractional bits of the square roots of the first
    eight primes, and of the cube roots of the first [n] primes. *)
Definition sqrtFractions (w : Z) : list Z :=
  map (fun q => Z.sqrt (q * 2 ^ (2 * w)) mod 2 ^ w) (firstn 8 primes).

Definition cbrtFractions (w : Z) (n : nat) : list Z :=
  map (fun q => cbrtBits (Z.to_nat w + 4) (q * 2 ^ (3 * w)) 0 mod 2 ^ w)
      (firstn n primes).

Record Params := {
  wordBits : Z;
  wordBytes : nat;
  bigSigma0 : Z * Z * Z;
  bigSigma1 : Z * Z * Z;
  smallSigma0 : Z * Z * Z;
  smallSigma1 : Z * Z * Z;
  initialHash : list Z;
  roundConstants : list Z
}.

Definition sha256_initial : list Z := Eval vm_compute in sqrtFractions 32.
Definition sha256_constants : list Z := Eval vm_compute in cbrtFractions 32 64.
Definition sha512_initial : list Z := Eval vm_compute in sqrtFractions 64.
Definition sha512_constants : list Z := Eval vm_compute in cbrtFractions 64 80.

Definition sha256_params : Params :=
  {| wordBits := 32; wordBytes := 4;
     bigSigma0 := (2, 13, 22); bigSigma1 := (6, 11, 25);
     smallSigma0 := (7, 18, 3); smallSigma1 := (17, 19, 10);
     initialHash := sha256_initial;
     roundConstants := sha256_constants |}.

Definition sha512_params : Params :=
  {| wordBits := 64; wordBytes := 8;
     bigSigma0 := (28, 34, 39); bigSigma1 := (14, 18, 41);
     smallSigma0 := (1, 8, 7); smallSigma1 := (19, 61, 6);
     initialHash := sha512_initial;
     roundConstants := sha512_constants |}.

Section WithParams.
Variable p : Params.

Definition wrap (x : Z) : Z := x mod 2 ^ wordBits p.
Definition add (x y : Z) : Z := wrap (x + y).
Definition rotr (n x : Z) : Z :=
  Z.lor (Z.shiftr x n) (wrap (Z.shiftl x (wordBits p - n))).
Definition ch (x y z : Z) : Z :=
  Z.lxor (Z.land x y) (Z.land (wrap (Z.lnot x)) z).
Definition maj (x y z : Z) : Z :=
  Z.lxor (Z.lxor (Z.land x y) (Z.land x z)) (Z.land y z).
Definition bigSigma (s : Z * Z * Z) (x : Z) : Z :=
  let '(a, b, c) := s in Z.lxor (Z.lxor (rotr a x) (rotr b x)) (rotr c x).
Definition smallSigma (s : Z * Z * Z) (x : Z) : Z :=
  let '(a, b, c) := s in Z.lxor (Z.lxor (rotr a x) (rotr b x)) (Z.shiftr x c).

Definition blockBytes : nat := (16 * wordBytes p)%nat.

(** Padding: a one bit, zeros, and the bit length in two words. *)
Definition pad (msg : list byte) : list byte :=
  let len := length msg in
  let lenField := (2 * wordBytes p)%nat in
  let used := ((len + 1 + lenField) mod blockBytes)%nat in
  let zeros := ((blockBytes - used) mod blockBytes)%nat in
  msg ++ [Byte.x80] ++ repeat Byte.x00 zeros
      ++ Bytes.be_bytes lenField (8 * Z.of_nat len).

Fixpoint words (n : nat) (bs : list byte) : list Z :=
  match n with
  | O => []
  | S n' =>
      Bytes.be_value (firstn (wordBytes p) bs) :: words n' (skipn (wordBytes p) bs)
  end.

(** One round on the eight working variables. *)
Definition round (st : list Z) (k w : Z) : list Z :=
  match st with
  | [a; b; c; d; e; f; g; h] =>
      let t1 := add (add (add (add h (bigSigma (bigSigma1 p) e)) (ch e f g)) k) w in
      let t2 := add (bigSigma (bigSigma0 p) a) (maj a b c) in
      [add t1 t2; a; b; c; add d t1; e; f; g]
  | _ => st
  end.

(** All rounds; [win] is the sliding window of sixteen schedule words. *)
Fixpoint schedule (ks : list Z) (win st : list Z) : list Z :=
  match ks, win with
  | k :: ks', w0 :: rest =>
      let wnew :=
        add (add (add (smallSigma (smallSigma1 p) (nth 14 win 0)) (nth 9 win 0))
                 (smallSigma (smallSigma0 p) (nth 1 win 0))) w0 in
      schedule ks' (rest ++ [wnew]) (round st k w0)
  | _, _ => st
  end.

Definition compress (h : list Z) (block : list byte) : list Z :=
  zip_with add h (schedule (roundConstants p) (words 16 block) h).

Fixpoint blocks (n : nat) (h : list Z) (bs : list byte) : list Z :=
  match n with
  | O => h
  | S n' => blocks n' (compress h (firstn blockBytes bs)) (skipn blockBytes bs)
  end.

Definition digest (msg : list byte) : list byte :=
  let padded := pad msg in
  let h := blocks (length padded / blockBytes) (initialHash p) padded in
  concat (map (Bytes.be_bytes (wordBytes p)) h).

End WithParams.

End Sha2.

(** ** HMAC (RFC 2104) *)

Module Hmac.

Section WithParams.
Variable p : Sha2.Params.

(** The key as one block: hashed when longer than a block, then
    padded with zero bytes. *)
Definition keyBlock (key : list byte) : list byte :=
  let B := Sha2.blockBytes p in
  let k0 := if (B <? length key)%nat then Sha2.digest p key else key in
  k0 ++ repeat Byte.x00 (B - length k0).

Definition withKeyBlock (kb msg : list byte) : list byte :=
  let ipad := map (Bytes.xor Byte.x36) kb in
  let opad := map (Bytes.xor Byte.x5c) kb in
  Sha2.digest p (opad ++ Sha2.digest p (ipad ++ msg)).

Definition hmac (key msg : list byte) : list byte :=
  withKeyBlock (keyBlock key) msg.

End WithParams.

End Hmac.

(** ** PBKDF2 (RFC 8018, section 5.2) *)

Module Pbkdf2.

Section WithPrf.
Variable prf : list byte -> list byte.
Variable hLen : nat.

Definition xorBytes (a b : list byte) : list byte := zip_with Bytes.xor a b.

Definition step (st : list byte * list byte) : list byte * list byte :=
  let u := prf (fst st) in (u, xorBytes (snd st) u).

(** Block [i]: the exclusive-or of [c] chained applications of the
    pseudo-random function. *)
Definition F (salt : list byte) (c : N) (i : nat) : list byte :=
  let u1 := prf (salt ++ Bytes.be_bytes 4 (Z.of_nat i)) in
  snd (N.iter (c - 1) step (u1, u1)).

Definition derive (salt : list byte) (c : N) (dkLen : nat) : list byte :=
  let l := ((dkLen + hLen - 1) / hLen)%nat in
  firstn dkLen (concat (map (F salt c) (seq 1 l))).

End WithPrf.

End Pbkdf2.

(** ** The random source ([crypto.getRandomValues]) *)

Module Rng.

Record t := { stream : nat -> byte; position : nat }.

Definition getRandomValues (n : nat) (r : t) : list byte * t :=
  (map (stream r) (seq (position r) n),
   {| stream := stream r; position := (position r + n)%nat |}).

End Rng.

(** ** password-hasher.ts *)

(** The pluggable interface.  [hash] draws its salt from the random
    source; [verify] answers [None] when its promise rejects.  [hash]
    is a function that always answers: a hasher whose [hash] promise
    rejects is outside this embedding, and every statement below about
    a workflow that hashes speaks of hashers whose [hash] resolves. *)
Module PasswordHasher.

Record t := {
  id : string;
  hash : string -> Rng.t -> string * Rng.t;
  verify : string -> string -> option bool
}.

End PasswordHasher.

Inductive HashName := SHA_256 | SHA_512.

Definition hashNameString (h : HashName) : string :=
  match h with SHA_256 => "SHA-256" | SHA_512 => "SHA-512" end.

Definition shaParams (h : HashName) : Sha2.Params :=
  match h with SHA_256 => Sha2.sha256_params | SHA_512 => Sha2.sha512_params end.

Definition hLen (h : HashName) : nat :=
  match h with SHA_256 => 32%nat | SHA_512 => 64%nat end.

Record Pbkdf2PasswordHasherOptions := {
  opt_iterations : option N;
  opt_hash : option HashName;
  opt_saltLength : option nat;
  opt_keyLength : option nat
}.

Definition noOptions : Pbkdf2PasswordHasherOptions :=
  {| opt_iterations := None; opt_hash := None;
     opt_saltLength := None; opt_keyLength := None |}.

Definition encodeBase64UrlNoPadding (bytes : list byte) : string :=
  Base64url.encode bytes.

Definition decodeBase64UrlNoPadding (value : string) : option (list byte) :=
  Base64url.decode value.

Definition timingSafeEqual (a b : list byte) : bool :=
  if negb (length a =? length b)%nat then false
  else
    let diff :=
      fold_left (fun diff xy => Z.lor diff (Z.lxor (Bytes.to_Z xy.1) (Bytes.to_Z xy.2)))
                (combine a b) 0 in
    diff =? 0.

(** [crypto.subtle.deriveBits] with [name: PBKDF2] over the UTF-8 bytes
    of the password. *)
Definition pbkdf2DeriveKeyBytes (password : string) (salt : list byte)
    (iterations : N) (hash : HashName) (keyLength : nat) : list byte :=
  Pbkdf2.derive (Hmac.hmac (shaParams hash) (Js.encodeUtf8 password)) (hLen hash)
                salt iterations keyLength.

Definition MIN_ITERATIONS : N := 100000.
Definition MAX_ITERATIONS : N := 2000000.
Definition MIN_KEY_LENGTH : N := 16.
Definition MAX_KEY_LENGTH : N := 64.
Definition MIN_SALT_LENGTH : nat := 8.
Definition MAX_SALT_LENGTH : nat := 64.

Section Pbkdf2PasswordHasher.
Variable options : Pbkdf2PasswordHasherOptions.

Definition iterations : N := default 600000%N (opt_iterations options).
Definition hashAlg : HashName := default SHA_256 (opt_hash options).
Definition saltLength : nat := default 16%nat (opt_saltLength options).
Definition keyLength : nat := default 32%nat (opt_keyLength options).

(** The body of [hash] after the salt has been drawn. *)
Definition pbkdf2_hashWithSalt (password : string) (salt : list byte) : string :=
  let derivedKey := pbkdf2DeriveKeyBytes password salt iterations hashAlg keyLength in
  let saltB64 := encodeBase64UrlNoPadding salt in
  let keyB64 := encodeBase64UrlNoPadding derivedKey in
  let hashName := Js.removeFirst "-" (Js.toLowerCase (hashNameString hashAlg)) in
  "$pbkdf2$" +:+ hashName +:+ "$i=" +:+ Js.numberToString iterations
    +:+ "$l=" +:+ Js.numberToString (N.of_nat keyLength)
    +:+ "$" +:+ saltB64 +:+ "$" +:+ keyB64.

Definition pbkdf2_hash (password : string) (rng : Rng.t) : string * Rng.t :=
  let '(salt, rng') := Rng.getRandomValues saltLength rng in
  (pbkdf2_hashWithSalt password salt, rng').

Definition pbkdf2_verify (storedHash password : string) : bool :=
  if negb (Js.startsWith storedHash "$pbkdf2$") then false else
  let parts := Js.split "$" storedHash in
  match parts with
  | [_; _; algorithm; iterationsPart; keyLengthPart; saltPart; keyPart] =>
      if negb (Js.startsWith iterationsPart "i=")
         || negb (Js.startsWith keyLengthPart "l=") then false else
      let parsedIterations := Js.Number (Js.slice 2 iterationsPart) in
      let parsedKeyLength := Js.Number (Js.slice 2 keyLengthPart) in
      match parsedIterations, parsedKeyLength with
      | Some parsedIterations, Some parsedKeyLength =>
          if (parsedIterations <? MIN_ITERATIONS)%N
             || (MAX_ITERATIONS <? parsedIterations)%N then false else
          if (parsedKeyLength <? MIN_KEY_LENGTH)%N
             || (MAX_KEY_LENGTH <? parsedKeyLength)%N then false else
          let parsedHash :=
            if String.eqb algorithm "sha256" then Some SHA_256
            else if String.eqb algorithm "sha512" then Some SHA_512
            else None in
          match parsedHash with
          | None => false
          | Some parsedHash =>
              match decodeBase64UrlNoPadding saltPart,
                    decodeBase64UrlNoPadding keyPart with
              | Some salt, Some expectedKey =>
                  if (length salt <? MIN_SALT_LENGTH)%nat
                     || (MAX_SALT_LENGTH <? length salt)%nat then false else
                  if negb (N.of_nat (length expectedKey) =? parsedKeyLength)%N
                  then false else
                  let derivedKey :=
                    pbkdf2DeriveKeyBytes password salt parsedIterations parsedHash
                                         (N.to_nat parsedKeyLength) in
                  timingSafeEqual derivedKey expectedKey
              | _, _ => false
              end
          end
      | _, _ => false
      end
  | _ => false
  end.

Definition createPbkdf2PasswordHasher : PasswordHasher.t :=
  {| PasswordHasher.id := "pbkdf2";
     PasswordHasher.hash := pbkdf2_hash;
     PasswordHasher.verify :=
       fun storedHash password => Some (pbkdf2_verify storedHash password) |}.

End Pbkdf2PasswordHasher.

(** ** The relational schema (migrations, database/schema.ts) *)

Module User.
Record t := {
  id : string;
  email : string;
  email_verified : bool;
  password_hash : option string;
  github_id : option string;
  google_id : option string;
  name : option string;
  avatar_url : option string;
  created_at : Z;
  updated_at : Z
}.
End User.

Module Session.
Record t := {
  id : string;
  user_id : string;
  expires_at : Z;
  ip_address : option string;
  user_agent : option string
}.
End Session.

Module EmailVerificationToken.
Record t := {
  token : string;
  user_id : string;
  email : string;
  expires_at : Z
}.
End EmailVerificationToken.

Module PasswordResetToken.
Record t := {
  token : string;
  user_id : string;
  expires_at : Z
}.
End PasswordResetToken.

(** Every table is keyed by its primary key. *)
Record Database := {
  users : gmap string User.t;
  sessions : gmap string Session.t;
  email_verification_tokens : gmap string EmailVerificationToken.t;
  password_reset_tokens : gmap string PasswordResetToken.t
}.

Inductive Provider := github | google.

(** types.ts *)
Record OAuthUserProfile := {
  profile_id : string;
  profile_email : string;
  profile_name : option string;
  profile_avatar_url : option string;
  profile_email_verified : option bool
}.

Record RequestContext := {
  ipAddress : option string;
  userAgent : option string
}.

(** ** Effects: the world, what is thrown, and the monad *)

(** The statements the workflows send to the store, as they are built
    with the query builder. *)
Inductive Statement :=
| SelectUserByEmail (email : string)
| SelectUserByProviderId (provider : Provider) (providerId : string)
| UpdateUserProfile (id : string)
| UpdateUserLink (id : string)
| InsertUser (id : string)
| UpdateUserPasswordHash (id passwordHash : string)
| UpdateUserEmailVerified (id : string)
| SelectEmailVerificationToken (token : string)
| DeleteEmailVerificationToken (token : string)
| DeleteEmailVerificationTokensOfUser (userId : string)
| InsertEmailVerificationToken (token userId : string)
| SelectPasswordResetToken (token : string)
| DeletePasswordResetToken (token : string)
| DeletePasswordResetTokensOfUser (userId : string)
| InsertPasswordResetToken (token userId : string)
| InsertSession (id userId : string)
| SelectSessionUser (id : string)
| DeleteSession (id : string)
| DeleteSessionsOfUser (userId : string)
| DeleteExpiredSessions
| DeleteExpiredPasswordResetTokens
| DeleteExpiredEmailVerificationTokens.

Inductive Event :=
| Sql (stmt : Statement)
| HashPassword (password : string)
| TokenCallback (email token : string).

Record World := {
  db : Database;
  now : Z;
  rng : Rng.t;
  log : list Event
}.

(** auth/utils.ts: [AuthError]; anything else thrown is a plain [Error]. *)
Inductive Error :=
| AuthError (message code : string) (statusCode : Z)
| PlainError (message : string).

Definition createAuthError (message code : string) (statusCode : Z) : Error :=
  AuthError message code statusCode.

Definition errorCode (e : Error) : option string :=
  match e with AuthError _ code _ => Some code | PlainError _ => None end.

Inductive Outcome (A : Type) :=
| Returned (a : A)
| Thrown (e : Error).
Arguments Returned {A} a.
Arguments Thrown {A} e.

Definition thrownCode {A} (o : Outcome A) : option string :=
  match o with Returned _ => None | Thrown e => errorCode e end.

Definition Auth (A : Type) : Type := World -> Outcome A * World.

#[global] Instance Auth_ret : MRet Auth := fun A a w => (Returned a, w).

#[global] Instance Auth_bind : MBind Auth := fun A B f m w =>
  match m w with
  | (Returned a, w') => f a w'
  | (Thrown e, w') => (Thrown e, w')
  end.

Definition throw {A} (e : Error) : Auth A := fun w => (Thrown e, w).

Definition withDb (f : Database -> Database) (w : World) : World :=
  {| db := f (db w); now := now w; rng := rng w; log := log w |}.

Definition withRng (r : Rng.t) (w : World) : World :=
  {| db := db w; now := now w; rng := r; log := log w |}.

Definition withLog (e : Event) (w : World) : World :=
  {| db := db w; now := now w; rng := rng w; log := log w ++ [e] |}.

Definition emit (e : Event) : Auth unit := fun w => (Returned tt, withLog e w).

(** A statement that reads. *)
Definition query {A} (stmt : Statement) (f : Database -> Z -> A) : Auth A :=
  fun w => (Returned (f (db w) (now w)), withLog (Sql stmt) w).

(** A statement that writes, and what it reports back (the rows of a
    [returningAll], the number of deleted rows). *)
Definition executeReturning {A} (stmt : Statement)
    (f : Database -> Z -> Database) (g : Database -> Database -> A) : Auth A :=
  fun w =>
    let d' := f (db w) (now w) in
    (Returned (g (db w) d'), withLog (Sql stmt) (withDb (fun _ => d') w)).

Definition execute (stmt : Statement) (f : Database -> Z -> Database) : Auth unit :=
  executeReturning stmt f (fun _ _ => tt).

(** What the store answers to a write that breaks a [PRIMARY KEY] or
    [UNIQUE] constraint. *)
Definition uniqueViolation : Error :=
  PlainError "duplicate key value violates unique constraint".

(** A statement that writes unless a constraint rejects it. *)
Definition executeChecked {A} (stmt : Statement) (rejected : Database -> bool)
    (f : Database -> Z -> Database) (g : Database -> Database -> A) : Auth A :=
  fun w =>
    if rejected (db w) then (Thrown uniqueViolation, withLog (Sql stmt) w)
    else executeReturning stmt f g w.

Definition dateNow : Auth Z := fun w => (Returned (now w), w).

Definition getRandomValues (n : nat) : Auth (list byte) := fun w =>
  let '(bytes, r) := Rng.getRandomValues n (rng w) in
  (Returned bytes, withRng r w).

(** ** Tables *)

Definition setUsers (f : gmap string User.t -> gmap string User.t)
    (d : Database) : Database :=
  {| users := f (users d); sessions := sessions d;
     email_verification_tokens := email_verification_tokens d;
     password_reset_tokens := password_reset_tokens d |}.

Definition setSessions (f : gmap string Session.t -> gmap string Session.t)
    (d : Database) : Database :=
  {| users := users d; sessions := f (sessions d);
     email_verification_tokens := email_verification_tokens d;
     password_reset_tokens := password_reset_tokens d |}.

Definition setEmailVerificationTokens
    (f : gmap string EmailVerificationToken.t -> gmap string EmailVerificationToken.t)
    (d : Database) : Database :=
  {| users := users d; sessions := sessions d;
     email_verification_tokens := f (email_verification_tokens d);
     password_reset_tokens := password_reset_tokens d |}.

Definition setPasswordResetTokens
    (f : gmap string PasswordResetToken.t -> gmap string PasswordResetToken.t)
    (d : Database) : Database :=
  {| users := users d; sessions := sessions d;
     email_verification_tokens := email_verification_tokens d;
     password_reset_tokens := f (password_reset_tokens d) |}.

(** [insertInto(table).values(row)]: the primary key admits no second
    row with the same key. *)
Definition insertRow {A} (stmt : Statement) (table : Database -> gmap string A)
    (setTable : (gmap string A -> gmap string A) -> Database -> Database)
    (key : string) (row : A) : Auth unit :=
  executeChecked stmt
    (fun d => match table d !! key with Some _ => true | None => false end)
    (fun d _ => setTable (insert key row) d) (fun _ _ => tt).

(** [executeTakeFirst] of a select with a [where] on a column that is
    not the primary key. *)
Definition takeFirst {A} (P : A -> bool) (t : gmap string A) : option A :=
  List.find P (map snd (map_to_list t)).

(** [selectFrom('users').selectAll().where('email', '=', email)]. *)
Definition userWithEmail (email : string) (d : Database) : option User.t :=
  takeFirst (fun u => String.eqb (User.email u) email) (users d).

(** [email TEXT UNIQUE NOT NULL]: a row other than [id] already has
    the address. *)
Definition emailTaken (email id : string) (d : Database) : bool :=
  match takeFirst (fun u => String.eqb (User.email u) email
                            && negb (String.eqb (User.id u) id)) (users d) with
  | Some _ => true
  | None => false
  end.

(** The [update_users_updated_at] trigger stamps every updated row. *)
Definition touch (now : Z) (u : User.t) : User.t :=
  {| User.id := User.id u; User.email := User.email u;
     User.email_verified := User.email_verified u;
     User.password_hash := User.password_hash u;
     User.github_id := User.github_id u; User.google_id := User.google_id u;
     User.name := User.name u; User.avatar_url := User.avatar_url u;
     User.created_at := User.created_at u; User.updated_at := now |}.

(** [updateTable('users').set(...).where('id', '=', id)]. *)
Definition updateUser (f : User.t -> User.t) (id : string) (d : Database)
    (now : Z) : Database :=
  setUsers (alter (fun u => touch now (f u)) id) d.

Definition setPasswordHash (h : string) (u : User.t) : User.t :=
  {| User.id := User.id u; User.email := User.email u;
     User.email_verified := User.email_verified u;
     User.password_hash := Some h;
     User.github_id := User.github_id u; User.google_id := User.google_id u;
     User.name := User.name u; User.avatar_url := User.avatar_url u;
     User.created_at := User.created_at u; User.updated_at := User.updated_at u |}.

Definition setEmailVerified (b : bool) (u : User.t) : User.t :=
  {| User.id := User.id u; User.email := User.email u;
     User.email_verified := b;
     User.password_hash := User.password_hash u;
     User.github_id := User.github_id u; User.google_id := User.google_id u;
     User.name := User.name u; User.avatar_url := User.avatar_url u;
     User.created_at := User.created_at u; User.updated_at := User.updated_at u |}.

Definition providerId (provider : Provider) (u : User.t) : option string :=
  match provider with github => User.github_id u | google => User.google_id u end.

Definition setProviderId (provider : Provider) (v : option string) (u : User.t) : User.t :=
  {| User.id := User.id u; User.email := User.email u;
     User.email_verified := User.email_verified u;
     User.password_hash := User.password_hash u;
     User.github_id := match provider with github => v | google => User.github_id u end;
     User.google_id := match provider with google => v | github => User.google_id u end;
     User.name := User.name u; User.avatar_url := User.avatar_url u;
     User.created_at := User.created_at u; User.updated_at := User.updated_at u |}.

Definition setProfile (email : string) (name avatar_url : option string)
    (email_verified : bool) (u : User.t) : User.t :=
  {| User.id := User.id u; User.email := email;
     User.email_verified := email_verified;
     User.password_hash := User.password_hash u;
     User.github_id := User.github_id u; User.google_id := User.google_id u;
     User.name := name; User.avatar_url := avatar_url;
     User.created_at := User.created_at u; User.updated_at := User.updated_at u |}.

(** [where(providerIdColumn, '=', id)]: a null column matches nothing. *)
Definition userWithProviderId (provider : Provider) (id : string) (d : Database)
    : option User.t :=
  takeFirst (fun u => bool_decide (providerId provider u = Some id)) (users d).

(** ** auth/utils.ts *)

Definition validatePassword (password : string) (minLength : nat) : option string :=
  let message :=
    "Password must be at least " +:+ Js.numberToString (N.of_nat minLength)
      +:+ " characters long" in
  if negb (Js.truthy password) || (String.length password =? 0)%nat then Some message
  else if (String.length password <? minLength)%nat then Some message
  else None.

(** [[a-zA-Z0-9](?:[a-zA-Z0-9-]{0,61}[a-zA-Z0-9])?] *)
Definition domainLabel : Regex.t :=
  Regex.Seq (Regex.Class alphanumeric)
    (Regex.opt
       (Regex.Seq (Regex.upTo 61 (Regex.Class (fun c => alphanumeric c || oneOf "-" c)))
                  (Regex.Class alphanumeric))).

(** The local part, [@], a label, and one or more times a dot and a
    label. *)
Definition EMAIL_REGEX : Regex.t :=
  Regex.Seq
    (Regex.plus (Regex.Class (fun c => alphanumeric c || oneOf ".!#$%&'*+/=?^_`{|}~-" c)))
    (Regex.Seq (Regex.char "@")
       (Regex.Seq domainLabel
          (Regex.plus (Regex.Seq (Regex.char ".") domainLabel)))).

Definition isValidEmail (email : string) : bool :=
  if negb (Js.truthy email) || (254 <? String.length email)%nat then false else
  (* Check for spaces (not allowed in email addresses) *)
  if Js.includes email " " then false else
  let trimmedEmail := Js.trim (Js.toLowerCase email) in
  (* Check for consecutive dots *)
  if Js.includes trimmedEmail ".." then false else
  (* Check for leading/trailing dots *)
  let localPart := hd EmptyString (Js.split "@" trimmedEmail) in
  if Js.startsWith localPart "." || Js.endsWith localPart "." then false else
  Regex.test EMAIL_REGEX trimmedEmail.

Definition generateSecureToken (entropySize : nat) : Auth string :=
  bytes ← getRandomValues entropySize;
  mret (Js.removeAll "=" (Base64url.encodePadded bytes)).

Definition normalizeEmail (email : string) : string :=
  Js.trim (Js.toLowerCase email).

(** ** oauth/callbacks.ts *)

Definition generateSessionId (entropySize : nat) : Auth string :=
  bytes ← getRandomValues entropySize;
  mret (Js.removeAll "=" (Base64url.encodePadded bytes)).

(** [a || b] on [string | null]. *)
Definition orElse (a b : option string) : option string :=
  if Js.truthyOpt a then a else b.

(** [gen_random_uuid()], the default of [users.id]. *)
Definition genRandomUuid : Auth string :=
  bytes ← getRandomValues 16;
  mret (Bytes.hex bytes).

Definition executeTakeFirstOrThrow {A} (row : option A) : Auth A :=
  match row with
  | Some r => mret r
  | None => throw (PlainError "no result")
  end.

Definition upsertOAuthUser (provider : Provider) (profile : OAuthUserProfile)
    : Auth User.t :=
  (* Check if user exists by provider ID *)
  existingUser ← query (SelectUserByProviderId provider (profile_id profile))
    (fun d _ => userWithProviderId provider (profile_id profile) d);
  match existingUser with
  | Some existingUser =>
      (* Update existing user with latest profile data; of the unique
         columns only the email changes *)
      updatedUser ← executeChecked (UpdateUserProfile (User.id existingUser))
        (emailTaken (profile_email profile) (User.id existingUser))
        (updateUser
           (setProfile (profile_email profile) (profile_name profile)
              (profile_avatar_url profile)
              (default (User.email_verified existingUser)
                       (profile_email_verified profile)))
           (User.id existingUser))
        (fun _ d' => users d' !! User.id existingUser);
      executeTakeFirstOrThrow updatedUser
  | None =>
      (* Check if user exists by email (linking accounts) *)
      userByEmail ← query (SelectUserByEmail (profile_email profile))
        (fun d _ => userWithEmail (profile_email profile) d);
      match userByEmail with
      | Some userByEmail =>
          (* Link OAuth provider to existing email account; no row has
             this provider id, so the unique column admits it *)
          updatedUser ← executeReturning (UpdateUserLink (User.id userByEmail))
            (updateUser
               (fun u =>
                  setProviderId provider (Some (profile_id profile))
                    (setProfile (User.email u)
                       (orElse (profile_name profile) (User.name userByEmail))
                       (orElse (profile_avatar_url profile) (User.avatar_url userByEmail))
                       (default false (profile_email_verified profile)
                        || User.email_verified userByEmail) u))
               (User.id userByEmail))
            (fun _ d' => users d' !! User.id userByEmail);
          executeTakeFirstOrThrow updatedUser
      | None =>
          (* Create new user *)
          id ← genRandomUuid;
          t ← dateNow;
          let newUser :=
            setProviderId provider (Some (profile_id profile))
              {| User.id := id; User.email := profile_email profile;
                 User.email_verified := default false (profile_email_verified profile);
                 User.password_hash := None;
                 User.github_id := None; User.google_id := None;
                 User.name := profile_name profile;
                 User.avatar_url := profile_avatar_url profile;
                 User.created_at := t; User.updated_at := t |} in
          insertRow (InsertUser id) users setUsers id newUser;;
          mret newUser
      end
  end.

Definition createSession (userId : string) (expiresInSeconds : Z)
    (context : option RequestContext) : Auth string :=
  sessionId ← generateSessionId 25;
  t ← dateNow;
  let expiresAt := t + expiresInSeconds * 1000 in
  let newSession :=
    {| Session.id := sessionId; Session.user_id := userId;
       Session.expires_at := expiresAt;
       Session.ip_address := orElse (context ≫= ipAddress) None;
       Session.user_agent := orElse (context ≫= userAgent) None |} in
  insertRow (InsertSession sessionId userId) sessions setSessions sessionId newSession;;
  mret sessionId.

(** One join query: the session row, not expired, and its user. *)
Definition validateSession (sessionId : string) : Auth (option User.t) :=
  query (SelectSessionUser sessionId) (fun d t =>
    s ← sessions d !! sessionId;
    if t <? Session.expires_at s then users d !! Session.user_id s else None).

Definition deleteSession (sessionId : string) : Auth unit :=
  execute (DeleteSession sessionId) (fun d _ => setSessions (delete sessionId) d).

Definition deleteAllUserSessions (userId : string) : Auth unit :=
  execute (DeleteSessionsOfUser userId) (fun d _ =>
    setSessions (filter (fun kv => Session.user_id kv.2 ≠ userId)) d).

Definition cleanupExpiredSessions : Auth nat :=
  executeReturning DeleteExpiredSessions
    (fun d t => setSessions (filter (fun kv => ¬ (Session.expires_at kv.2 <= t))) d)
    (fun d d' => (size (sessions d) - size (sessions d'))%nat).

(** ** auth/login.ts, auth/reset-password.ts, auth/verify-email.ts *)

Definition defaultPasswordHasher : PasswordHasher.t :=
  createPbkdf2PasswordHasher noOptions.

Definition RESET_TOKEN_EXPIRY : Z := 60 * 60 * 1000.
Definition VERIFICATION_TOKEN_EXPIRY : Z := 24 * 60 * 60 * 1000.

Record ResetRequestResult := {
  rr_success : bool;
  rr_email : string
}.

Record TokenCheck := {
  valid : bool;
  userId : option string
}.

Record Success := { success : bool }.

Record VerifyEmailResult := {
  ve_success : bool;
  ve_userId : option string
}.

Record RegisterResult := {
  reg_user : User.t;
  reg_sessionId : string;
  reg_verificationToken : string
}.

Definition blank (token : string) : bool :=
  negb (Js.truthy token) || String.eqb (Js.trim token) "".

(** [hasher.hash(password)]: the salt comes out of the world's random
    source. *)
Definition hashPassword (hasher : PasswordHasher.t) (password : string)
    : Auth string := fun w =>
  let '(h, r) := PasswordHasher.hash hasher password (rng w) in
  (Returned h, withLog (HashPassword password) (withRng r w)).

(** The optional delivery callback: it is handed the address and the
    token, and its promise resolves ([true]) or rejects. *)
Definition TokenCallbackFn : Type := string -> string -> bool.

Definition callTokenCallback (cb : TokenCallbackFn) (email token : string)
    : Auth unit :=
  emit (TokenCallback email token);;
  if cb email token then mret tt else throw (PlainError "callback rejected").

Section Workflows.

(** database/schema.ts is not among the sources.  Its two validity
    predicates are parameters of the workflows; each reads the clock
    itself, hence the time argument. *)
Variable isValidEmailVerificationToken : Z -> EmailVerificationToken.t -> bool.
Variable isValidPasswordResetToken : Z -> PasswordResetToken.t -> bool.

Definition loginUser (email password : string) (context : option RequestContext)
    (passwordHasher : option PasswordHasher.t) : Auth (User.t * string) :=
  let hasher := default defaultPasswordHasher passwordHasher in
  if negb (Js.truthy email) || negb (Js.truthy password) then
    throw (createAuthError "Email and password are required" "INVALID_CREDENTIALS" 401)
  else
  let normalizedEmail := normalizeEmail email in
  (* Look up user by email *)
  user ← query (SelectUserByEmail normalizedEmail)
    (fun d _ => userWithEmail normalizedEmail d);
  match user with
  | None =>
      (* Generic error message to prevent email enumeration *)
      throw (createAuthError "Invalid email or password" "INVALID_CREDENTIALS" 401)
  | Some user =>
      (* Check if user has a password set (OAuth-only users do not) *)
      if negb (Js.truthyOpt (User.password_hash user)) then
        throw (createAuthError
          "This account uses social login. Please sign in with your social provider."
          "NO_PASSWORD_SET" 400)
      else
      let password_hash := default EmptyString (User.password_hash user) in
      (* Verify password; a rejected promise is caught *)
      match PasswordHasher.verify hasher password_hash password with
      | None =>
          throw (createAuthError "Invalid email or password" "INVALID_CREDENTIALS" 401)
      | Some isValidPassword =>
          if negb isValidPassword then
            throw (createAuthError "Invalid email or password" "INVALID_CREDENTIALS" 401)
          else
          (* Create new session *)
          sessionId ← createSession (User.id user) 2592000
            (Some {| ipAddress := context ≫= ipAddress;
                     userAgent := context ≫= userAgent |});
          mret (user, sessionId)
      end
  end.

Definition requestPasswordReset (email : string)
    (onTokenGenerated : option TokenCallbackFn) : Auth ResetRequestResult :=
  let normalizedEmail := normalizeEmail email in
  (* Look up user by email *)
  user ← query (SelectUserByEmail normalizedEmail)
    (fun d _ => userWithEmail normalizedEmail d);
  match user with
  | None =>
      (* Simulate work to prevent timing attacks *)
      _ ← generateSecureToken 32;
      mret {| rr_success := true; rr_email := normalizedEmail |}
  | Some user =>
      if negb (Js.truthyOpt (User.password_hash user)) then
        mret {| rr_success := true; rr_email := normalizedEmail |}
      else
      (* Delete any existing reset tokens for this user *)
      execute (DeletePasswordResetTokensOfUser (User.id user)) (fun d _ =>
        setPasswordResetTokens
          (filter (fun kv => PasswordResetToken.user_id kv.2 ≠ User.id user)) d);;
      (* Generate password reset token *)
      resetToken ← generateSecureToken 32;
      t ← dateNow;
      let expiresAt := t + RESET_TOKEN_EXPIRY in
      let newToken :=
        {| PasswordResetToken.token := resetToken;
           PasswordResetToken.user_id := User.id user;
           PasswordResetToken.expires_at := expiresAt |} in
      insertRow (InsertPasswordResetToken resetToken (User.id user))
        password_reset_tokens setPasswordResetTokens resetToken newToken;;
      (* Call the optional callback to send the token via email *)
      match onTokenGenerated with
      | Some onTokenGenerated => callTokenCallback onTokenGenerated normalizedEmail resetToken
      | None => mret tt
      end;;
      mret {| rr_success := true; rr_email := normalizedEmail |}
  end.

Definition verifyResetToken (token : string) : Auth TokenCheck :=
  if blank token then mret {| valid := false; userId := None |} else
  (* Look up token in database *)
  tokenRecord ← query (SelectPasswordResetToken token)
    (fun d _ => password_reset_tokens d !! token);
  match tokenRecord with
  | None => mret {| valid := false; userId := None |}
  | Some tokenRecord =>
      t ← dateNow;
      (* Check if token is expired *)
      if negb (isValidPasswordResetToken t tokenRecord) then
        (* Delete expired token *)
        execute (DeletePasswordResetToken token) (fun d _ =>
          setPasswordResetTokens (delete token) d);;
        mret {| valid := false; userId := None |}
      else
        mret {| valid := true;
                userId := Some (PasswordResetToken.user_id tokenRecord) |}
  end.

Definition resetPassword (token newPassword : string)
    (passwordHasher : option PasswordHasher.t) : Auth Success :=
  let hasher := default defaultPasswordHasher passwordHasher in
  if blank token then
    throw (createAuthError "Reset token is required" "INVALID_TOKEN" 400)
  else
  (* Validate new password *)
  match validatePassword newPassword 8 with
  | Some passwordError => throw (createAuthError passwordError "INVALID_PASSWORD" 400)
  | None =>
  (* Look up token in database *)
  tokenRecord ← query (SelectPasswordResetToken token)
    (fun d _ => password_reset_tokens d !! token);
  match tokenRecord with
  | None => throw (createAuthError "Invalid or expired reset token" "INVALID_TOKEN" 400)
  | Some tokenRecord =>
      t ← dateNow;
      (* Check if token is expired *)
      if negb (isValidPasswordResetToken t tokenRecord) then
        (* Delete expired token *)
        execute (DeletePasswordResetToken token) (fun d _ =>
          setPasswordResetTokens (delete token) d);;
        throw (createAuthError "Reset token has expired" "TOKEN_EXPIRED" 400)
      else
      (* Hash new password *)
      passwordHash ← hashPassword hasher newPassword;
      (* Update user's password *)
      execute (UpdateUserPasswordHash (PasswordResetToken.user_id tokenRecord) passwordHash)
        (updateUser (setPasswordHash passwordHash)
                    (PasswordResetToken.user_id tokenRecord));;
      (* Delete used reset token *)
      execute (DeletePasswordResetToken token) (fun d _ =>
        setPasswordResetTokens (delete token) d);;
      (* Invalidate all sessions for security *)
      deleteAllUserSessions (PasswordResetToken.user_id tokenRecord);;
      mret {| success := true |}
  end
  end.

Definition cleanupExpiredResetTokens : Auth nat :=
  executeReturning DeleteExpiredPasswordResetTokens
    (fun d t => setPasswordResetTokens
       (filter (fun kv => ¬ (PasswordResetToken.expires_at kv.2 <= t))) d)
    (fun d d' => (size (password_reset_tokens d) - size (password_reset_tokens d'))%nat).

Definition verifyEmail (token : string) : Auth VerifyEmailResult :=
  if blank token then
    throw (createAuthError "Verification token is required" "INVALID_TOKEN" 400)
  else
  (* Look up token in database *)
  tokenRecord ← query (SelectEmailVerificationToken token)
    (fun d _ => email_verification_tokens d !! token);
  match tokenRecord with
  | None => throw (createAuthError "Invalid verification token" "INVALID_TOKEN" 400)
  | Some tokenRecord =>
      t ← dateNow;
      (* Check if token is expired *)
      if negb (isValidEmailVerificationToken t tokenRecord) then
        (* Delete expired token *)
        execute (DeleteEmailVerificationToken token) (fun d _ =>
          setEmailVerificationTokens (delete token) d);;
        throw (createAuthError "Verification token has expired" "TOKEN_EXPIRED" 400)
      else
      (* Mark user's email as verified *)
      execute (UpdateUserEmailVerified (EmailVerificationToken.user_id tokenRecord))
        (updateUser (setEmailVerified true)
                    (EmailVerificationToken.user_id tokenRecord));;
      (* Delete used verification token *)
      execute (DeleteEmailVerificationToken token) (fun d _ =>
        setEmailVerificationTokens (delete token) d);;
      mret {| ve_success := true;
              ve_userId := Some (EmailVerificationToken.user_id tokenRecord) |}
  end.

Definition resendVerificationEmail (email : string) : Auth string :=
  let normalizedEmail := normalizeEmail email in
  user ← query (SelectUserByEmail normalizedEmail)
    (fun d _ => userWithEmail normalizedEmail d);
  match user with
  | None =>
      (* Don't reveal whether email exists (security) *)
      throw (createAuthError "If this email exists, a verification link will be sent"
                             "EMAIL_SENT" 200)
  | Some user =>
      if User.email_verified user then
        throw (createAuthError "Email is already verified" "ALREADY_VERIFIED" 400)
      else
      (* Delete any existing verification tokens for this user *)
      execute (DeleteEmailVerificationTokensOfUser (User.id user)) (fun d _ =>
        setEmailVerificationTokens
          (filter (fun kv => EmailVerificationToken.user_id kv.2 ≠ User.id user)) d);;
      (* Generate new verification token *)
      verificationToken ← generateSecureToken 32;
      t ← dateNow;
      let expiresAt := t + VERIFICATION_TOKEN_EXPIRY in
      let newToken :=
        {| EmailVerificationToken.token := verificationToken;
           EmailVerificationToken.user_id := User.id user;
           EmailVerificationToken.email := normalizedEmail;
           EmailVerificationToken.expires_at := expiresAt |} in
      insertRow (InsertEmailVerificationToken verificationToken (User.id user))
        email_verification_tokens setEmailVerificationTokens verificationToken newToken;;
      mret verificationToken
  end.

(** auth/register.ts *)
Definition registerUser (email password : string) (context : option RequestContext)
    (passwordHasher : option PasswordHasher.t) : Auth RegisterResult :=
  let hasher := default defaultPasswordHasher passwordHasher in
  (* Validate email *)
  if negb (isValidEmail email) then
    throw (createAuthError "Invalid email address" "INVALID_EMAIL" 400)
  else
  (* Validate password *)
  match validatePassword password 8 with
  | Some passwordError => throw (createAuthError passwordError "INVALID_PASSWORD" 400)
  | None =>
  (* Normalize email *)
  let normalizedEmail := normalizeEmail email in
  (* Check if user already exists *)
  existingUser ← query (SelectUserByEmail normalizedEmail)
    (fun d _ => userWithEmail normalizedEmail d);
  match existingUser with
  | Some _ =>
      throw (createAuthError "User with this email already exists" "EMAIL_EXISTS" 409)
  | None =>
      (* Hash password *)
      passwordHash ← hashPassword hasher password;
      (* Create user; the store supplies the id and the two timestamps *)
      id ← genRandomUuid;
      t ← dateNow;
      let user :=
        {| User.id := id; User.email := normalizedEmail;
           User.email_verified := false;
           User.password_hash := Some passwordHash;
           User.github_id := None; User.google_id := None;
           User.name := None; User.avatar_url := None;
           User.created_at := t; User.updated_at := t |} in
      insertRow (InsertUser id) users setUsers id user;;
      (* Generate email verification token *)
      verificationToken ← generateSecureToken 32;
      t ← dateNow;
      let expiresAt := t + VERIFICATION_TOKEN_EXPIRY in
      let newToken :=
        {| EmailVerificationToken.token := verificationToken;
           EmailVerificationToken.user_id := User.id user;
           EmailVerificationToken.email := normalizedEmail;
           EmailVerificationToken.expires_at := expiresAt |} in
      insertRow (InsertEmailVerificationToken verificationToken (User.id user))
        email_verification_tokens setEmailVerificationTokens verificationToken newToken;;
      (* Create initial session *)
      sessionId ← createSession (User.id user) 2592000
        (Some {| ipAddress := context ≫= ipAddress;
                 userAgent := context ≫= userAgent |});
      mret {| reg_user := user; reg_sessionId := sessionId;
              reg_verificationToken := verificationToken |}
  end
  end.

Definition cleanupExpiredVerificationTokens : Auth nat :=
  executeReturning DeleteExpiredEmailVerificationTokens
    (fun d t => setEmailVerificationTokens
       (filter (fun kv => ¬ (EmailVerificationToken.expires_at kv.2 <= t))) d)
    (fun d d' => (size (email_verification_tokens d)
                  - size (email_verification_tokens d'))%nat).

End Workflows.

(** ** oauth/github.ts, oauth/google.ts *)

Module OAuth.

(** The calls a callback handler makes to its collaborators, in order. *)
Inductive Call :=
| ValidateAuthorizationCode (provider : Provider) (code : string)
    (codeVerifier : option string)
| FetchUser (provider : Provider) (accessToken : string)
| FetchEmails (accessToken : string).

(** A computation that records its calls. *)
Definition Net (A : Type) : Type := list Call * Outcome A.

#[global] Instance Net_ret : MRet Net := fun A a => ([], Returned a).

#[global] Instance Net_bind : MBind Net := fun A B f m =>
  match m with
  | (calls, Returned a) => let '(calls', r) := f a in (calls ++ calls', r)
  | (calls, Thrown e) => (calls, Thrown e)
  end.

Definition fail {A} (message : string) : Net A := ([], Thrown (PlainError message)).

Definition call {A} (c : Call) (reply : Outcome A) : Net A := ([c], reply).

Record ProviderConfig := {
  clientId : string;
  clientSecret : string;
  redirectUri : string
}.

Record MechAuthConfig := {
  oauth_github : option ProviderConfig;
  oauth_google : option ProviderConfig
}.

Record OAuthTokens := {
  accessToken : string;
  refreshToken : option string
}.

Record OAuthCallbackResult := {
  result_profile : OAuthUserProfile;
  result_accessToken : option string;
  result_refreshToken : option string
}.

(** An HTTP reply as the handlers read it: [ok] with a decoded body,
    or a status and status text. *)
Inductive Reply (A : Type) :=
| Ok (body : A)
| NotOk (status : N) (statusText : string).
Arguments Ok {A} body.
Arguments NotOk {A} status statusText.

Record GitHubUser := {
  gh_id : N;
  gh_login : string;
  gh_email : option string;
  gh_name : option string;
  gh_avatar_url : option string
}.

Record GitHubEmail := {
  ghe_email : string;
  ghe_primary : bool;
  ghe_verified : bool
}.

Record GoogleUser := {
  sub : string;
  g_email : option string;
  g_email_verified : bool;
  g_name : option string;
  g_picture : option string
}.

(** The provider's side: the token endpoint (through Arctic) and the
    profile endpoints (through [fetch]). *)
Record Remote := {
  token_endpoint : Provider -> string -> option string -> Outcome OAuthTokens;
  github_user : string -> Reply GitHubUser;
  github_emails : string -> Reply (list GitHubEmail);
  google_userinfo : string -> Reply GoogleUser
}.

Section WithRemote.
Variable remote : Remote.

(** oauth/arctic-providers.ts *)
Definition createProvider (provider : Provider) (config : MechAuthConfig)
    : Net ProviderConfig :=
  let label := match provider with github => "GitHub" | google => "Google" end in
  match (match provider with
         | github => oauth_github config
         | google => oauth_google config
         end) with
  | None => fail (label +:+ " OAuth is not configured")
  | Some c =>
      if negb (Js.truthy (clientId c)) || negb (Js.truthy (clientSecret c))
         || negb (Js.truthy (redirectUri c))
      then fail (label +:+ " OAuth configuration is incomplete (missing clientId, clientSecret, or redirectUri)")
      else mret c
  end.

Definition httpError (prefix : string) (status : N) (statusText : string) : string :=
  prefix +:+ Js.numberToString status +:+ " " +:+ statusText.

Definition fetchGitHubUserProfile (accessToken : string) : Net OAuthUserProfile :=
  userResponse ← call (FetchUser github accessToken)
    (Returned (github_user remote accessToken));
  match userResponse with
  | NotOk status statusText => fail (httpError "GitHub API error: " status statusText)
  | Ok user =>
      (* If email is not public, fetch from emails endpoint *)
      '(email, emailVerified) ←
        (if negb (Js.truthyOpt (gh_email user)) then
           emailsResponse ← call (FetchEmails accessToken)
             (Returned (github_emails remote accessToken));
           match emailsResponse with
           | NotOk status statusText =>
               fail (httpError "GitHub API error (emails): " status statusText)
           | Ok emails =>
               (* Find primary verified email *)
               match List.find (fun e => ghe_primary e && ghe_verified e) emails with
               | Some primaryEmail =>
                   mret (Some (ghe_email primaryEmail), ghe_verified primaryEmail)
               | None =>
                   (* Fall back to first verified email *)
                   match List.find ghe_verified emails with
                   | Some verifiedEmail =>
                       mret (Some (ghe_email verifiedEmail), ghe_verified verifiedEmail)
                   | None => fail "No verified email found in GitHub account"
                   end
               end
           end
         else mret (gh_email user, false));
      if negb (Js.truthyOpt email) then fail "No email found in GitHub account"
      else
        mret {| profile_id := Js.numberToString (gh_id user);
                profile_email := default EmptyString email;
                profile_name := gh_name user;
                profile_avatar_url := gh_avatar_url user;
                profile_email_verified := Some emailVerified |}
  end.

Definition handleGitHubCallback (config : MechAuthConfig)
    (code storedState returnedState : string) : Net OAuthCallbackResult :=
  (* Validate state parameter (CSRF protection) *)
  if negb (String.eqb storedState returnedState) then
    fail "Invalid OAuth state parameter"
  else
  _ ← createProvider github config;
  (* Exchange authorization code for access token *)
  tokens ← call (ValidateAuthorizationCode github code None)
    (token_endpoint remote github code None);
  let accessToken := accessToken tokens in
  (* Fetch user profile from GitHub API *)
  profile ← fetchGitHubUserProfile accessToken;
  mret {| result_profile := profile;
          result_accessToken := Some accessToken;
          result_refreshToken := None |}.

Definition fetchGoogleUserProfile (accessToken : string) : Net OAuthUserProfile :=
  response ← call (FetchUser google accessToken)
    (Returned (google_userinfo remote accessToken));
  match response with
  | NotOk status statusText => fail (httpError "Google API error: " status statusText)
  | Ok user =>
      if negb (Js.truthyOpt (g_email user)) then fail "No email found in Google account"
      else
        mret {| profile_id := sub user;
                profile_email := default EmptyString (g_email user);
                profile_name := orElse (g_name user) None;
                profile_avatar_url := orElse (g_picture user) None;
                profile_email_verified := Some (g_email_verified user) |}
  end.

Definition handleGoogleCallback (config : MechAuthConfig)
    (code storedState returnedState codeVerifier : string) : Net OAuthCallbackResult :=
  (* Validate state parameter (CSRF protection) *)
  if negb (String.eqb storedState returnedState) then
    fail "Invalid OAuth state parameter"
  else
  _ ← createProvider google config;
  (* Exchange authorization code for access token (with PKCE) *)
  tokens ← call (ValidateAuthorizationCode google code (Some codeVerifier))
    (token_endpoint remote google code (Some codeVerifier));
  (* Fetch user profile from Google API *)
  profile ← fetchGoogleUserProfile (accessToken tokens);
  mret {| result_profile := profile;
          result_accessToken := Some (accessToken tokens);
          result_refreshToken := refreshToken tokens |}.

End WithRemote.

End OAuth.

(** ** URI components ([encodeURIComponent], [decodeURIComponent]) *)

(** A string value of the program: either one this embedding's strings
    can hold, or one with a code unit above U+00FF. *)
Inductive JsText :=
| Latin1 (s : string)
| NotLatin1.

Module Uri.

(** [A-Z a-z 0-9 - _ . ! ~ * ' ( )] *)
Definition unreserved (c : ascii) : bool :=
  alphanumeric c || oneOf "-_.!~*'()" c.

Definition hexDigit (n : Z) : ascii :=
  nth (Z.to_nat n) (list_ascii_of_string "0123456789ABCDEF") "0"%char.

Definition escape (b : byte) : string :=
  String "%" (String (hexDigit (Bytes.to_Z b / 16))
                     (String (hexDigit (Bytes.to_Z b mod 16)) EmptyString)).

Fixpoint encodeURIComponent (s : string) : string :=
  match s with
  | EmptyString => EmptyString
  | String c s' =>
      (if unreserved c then String c EmptyString
       else String.concat EmptyString (map escape (Js.utf8Char c)))
      +:+ encodeURIComponent s'
  end.

Definition hexValue (c : ascii) : option Z :=
  let n := Z.of_nat (nat_of_ascii c) in
  if (48 <=? n) && (n <=? 57) then Some (n - 48)
  else if (65 <=? n) && (n <=? 70) then Some (n - 55)
  else if (97 <=? n) && (n <=? 102) then Some (n - 87)
  else None.

(** The string cut into characters and escapes; [None] when a [%] is
    not followed by two hexadecimal digits. *)
Inductive Token :=
| Plain (c : ascii)
| Escaped (b : Z).

Fixpoint tokens (s : string) : option (list Token) :=
  match s with
  | EmptyString => Some []
  | String c s' =>
      if Ascii.eqb c "%" then
        match s' with
        | String h (String l rest) =>
            match hexValue h, hexValue l, tokens rest with
            | Some hv, Some lv, Some more => Some (Escaped (hv * 16 + lv) :: more)
            | _, _, _ => None
            end
        | _ => None
        end
      else (fun more => Plain c :: more) <$> tokens s'
  end.

Definition between (lo hi b : Z) : bool := (lo <=? b) && (b <=? hi).

(** The well-formed UTF-8 sequences of two, three and four bytes. *)
Definition valid2 (b1 b2 : Z) : bool := between 194 223 b1 && between 128 191 b2.

Definition valid3 (b1 b2 b3 : Z) : bool :=
  ((b1 =? 224) && between 160 191 b2
   || (between 225 236 b1 || between 238 239 b1) && between 128 191 b2
   || (b1 =? 237) && between 128 159 b2)
  && between 128 191 b3.

Definition valid4 (b1 b2 b3 b4 : Z) : bool :=
  ((b1 =? 240) && between 144 191 b2
   || between 241 243 b1 && between 128 191 b2
   || (b1 =? 244) && between 128 143 b2)
  && between 128 191 b3 && between 128 191 b4.

Definition uriError : Error := PlainError "URI malformed".

Definition cons (c : ascii) (r : Outcome JsText) : Outcome JsText :=
  match r with
  | Returned (Latin1 s) => Returned (Latin1 (String c s))
  | other => other
  end.

Definition wide (r : Outcome JsText) : Outcome JsText :=
  match r with
  | Returned _ => Returned NotLatin1
  | other => other
  end.

Definition latin1Char (n : Z) : ascii := ascii_of_nat (Z.to_nat n).

Fixpoint decodeTokens (ts : list Token) : Outcome JsText :=
  match ts with
  | [] => Returned (Latin1 EmptyString)
  | Plain c :: rest => cons c (decodeTokens rest)
  | Escaped b1 :: rest =>
      if b1 <? 128 then cons (latin1Char b1) (decodeTokens rest)
      else if between 192 223 b1 then
        match rest with
        | Escaped b2 :: rest' =>
            if valid2 b1 b2 then
              let codePoint := (b1 - 192) * 64 + (b2 - 128) in
              if codePoint <? 256 then cons (latin1Char codePoint) (decodeTokens rest')
              else wide (decodeTokens rest')
            else Thrown uriError
        | _ => Thrown uriError
        end
      else if between 224 239 b1 then
        match rest with
        | Escaped b2 :: Escaped b3 :: rest' =>
            if valid3 b1 b2 b3 then wide (decodeTokens rest') else Thrown uriError
        | _ => Thrown uriError
        end
      else if between 240 247 b1 then
        match rest with
        | Escaped b2 :: Escaped b3 :: Escaped b4 :: rest' =>
            if valid4 b1 b2 b3 b4 then wide (decodeTokens rest') else Thrown uriError
        | _ => Thrown uriError
        end
      else Thrown uriError
  end.

Definition decodeURIComponent (s : string) : Outcome JsText :=
  match tokens s with
  | Some ts => decodeTokens ts
  | None => Thrown uriError
  end.

End Uri.

(** ** Dates ([Date.prototype.toUTCString]) *)

Module Date.

(** The time value in milliseconds since the epoch; [None] is an
    invalid date. *)
Definition t : Type := option Z.

(** [new Date(value)] for an integer. *)
Definition make (value : Z) : t :=
  if Z.abs value <=? 8640000000000000 then Some value else None.

Definition msPerDay : Z := 86400000.

(** Year, month (1 to 12) and day of the month of a day number,
    counted from 1 January 1970. *)
Definition civil (day : Z) : Z * Z * Z :=
  let z := day + 719468 in
  let era := z / 146097 in
  let dayOfEra := z - era * 146097 in
  let yearOfEra :=
    (dayOfEra - dayOfEra / 1460 + dayOfEra / 36524 - dayOfEra / 146096) / 365 in
  let dayOfYear := dayOfEra - (365 * yearOfEra + yearOfEra / 4 - yearOfEra / 100) in
  let mp := (5 * dayOfYear + 2) / 153 in
  let d := dayOfYear - (153 * mp + 2) / 5 + 1 in
  let m := if mp <? 10 then mp + 3 else mp - 9 in
  ((if m <=? 2 then yearOfEra + era * 400 + 1 else yearOfEra + era * 400), m, d).

Definition digits (n : Z) : string := Js.numberToString (Z.to_N n).

(** Decimal digits, padded with zeros to at least [width]. *)
Definition padded (width : nat) (n : Z) : string :=
  let s := digits n in
  string_of_list_ascii (repeat "0"%char (width - String.length s)) +:+ s.

Definition weekdays : list string := ["Sun"; "Mon"; "Tue"; "Wed"; "Thu"; "Fri"; "Sat"]%string.
Definition months : list string :=
  ["Jan"; "Feb"; "Mar"; "Apr"; "May"; "Jun"; "Jul"; "Aug"; "Sep"; "Oct"; "Nov"; "Dec"]%string.

Definition toUTCString (date : t) : string :=
  match date with
  | None => "Invalid Date"
  | Some tv =>
      let day := tv / msPerDay in
      let timeInDay := tv mod msPerDay in
      let '(year, month, dayOfMonth) := civil day in
      nth (Z.to_nat ((day + 4) mod 7)) weekdays EmptyString +:+ ", "
        +:+ padded 2 dayOfMonth +:+ " "
        +:+ nth (Z.to_nat (month - 1)) months EmptyString +:+ " "
        +:+ (if year <? 0 then "-" else "") +:+ padded 4 (Z.abs year) +:+ " "
        +:+ padded 2 (timeInDay / 3600000) +:+ ":"
        +:+ padded 2 (timeInDay / 60000 mod 60) +:+ ":"
        +:+ padded 2 (timeInDay / 1000 mod 60) +:+ " GMT"
  end.

End Date.

(** ** Cookies (oauth/callbacks.ts) *)

(** Template-literal rendering of an integer. *)
Definition integerToString (n : Z) : string :=
  if n <? 0 then "-" +:+ Js.numberToString (Z.to_N (- n)) else Js.numberToString (Z.to_N n).

(** The object [parseCookies] builds.  Assigning to [__proto__] on a
    plain object creates no property. *)
Definition setCookie (name : string) (value : JsText) (cookies : gmap string JsText)
    : gmap string JsText :=
  if String.eqb name "__proto__" then cookies else <[name := value]> cookies.

Definition parseCookies (cookieHeader : string) : Outcome (gmap string JsText) :=
  if negb (Js.truthy cookieHeader) then Returned ∅ else
  let pairs := Js.split ";" cookieHeader in
  fold_left
    (fun result pair =>
       match result with
       | Thrown e => Thrown e
       | Returned cookies =>
           match Js.split "=" (Js.trim pair) with
           | name :: value :: _ =>
               if Js.truthy name && Js.truthy value then
                 match Uri.decodeURIComponent value with
                 | Returned decoded => Returned (setCookie name decoded cookies)
                 | Thrown e => Thrown e
                 end
               else Returned cookies
           | _ => Returned cookies
           end
       end)
    pairs (Returned ∅).

Inductive SameSite := strict | lax | none.

Definition sameSiteString (s : SameSite) : string :=
  match s with strict => "strict" | lax => "lax" | none => "none" end.

(** [s.charAt(0).toUpperCase() + s.slice(1)] on a string that starts
    with a letter from [a] to [z]. *)
Definition capitalize (s : string) : string :=
  match s with
  | EmptyString => EmptyString
  | String c rest =>
      String (if inRange 97 122 c then ascii_of_nat (nat_of_ascii c - 32) else c) rest
  end.

Module CookieOptions.
Record t := {
  httpOnly : option bool;
  secure : option bool;
  sameSite : option SameSite;
  path : option string;
  maxAge : option Z;
  expires : option Date.t
}.
End CookieOptions.

(** The parts of the header, before they are joined. *)
Definition cookieParts (name value : string) (options : CookieOptions.t) : list string :=
  [name +:+ "=" +:+ Uri.encodeURIComponent value]
  ++ (if bool_decide (CookieOptions.httpOnly options = Some false) then []
      else ["HttpOnly"%string])
  ++ (if bool_decide (CookieOptions.secure options = Some false) then []
      else ["Secure"%string])
  ++ match CookieOptions.sameSite options with
     | Some s => ["SameSite=" +:+ capitalize (sameSiteString s)]
     | None => []
     end
  ++ (if Js.truthyOpt (CookieOptions.path options)
      then ["Path=" +:+ default EmptyString (CookieOptions.path options)] else [])
  ++ match CookieOptions.maxAge options with
     | Some seconds => ["Max-Age=" +:+ integerToString seconds]
     | None => []
     end
  ++ match CookieOptions.expires options with
     | Some date => ["Expires=" +:+ Date.toUTCString date]
     | None => []
     end.

Definition createCookieHeader (name value : string) (options : CookieOptions.t) : string :=
  String.concat "; " (cookieParts name value options).

(** [createCookieHeader(name, '', { ...options, maxAge: 0, expires: new Date(0) })]
    for the one option callers pass, the path. *)
Definition createDeleteCookieHeader (name : string) (cookiePath : option string) : string :=
  createCookieHeader name EmptyString
    {| CookieOptions.httpOnly := None; CookieOptions.secure := None;
       CookieOptions.sameSite := None; CookieOptions.path := cookiePath;
       CookieOptions.maxAge := Some 0; CookieOptions.expires := Some (Date.make 0) |}.


(** ** The OAuth HTTP handler (oauth/handler.ts) *)

(** What the handlers read of a request: the query parameters of its
    URL ([url.searchParams.get]) and its headers ([headers.get], by
    lower-case name). *)
Record Request := {
  searchParam : string -> option string;
  header : string -> option string
}.

Record Response := {
  status : Z;
  body : option string;
  responseHeaders : list (string * string)
}.

Record SessionCookieConfig := {
  cookie_name : option string;
  cookie_sameSite : option SameSite;
  cookie_httpOnly : option bool;
  cookie_secure : option bool;
  cookie_path : option string
}.

Record SessionConfig := {
  expiresIn : option Z;
  cookie : option SessionCookieConfig
}.

(** The fields of [MechAuthConfig] the OAuth handler reads. *)
Record HandlerConfig := {
  oauth : OAuth.MechAuthConfig;
  session : option SessionConfig;
  isProduction : option bool
}.

Definition getRequestContext (request : Request) : RequestContext :=
  {| ipAddress :=
       orElse (header request "cf-connecting-ip")
         (orElse (header request "x-real-ip")
            (orElse ((fun v => hd EmptyString (Js.split "," v))
                         <$> header request "x-forwarded-for")
                      None));
     userAgent := orElse (header request "user-agent") None |}.

Definition createHeadersWithCookies (cookies : list string) (location : option string)
    : list (string * string) :=
  (if Js.truthyOpt location
   then [("Location"%string, default EmptyString location)] else [])
  ++ map (fun cookie => ("Set-Cookie"%string, cookie)) cookies.

Definition errorMessage (e : Error) : string :=
  match e with
  | AuthError message _ _ => message
  | PlainError message => message
  end.

Definition textResponse (message : string) (code : Z) : Response :=
  {| status := code; body := Some message; responseHeaders := [] |}.

(** The result of a handler: the calls it made to the provider, its
    response, and the world it leaves. *)
Definition Handled : Type := list OAuth.Call * (Response * World).

Definition handleGitHubCallbackRequest (remote : OAuth.Remote) (request : Request)
    (config : HandlerConfig) (w : World) : Handled :=
  let caught (calls : list OAuth.Call) (e : Error) (w' : World) : Handled :=
    (calls, (textResponse (errorMessage e) 400, w')) in
  let code := searchParam request "code" in
  let returnedState := searchParam request "state" in
  let error := searchParam request "error" in
  (* Check for OAuth errors *)
  if Js.truthyOpt error then
    ([], (textResponse ("OAuth error: " +:+ default EmptyString error) 400, w))
  else if negb (Js.truthyOpt code) || negb (Js.truthyOpt returnedState) then
    ([], (textResponse "Missing code or state parameter" 400, w))
  else
  let code := default EmptyString code in
  let returnedState := default EmptyString returnedState in
  (* Get stored state from cookie *)
  match parseCookies (default EmptyString (orElse (header request "cookie") (Some EmptyString))) with
  | Thrown e => caught [] e w
  | Returned cookies =>
      let storedState := cookies !! "oauth_state"%string in
      if negb (match storedState with
               | Some (Latin1 s) => Js.truthy s
               | Some NotLatin1 => true
               | None => false
               end)
      then ([], (textResponse "Missing state cookie" 400, w))
      else
      (* Handle OAuth callback; a stored state this embedding's strings
         cannot hold differs from every returned state *)
      let '(calls, result) :=
        match storedState with
        | Some (Latin1 storedState) =>
            OAuth.handleGitHubCallback remote (oauth config) code storedState returnedState
        | _ => OAuth.fail "Invalid OAuth state parameter"
        end in
      match result with
      | Thrown e => caught calls e w
      | Returned result =>
          (* Upsert user *)
          match upsertOAuthUser github (OAuth.result_profile result) w with
          | (Thrown e, w1) => caught calls e w1
          | (Returned user, w1) =>
              (* Create session *)
              let context := getRequestContext request in
              let expiresInSeconds := default 2592000 (session config ≫= expiresIn) in
              match createSession (User.id user) expiresInSeconds (Some context) w1 with
              | (Thrown e, w2) => caught calls e w2
              | (Returned sessionId, w2) =>
                  (* Create session cookie *)
                  let cookieConfig := session config ≫= cookie in
                  let cookieName :=
                    default "session"%string (cookieConfig ≫= cookie_name) in
                  let sessionCookie :=
                    createCookieHeader cookieName sessionId
                      {| CookieOptions.httpOnly :=
                           Some (default true (cookieConfig ≫= cookie_httpOnly));
                         CookieOptions.secure :=
                           Some (default (default true (isProduction config))
                                         (cookieConfig ≫= cookie_secure));
                         CookieOptions.sameSite :=
                           Some (default lax (cookieConfig ≫= cookie_sameSite));
                         CookieOptions.path :=
                           Some (default "/"%string (cookieConfig ≫= cookie_path));
                         CookieOptions.maxAge := Some expiresInSeconds;
                         CookieOptions.expires := None |} in
                  (* Clear state cookie *)
                  let deleteStateCookie :=
                    createDeleteCookieHeader "oauth_state" (Some "/"%string) in
                  (* Redirect to success page or home *)
                  let headers :=
                    createHeadersWithCookies [sessionCookie; deleteStateCookie]
                                             (Some "/"%string) in
                  (calls, ({| status := 302; body := None; responseHeaders := headers |}, w2))
              end
          end
      end
  end.

(** ** Routing (utils/normalize-auth-path.ts, handler.ts, auth/handler.ts) *)

(** [s.replace(/\/$/, '')]: a slash at the very end goes. *)
Fixpoint dropTrailingSlash (s : string) : string :=
  match s with
  | EmptyString => EmptyString
  | String c s' =>
      if Ascii.eqb c "/" && negb (Js.truthy s') then EmptyString
      else String c (dropTrailingSlash s')
  end.

Definition normalizeAuthPath (pathname : string) : string :=
  let path := dropTrailingSlash pathname in
  if Js.startsWith path "/api/auth" then Js.slice 4 path else path.

Definition providerName : Regex.t := Regex.Alt (Regex.text "github") (Regex.text "google").

Definition oauthPatterns : list Regex.t :=
  [Regex.Seq (Regex.text "/auth/oauth/") providerName;
   Regex.Seq (Regex.text "/auth/") (Regex.Seq providerName (Regex.text "/login"));
   Regex.Seq (Regex.text "/auth/callback/") providerName;
   Regex.Seq (Regex.text "/auth/") (Regex.Seq providerName (Regex.text "/callback"))].

Definition isOAuthRoute (pathname : string) : bool :=
  let normalizedPath := normalizeAuthPath pathname in
  existsb (fun pattern => Regex.test pattern normalizedPath) oauthPatterns.

Definition authPatterns : list Regex.t :=
  [Regex.text "/auth/session";
   Regex.text "/auth/register";
   Regex.text "/auth/verify-email";
   Regex.text "/auth/resend-verification";
   Regex.text "/auth/login";
   Regex.text "/auth/logout";
   Regex.text "/auth/request-reset";
   Regex.text "/auth/reset-password"].

Definition isAuthRoute (pathname : string) : bool :=
  let normalizedPath := normalizeAuthPath pathname in
  existsb (fun pattern => Regex.test pattern normalizedPath) authPatterns.

(** The four handlers [handleOAuthRequest] chooses from, and its own
    404 response. *)
Record OAuthHandlers (R : Type) := {
  gitHubLogin : R;
  gitHubCallback : R;
  googleLogin : R;
  googleCallback : R;
  oauthNotFound : R
}.
Arguments gitHubLogin {R} _.
Arguments gitHubCallback {R} _.
Arguments googleLogin {R} _.
Arguments googleCallback {R} _.
Arguments oauthNotFound {R} _.

Definition handleOAuthRequest {R} (handlers : OAuthHandlers R) (urlPathname : string) : R :=
  let pathname := normalizeAuthPath urlPathname in
  (* GitHub OAuth routes *)
  if String.eqb pathname "/auth/oauth/github" || String.eqb pathname "/auth/github/login"
  then gitHubLogin handlers
  else if String.eqb pathname "/auth/callback/github"
          || String.eqb pathname "/auth/github/callback"
  then gitHubCallback handlers
  (* Google OAuth routes *)
  else if String.eqb pathname "/auth/oauth/google" || String.eqb pathname "/auth/google/login"
  then googleLogin handlers
  else if String.eqb pathname "/auth/callback/google"
          || String.eqb pathname "/auth/google/callback"
  then googleCallback handlers
  else oauthNotFound handlers.

(** The handlers [handleAuthRequest] chooses from, and its 405 and 404
    responses. *)
Record AuthHandlers (R : Type) := {
  handleSession : R;
  handleRegister : R;
  handleVerifyEmail : R;
  handleResendVerification : R;
  handleLogin : R;
  handleLogout : R;
  handleRequestReset : R;
  handleResetPassword : R;
  methodNotAllowed : R;
  authNotFound : R
}.
Arguments handleSession {R} _.
Arguments handleRegister {R} _.
Arguments handleVerifyEmail {R} _.
Arguments handleResendVerification {R} _.
Arguments handleLogin {R} _.
Arguments handleLogout {R} _.
Arguments handleRequestReset {R} _.
Arguments handleResetPassword {R} _.
Arguments methodNotAllowed {R} _.
Arguments authNotFound {R} _.

Definition handleAuthRequest {R} (handlers : AuthHandlers R) (method urlPathname : string)
    : R :=
  let path :=
    if Js.startsWith urlPathname "/api/auth" then Js.slice 4 urlPathname else urlPathname in
  (* Handle GET /auth/session *)
  if String.eqb method "GET" && String.eqb path "/auth/session" then handleSession handlers
  (* Only handle POST requests for other routes *)
  else if negb (String.eqb method "POST") then methodNotAllowed handlers
  (* Route to appropriate handler *)
  else if String.eqb path "/auth/register" then handleRegister handlers
  else if String.eqb path "/auth/verify-email" then handleVerifyEmail handlers
  else if String.eqb path "/auth/resend-verification" then handleResendVerification handlers
  else if String.eqb path "/auth/login" then handleLogin handlers
  else if String.eqb path "/auth/logout" then handleLogout handlers
  else if String.eqb path "/auth/request-reset" then handleRequestReset handlers
  else if String.eqb path "/auth/reset-password" then handleResetPassword handlers
  else authNotFound handlers.

(** The choices of [handleMechAuthRequest]: the preflight answer, the
    two handlers and its own 404 response, and what [addCorsHeaders]
    makes of a response. *)
Record MechAuthHandlers (R : Type) := {
  handleCorsPreflightRequest : R;
  oauthHandlers : OAuthHandlers R;
  authHandlers : AuthHandlers R;
  routeNotFound : R;
  addCorsHeaders : R -> R
}.
Arguments handleCorsPreflightRequest {R} _.
Arguments oauthHandlers {R} _.
Arguments authHandlers {R} _.
Arguments routeNotFound {R} _.
Arguments addCorsHeaders {R} _ _.

(** [corsConfigured] is the truth value of [config.cors]. *)
Definition handleMechAuthRequest {R} (handlers : MechAuthHandlers R) (corsConfigured : bool)
    (method urlPathname : string) : R :=
  (* Handle CORS preflight requests *)
  if String.eqb method "OPTIONS" && corsConfigured then handleCorsPreflightRequest handlers
  else
  (* Determine which handler to use based on path *)
  let response :=
    if isOAuthRoute urlPathname
    then handleOAuthRequest (oauthHandlers handlers) urlPathname
    else if isAuthRoute urlPathname
    then handleAuthRequest (authHandlers handlers) method urlPathname
    else routeNotFound handlers in
  (* Add CORS headers to response if configured *)
  if corsConfigured then addCorsHeaders handlers response else response.

(** ** CORS (utils/cors.ts) *)

(** [string | string[]]. *)
Inductive Origins :=
| OneOrigin (origin : string)
| ManyOrigins (origins : list string).

(** types.ts: every field is optional.  A field that is absent is
    [None]; the spread over [DEFAULT_CORS_CONFIG] then keeps the
    default. *)
Record CorsConfig := {
  cors_origin : option Origins;
  cors_credentials : option bool;
  cors_methods : option (list string);
  cors_allowedHeaders : option (list string);
  cors_exposedHeaders : option (list string);
  cors_maxAge : option Z
}.

Definition isOriginAllowed (origin : option string) (allowedOrigins : Origins) : bool :=
  match origin with
  | None => false
  | Some origin =>
      if negb (Js.truthy origin) then false else
      match allowedOrigins with
      | OneOrigin allowed =>
          (* Allow all origins, or check against single origin *)
          String.eqb allowed "*" || String.eqb allowed origin
      | ManyOrigins allowed =>
          (* Check against array of allowed origins *)
          existsb (String.eqb origin) allowed
      end
  end.

(** [request.headers.get('Origin')] is all the function reads of the
    request.  The headers are listed in the order they are set. *)
Definition createCorsHeaders (origin : option string) (config : option CorsConfig)
    : list (string * string) :=
  let corsOrigin := default (OneOrigin "*") (config ≫= cors_origin) in
  let credentials := default true (config ≫= cors_credentials) in
  let methods := default ["GET"; "POST"; "OPTIONS"]%string (config ≫= cors_methods) in
  let allowedHeaders :=
    default ["Content-Type"; "Authorization"]%string (config ≫= cors_allowedHeaders) in
  let exposedHeaders := default [] (config ≫= cors_exposedHeaders) in
  let maxAge := default 86400 (config ≫= cors_maxAge) in
  (* Set Access-Control-Allow-Origin *)
  (if match corsOrigin with OneOrigin allowed => String.eqb allowed "*" | _ => false end
   then [("Access-Control-Allow-Origin", "*")]%string
   else if Js.truthyOpt origin && isOriginAllowed origin corsOrigin
   then [("Access-Control-Allow-Origin"%string, default EmptyString origin);
         ("Vary", "Origin")]%string
   else [])
  ++ (if credentials then [("Access-Control-Allow-Credentials", "true")]%string else [])
  ++ [("Access-Control-Allow-Methods"%string, String.concat ", " methods)]
  ++ [("Access-Control-Allow-Headers"%string, String.concat ", " allowedHeaders)]
  ++ (if (0 <? length exposedHeaders)%nat
      then [("Access-Control-Expose-Headers"%string, String.concat ", " exposedHeaders)]
      else [])
  ++ [("Access-Control-Max-Age"%string, integerToString maxAge)].

(** ** JavaScript numbers *)

Module JsNumber.

(** A [number] as a configuration can hold it: [NaN], an infinity, or
    a finite value; every finite double is a rational. *)
Inductive t :=
| NaN
| Infinity (negative : bool)
| Finite (q : Q).

Definition of_Z (z : Z) : t := Finite (inject_Z z).

(** [a < b]; a comparison with [NaN] is false. *)
Definition ltb (a b : t) : bool :=
  match a, b with
  | NaN, _ | _, NaN => false
  | Infinity true, Infinity true => false
  | Infinity true, _ => true
  | _, Infinity true => false
  | Infinity false, _ => false
  | _, Infinity false => true
  | Finite p, Finite q => negb (Qle_bool q p)
  end.

(** [a <= b]. *)
Definition leb (a b : t) : bool :=
  match a, b with
  | NaN, _ | _, NaN => false
  | _, _ => negb (ltb b a)
  end.

(** How many natural numbers are below [m], for an [m] that is not
    positive infinity: none is below [NaN], and those below a finite
    value are those below its ceiling. *)
Definition below (m : t) : nat :=
  match m with
  | Finite q => Z.to_nat (Qceiling q)
  | _ => 0%nat
  end.

End JsNumber.

(** ** mech-sql-client.ts, validation.ts, errors.ts *)

Module MechSqlClient.

(** errors.ts.  [OtherError] is whatever else an attempt can throw: a
    rejected [fetch], a body that is not JSON. *)
Inductive MechError :=
| MechSqlError (message : string)
| MechNetworkError (message : string) (statusCode : option Z)
| MechTimeoutError (timeout : JsNumber.t)
| MechRateLimitError (retryAfter : option Z)
| OtherError (message : string).

Inductive Result (A : Type) :=
| Resolved (a : A)
| Rejected (e : MechError).
Arguments Resolved {A} a.
Arguments Rejected {A} e.

Record MechSqlResponse := {
  json_success : option bool;
  json_rows : option (list string);
  json_rowCount : option nat;
  json_error_message : option string
}.

(** What one [fetch] comes to: a response, an abort by the timeout
    controller, or a rejection. *)
Inductive FetchResult :=
| Response (status : Z) (statusText : string) (retryAfterHeader : option string)
    (json : option MechSqlResponse)
| Aborted
| FetchFailed (message : string).

Record QueryResult := {
  rows : list string;
  rowCount : nat
}.

(** The two optional [number] fields of the configuration. *)
Record MechSqlClientConfig := {
  cfg_timeout : option JsNumber.t;
  cfg_maxRetries : option JsNumber.t
}.

(** The fields of the client the retry logic reads.  [maxRetries] is
    the field as the guard [attempt < this.maxRetries] reads it, with
    [attempt] counting up from 0: the number of attempts that are below
    it. *)
Record Client := {
  timeout : JsNumber.t;
  maxRetries : nat
}.

(** validation.ts: [true] is a thrown [MechConfigError].  [NaN] passes
    both checks. *)
Definition validatePositive (value : JsNumber.t) : bool :=
  JsNumber.leb value (JsNumber.of_Z 0).

Definition validateRange (value min max : JsNumber.t) : bool :=
  JsNumber.ltb value min || JsNumber.ltb max value.

(** The constructor: defaults, then validation; [None] is a thrown
    [MechConfigError].  The URL, identifier and key checks concern
    fields the retry logic does not read. *)
Definition newClient (config : MechSqlClientConfig) : option Client :=
  let timeout := default (JsNumber.of_Z 30000) (cfg_timeout config) in
  let maxRetries := default (JsNumber.of_Z 2) (cfg_maxRetries config) in
  if validatePositive timeout then None
  else if validateRange maxRetries (JsNumber.of_Z 0) (JsNumber.of_Z 5) then None
  else Some {| timeout := timeout; maxRetries := JsNumber.below maxRetries |}.

(** [parseInt(s, 10)]: leading white space, an optional sign, then the
    longest run of decimal digits; [None] is [NaN]. *)
Fixpoint digitsPrefix (s : string) (acc : option Z) : option Z :=
  match s with
  | String c s' =>
      let n := Z.of_nat (nat_of_ascii c) in
      if (48 <=? n) && (n <=? 57)
      then digitsPrefix s' (Some (default 0 acc * 10 + (n - 48)))
      else acc
  | EmptyString => acc
  end.

Definition parseInt (s : string) : option Z :=
  match Js.trimStart s with
  | String "-" s' => Z.opp <$> digitsPrefix s' None
  | String "+" s' => digitsPrefix s' None
  | s' => digitsPrefix s' None
  end.

Definition ok (status : Z) : bool := (200 <=? status) && (status <=? 299).

Section WithClient.
Variable this : Client.

Definition executeOnce (reply : FetchResult) : Result QueryResult :=
  match reply with
  | Aborted => Rejected (MechTimeoutError (timeout this))
  | FetchFailed message => Rejected (OtherError message)
  | Response status statusText retryAfterHeader json =>
      (* Handle rate limiting *)
      if status =? 429 then
        let retryAfter :=
          (fun n => n * 1000) <$> parseInt (default "60"%string retryAfterHeader) in
        Rejected (MechRateLimitError retryAfter)
      else if negb (ok status) then
        Rejected (MechNetworkError
                    ("HTTP " +:+ Js.numberToString (Z.to_N status) +:+ ": " +:+ statusText)
                    (Some status))
      else
        match json with
        | None => Rejected (OtherError "invalid JSON")
        | Some json =>
            if bool_decide (json_success json = Some false) then
              Rejected (MechSqlError (default "Unknown error"%string (json_error_message json)))
            else
              let rows := default [] (json_rows json) in
              Resolved {| rows := rows;
                          rowCount := default (length rows) (json_rowCount json) |}
        end
  end.

Definition isRetryable (err : MechError) : bool :=
  match err with
  | MechRateLimitError _ => true
  | MechTimeoutError _ => true
  | MechNetworkError _ (Some statusCode) => negb (statusCode =? 0) && (500 <=? statusCode)
  | _ => false
  end.

(** What the executor does besides answering. *)
Inductive Step :=
| Fetch (n : nat)
| Sleep (delay : Z).

(** The store's side: the result of the [n]-th fetch of a call. *)
Definition Replies : Type := nat -> FetchResult.

Equations? executeWithRetry (replies : Replies) (attempt : nat)
    : list Step * Result QueryResult by wf (maxRetries this - attempt)%nat lt :=
  executeWithRetry replies attempt with executeOnce (replies attempt) => {
    | Resolved r := ([Fetch attempt], Resolved r);
    | Rejected err with decide (attempt < maxRetries this)%nat => {
      | left _ with isRetryable err => {
        | true :=
            let delay := 2 ^ Z.of_nat attempt * 100 in (* exponential backoff *)
            let '(steps, r) := executeWithRetry replies (S attempt) in
            (Fetch attempt :: Sleep delay :: steps, r);
        | false := ([Fetch attempt], Rejected err) };
      | right _ := ([Fetch attempt], Rejected err) } }.
Proof.
  lia.
Qed.

Definition execute (replies : Replies) : list Step * Result QueryResult :=
  executeWithRetry replies 0.

End WithClient.

End MechSqlClient.

(** ** Reference points for the statements *)

(** Modelled from the spec: database/schema.ts, which defines
    [isValidEmailVerificationToken], is missing from the sources.  A
    token is valid while its expiry lies strictly in the future, the
    complement of what the expiry sweep deletes. *)
Definition isValidEmailVerificationToken (t : Z) (token : EmailVerificationToken.t)
    : bool :=
  t <? EmailVerificationToken.expires_at token.

(** Modelled from the spec: database/schema.ts, which defines
    [isValidPasswordResetToken], is missing from the sources.  Same rule
    as for verification tokens. *)
Definition isValidPasswordResetToken (t : Z) (token : PasswordResetToken.t) : bool :=
  t <? PasswordResetToken.expires_at token.

(** The two errors [loginUser] throws for a failed login. *)
Definition invalidCredentials : Error :=
  AuthError "Invalid email or password" "INVALID_CREDENTIALS" 401.

Definition noPasswordSet : Error :=
  AuthError "This account uses social login. Please sign in with your social provider."
            "NO_PASSWORD_SET" 400.


(** A string that does not contain the separator. *)
Fixpoint avoids (sep : ascii) (s : string) : bool :=
  match s with
  | EmptyString => true
  | String c s' => negb (Ascii.eqb c sep) && avoids sep s'
  end.


(** A sextet survives the alphabet, and its character is neither the
    padding character nor the separator of a stored hash. *)
Definition sextetOk (v : Z) : bool :=
  bool_decide (Base64url.value (Base64url.char v) = Some v)
  && negb (Ascii.eqb (Base64url.char v) "=")
  && negb (Ascii.eqb (Base64url.char v) "$").

(** The back-off before the retry that follows attempt [attempt]. *)
Definition backoff (attempt : nat) : Z := 2 ^ Z.of_nat attempt * 100.

(** The steps of a call that retries [n] times from attempt [a] on:
    every failed attempt is followed by its back-off, and the last
    attempt ends the call. *)
Fixpoint retrySteps (a n : nat) : list MechSqlClient.Step :=
  match n with
  | O => [MechSqlClient.Fetch a]
  | S n' =>
      MechSqlClient.Fetch a :: MechSqlClient.Sleep (backoff a) :: retrySteps (S a) n'
  end.

Definition sleeps (steps : list MechSqlClient.Step) : list Z :=
  omap (fun s => match s with MechSqlClient.Sleep d => Some d | _ => None end) steps.

(** The attempts among the steps of a call. *)
Definition fetches (steps : list MechSqlClient.Step) : list nat :=
  omap (fun s => match s with MechSqlClient.Fetch n => Some n | _ => None end) steps.

(** [trimStart] and [trim] on the list of code units. *)
Fixpoint dropWhiteSpace (l : list ascii) : list ascii :=
  match l with
  | [] => []
  | c :: l' => if Js.isWhiteSpace c then dropWhiteSpace l' else l
  end.

Definition trimList (l : list ascii) : list ascii :=
  rev (dropWhiteSpace (rev (dropWhiteSpace l))).

(** What [dropWhiteSpace] leaves is empty or starts with a character
    that is not white space. *)
Definition trimmedStart (l : list ascii) : Prop :=
  match l with [] => True | c :: _ => Js.isWhiteSpace c = false end.

(** A string whose characters all satisfy [p]. *)
Fixpoint allChars (p : ascii -> bool) (s : string) : bool :=
  match s with
  | EmptyString => true
  | String c s' => p c && allChars p s'
  end.

(** The characters of a generated token or id: letters, digits, [-] and [_]. *)
Definition tokenChar (c : ascii) : bool := alphanumeric c || oneOf "-_" c.

(** A character [trim] leaves alone. *)
Definition notWhiteSpace (c : ascii) : bool := negb (Js.isWhiteSpace c).

(** The characters [encodeURIComponent] writes. *)
Definition uriChar (c : ascii) : bool := Uri.unreserved c || Ascii.eqb c "%".

(** What makes a character survive the round trip: left alone, it is
    not [%]; escaped, its bytes decode to it. *)
Definition survives (c : ascii) : bool :=
  if Uri.unreserved c then negb (Ascii.eqb c "%")
  else
    match map Bytes.to_Z (Js.utf8Char c) with
    | [b] => (b <? 128) && Ascii.eqb (Uri.latin1Char b) c
    | [b1; b2] =>
        Uri.valid2 b1 b2 && ((b1 - 192) * 64 + (b2 - 128) <? 256)
        && Ascii.eqb (Uri.latin1Char ((b1 - 192) * 64 + (b2 - 128))) c
    | _ => false
    end.

(** A cookie name [parseCookies] reads back: not empty, not
    [__proto__], and without white space, [;] and [=]. *)
Definition cookieNameChar (c : ascii) : bool :=
  notWhiteSpace c && negb (Ascii.eqb c ";") && negb (Ascii.eqb c "=").

Definition cookieName (name : string) : bool :=
  Js.truthy name && negb (String.eqb name "__proto__") && allChars cookieNameChar name.

(** What a browser sends back for a cookie set by [createCookieHeader]. *)
Definition cookiePair (name value : string) : string :=
  name +:+ "=" +:+ Uri.encodeURIComponent value.

(** Rows are stored under their own id. *)
Definition keyed (d : Database) : Prop :=
  forall k u, users d !! k = Some u -> User.id u = k.

(** The strings a pattern denotes. *)
Inductive matches : Regex.t -> string -> Prop :=
| matches_Empty : matches Regex.Empty EmptyString
| matches_Class member c : member c = true -> matches (Regex.Class member) (String c EmptyString)
| matches_Seq r s a b : matches r a -> matches s b -> matches (Regex.Seq r s) (a +:+ b)
| matches_Alt_l r s a : matches r a -> matches (Regex.Alt r s) a
| matches_Alt_r r s a : matches s a -> matches (Regex.Alt r s) a
| matches_Star_nil r : matches (Regex.Star r) EmptyString
| matches_Star_cons r a b :
    matches r a -> matches (Regex.Star r) b -> matches (Regex.Star r) (a +:+ b).

(** The paths the two route tests accept, after normalisation. *)
Definition oauthPaths : list string :=
  ["/auth/oauth/github"; "/auth/oauth/google"; "/auth/github/login"; "/auth/google/login";
   "/auth/callback/github"; "/auth/callback/google"; "/auth/github/callback";
   "/auth/google/callback"]%string.

Definition authPaths : list string :=
  ["/auth/session"; "/auth/register"; "/auth/verify-email"; "/auth/resend-verification";
   "/auth/login"; "/auth/logout"; "/auth/request-reset"; "/auth/reset-password"]%string.

(** The characters a pattern can read. *)
Fixpoint alphabet (r : Regex.t) (c : ascii) : bool :=
  match r with
  | Regex.Never | Regex.Empty => false
  | Regex.Class member => member c
  | Regex.Seq r s | Regex.Alt r s => alphabet r c || alphabet s c
  | Regex.Star r => alphabet r c
  end.

(** The part of [EMAIL_REGEX] after the [@]. *)
Definition emailDomain : Regex.t :=
  Regex.Seq domainLabel (Regex.plus (Regex.Seq (Regex.char ".") domainLabel)).

(** ** Example data *)

(** A test double of the [PasswordHasher] interface. *)
Definition stubHasher : PasswordHasher.t :=
  {| PasswordHasher.id := "stub";
     PasswordHasher.hash := fun password r => ("stub$" +:+ password, r);
     PasswordHasher.verify := fun stored password =>
       Some (String.eqb stored ("stub$" +:+ password)) |}.

Definition alice : User.t :=
  {| User.id := "u-alice"; User.email := "alice@example.com";
     User.email_verified := false;
     User.password_hash := Some "stub$correct horse";
     User.github_id := None; User.google_id := None;
     User.name := None; User.avatar_url := None;
     User.created_at := 10; User.updated_at := 10 |}.

Definition octo : User.t :=
  {| User.id := "u-octo"; User.email := "octo@example.com";
     User.email_verified := true;
     User.password_hash := None;
     User.github_id := Some "42"; User.google_id := None;
     User.name := Some "Octo"; User.avatar_url := None;
     User.created_at := 20; User.updated_at := 20 |}.

Definition aliceSession : Session.t :=
  {| Session.id := "sess-1"; Session.user_id := "u-alice";
     Session.expires_at := 900000;
     Session.ip_address := None; Session.user_agent := None |}.

Definition octoSession : Session.t :=
  {| Session.id := "sess-2"; Session.user_id := "u-octo";
     Session.expires_at := 900000;
     Session.ip_address := None; Session.user_agent := None |}.

Definition aliceVerification : EmailVerificationToken.t :=
  {| EmailVerificationToken.token := "verify-1";
     EmailVerificationToken.user_id := "u-alice";
     EmailVerificationToken.email := "alice@example.com";
     EmailVerificationToken.expires_at := 5000 |}.

Definition aliceReset : PasswordResetToken.t :=
  {| PasswordResetToken.token := "reset-1";
     PasswordResetToken.user_id := "u-alice";
     PasswordResetToken.expires_at := 5000 |}.

Definition aliceExpiredReset : PasswordResetToken.t :=
  {| PasswordResetToken.token := "reset-old";
     PasswordResetToken.user_id := "u-alice";
     PasswordResetToken.expires_at := 500 |}.

Definition exampleDb : Database :=
  {| users := <["u-alice" := alice]> (<["u-octo" := octo]> ∅);
     sessions := <["sess-1" := aliceSession]> (<["sess-2" := octoSession]> ∅);
     email_verification_tokens := <["verify-1" := aliceVerification]> ∅;
     password_reset_tokens :=
       <["reset-1" := aliceReset]> (<["reset-old" := aliceExpiredReset]> ∅) |}.

Definition exampleRng : Rng.t :=
  {| Rng.stream := fun i => Bytes.of_Z (Z.of_nat i * 37 + 11); Rng.position := 0 |}.

Definition exampleWorld : World :=
  {| db := exampleDb; now := 1000; rng := exampleRng; log := [] |}.

(** Five seconds later: the tokens that expire at 5000 are stale. *)
Definition laterWorld : World :=
  {| db := exampleDb; now := 6000; rng := exampleRng; log := [] |}.

(** A Google profile with the address of the stored user [alice]. *)
Definition aliceGoogleProfile : OAuthUserProfile :=
  {| profile_id := "g-1"; profile_email := "alice@example.com";
     profile_name := Some "Alice"; profile_avatar_url := None;
     profile_email_verified := Some true |}.

(** A Google profile nobody in the store matches. *)
Definition newcomerProfile : OAuthUserProfile :=
  {| profile_id := "g-2"; profile_email := "newcomer@example.com";
     profile_name := None; profile_avatar_url := None;
     profile_email_verified := None |}.

(** What GitHub reports for the stored user [octo]. *)
Definition octoProfile (claim : option bool) : OAuthUserProfile :=
  {| profile_id := "42"; profile_email := "octo@users.example.com";
     profile_name := Some "Octo Cat"; profile_avatar_url := None;
     profile_email_verified := claim |}.


Definition exampleConfig : OAuth.MechAuthConfig :=
  {| OAuth.oauth_github :=
       Some {| OAuth.clientId := "client"; OAuth.clientSecret := "secret";
               OAuth.redirectUri := "https://app.example.com/callback" |};
     OAuth.oauth_google := None |}.

Definition exampleRemote : OAuth.Remote :=
  {| OAuth.token_endpoint := fun _ code _ =>
       if String.eqb code "good-code"
       then Returned {| OAuth.accessToken := "gho-token"; OAuth.refreshToken := None |}
       else Thrown (PlainError "bad verification code");
     OAuth.github_user := fun _ =>
       OAuth.Ok {| OAuth.gh_id := 42; OAuth.gh_login := "octo";
                   OAuth.gh_email := Some "octo@users.example.com"%string;
                   OAuth.gh_name := Some "Octo Cat"%string;
                   OAuth.gh_avatar_url := None |};
     OAuth.github_emails := fun _ => OAuth.Ok [];
     OAuth.google_userinfo := fun _ => OAuth.NotOk 401 "Unauthorized" |}.

Definition exampleClient : MechSqlClient.Client :=
  {| MechSqlClient.timeout := JsNumber.of_Z 30000; MechSqlClient.maxRetries := 2 |}.

Definition serviceUnavailable : MechSqlClient.FetchResult :=
  MechSqlClient.Response 503 "Service Unavailable" None None.

Definition tooManyRequests : MechSqlClient.FetchResult :=
  MechSqlClient.Response 429 "Too Many Requests" (Some "60"%string) None.

Definition okEmpty : MechSqlClient.FetchResult :=
  MechSqlClient.Response 200 "OK" None
    (Some {| MechSqlClient.json_success := Some true;
             MechSqlClient.json_rows := Some [];
             MechSqlClient.json_rowCount := Some 0%nat;
             MechSqlClient.json_error_message := None |}).

(** A store that answers one rate-limited reply, then succeeds. *)
Definition rateLimitedOnce : MechSqlClient.Replies :=
  fun n => match n with O => tooManyRequests | _ => okEmpty end.

(** A handler configuration with the defaults for sessions and cookies. *)
Definition exampleHandlerConfig : HandlerConfig :=
  {| oauth := exampleConfig; session := None; isProduction := None |}.

(** A callback request for code [good-code] and state [state-a], with
    the given cookies. *)
Definition exampleCallbackRequest (cookies : string) : Request :=
  {| searchParam := fun name =>
       if String.eqb name "code" then Some "good-code"%string
       else if String.eqb name "state" then Some "state-a"%string
       else None;
     header := fun name =>
       if String.eqb name "cookie" then Some cookies
       else if String.eqb name "user-agent" then Some "Mozilla/5.0"%string
       else None |}.

(** The responses of the unified handler, by name. *)
Definition exampleRoutes : MechAuthHandlers string :=
  {| handleCorsPreflightRequest := "204";
     oauthHandlers :=
       {| gitHubLogin := "github login"; gitHubCallback := "github callback";
          googleLogin := "google login"; googleCallback := "google callback";
          oauthNotFound := "404 (oauth)" |};
     authHandlers :=
       {| handleSession := "session"; handleRegister := "register";
          handleVerifyEmail := "verify-email";
          handleResendVerification := "resend-verification";
          handleLogin := "login"; handleLogout := "logout";
          handleRequestReset := "request-reset";
          handleResetPassword := "reset-password";
          methodNotAllowed := "405"; authNotFound := "404 (auth)" |};
     routeNotFound := "404";
     addCorsHeaders := fun response => response +:+ ", with CORS headers" |}%string.

(** * Properties *)

(** ** The primitives against published test vectors *)

Example sha256_abc :
  Bytes.hex (Sha2.digest Sha2.sha256_params (Js.encodeUtf8 "abc"))
  = "ba7816bf8f01cfea414140de5dae2223b00361a396177a9cb410ff61f20015ad"%string.
Proof. vm_compute. reflexivity. Qed.

Example sha512_abc :
  Bytes.hex (Sha2.digest Sha2.sha512_params (Js.encodeUtf8 "abc"))
  = ("ddaf35a193617abacc417349ae20413112e6fa4e89a97ea20a9eeee64b55d39a"
     +:+ "2192992a274fc1a836ba3c23a3feebbd454d4423643ce80e2a9ac94fa54ca49f")%string.
Proof. vm_compute. reflexivity. Qed.

Example hmac_sha256_rfc4231_case2 :
  Bytes.hex (Hmac.hmac Sha2.sha256_params (Js.encodeUtf8 "Jefe")
               (Js.encodeUtf8 "what do ya want for nothing?"))
  = "5bdcc146bf60754e6a042426089575c75a003f089d2739839dec58b964ec3843"%string.
Proof. vm_compute. reflexivity. Qed.

Example pbkdf2_sha256_two_iterations :
  Bytes.hex (pbkdf2DeriveKeyBytes "password" (Js.encodeUtf8 "salt") 2 SHA_256 32)
  = "ae4d0c95af6b46d32d0adff928f06dd02a303f8ef3c251dfd6e2d85a95474c43"%string.
Proof. vm_compute. reflexivity. Qed.

Example base64url_example :
  Base64url.encode [Byte.xfa; Byte.xfb; Byte.xfc; Byte.xfd; Byte.xfe;
                    Byte.xff; Byte.x61; Byte.x62]
  = "-vv8_f7_YWI"%string.
Proof. reflexivity. Qed.

(** ** Bytes *)

Lemma to_Z_range b : 0 <= Bytes.to_Z b < 256.
Proof.
  unfold Bytes.to_Z. pose proof (Byte.to_N_bounded b). lia.
Qed.

Lemma of_Z_to_Z b : Bytes.of_Z (Bytes.to_Z b) = b.
Proof.
  unfold Bytes.of_Z. rewrite Z.mod_small by apply to_Z_range.
  unfold Bytes.to_Z. rewrite N2Z.id, Byte.of_to_N. reflexivity.
Qed.

Lemma of_Z_mod z b : z mod 256 = Bytes.to_Z b -> Bytes.of_Z z = b.
Proof.
  intros H. unfold Bytes.of_Z. rewrite H. unfold Bytes.to_Z.
  rewrite N2Z.id, Byte.of_to_N. reflexivity.
Qed.

Lemma to_Z_inj a b : Bytes.to_Z a = Bytes.to_Z b -> a = b.
Proof. intros H. rewrite <- (of_Z_to_Z a), <- (of_Z_to_Z b), H. reflexivity. Qed.

(** ** base64url: decoding undoes encoding *)

Ltac zdiv := Z.div_mod_to_equations; lia.

Ltac padCounts :=
  repeat match goal with
  | |- context [?x <? ?y] =>
      let v := eval vm_compute in (x <? y) in change (x <? y) with v
  end; cbn [app].

Lemma sextetOk_all v : 0 <= v < 64 -> sextetOk v = true.
Proof.
  intros Hv.
  assert (forallb (fun i => sextetOk (Z.of_nat i)) (seq 0 64) = true) as Hall
    by (vm_compute; reflexivity).
  rewrite forallb_forall in Hall.
  specialize (Hall (Z.to_nat v)). rewrite Z2Nat.id in Hall by lia.
  apply Hall, in_seq. lia.
Qed.

Lemma sextet_char last v :
  0 <= v < 64 -> Base64url.sextet last (Some (Base64url.char v)) = Some (v, 0).
Proof.
  intros Hv. pose proof (sextetOk_all v Hv) as H. unfold sextetOk in H.
  apply andb_true_iff in H as [H _]. apply andb_true_iff in H as [H1 H2].
  apply bool_decide_eq_true in H1. apply negb_true_iff in H2.
  unfold Base64url.sextet. rewrite H2, H1. reflexivity.
Qed.


(** Induction on a list three elements at a time. *)
Lemma list_ind3 {A} (P : list A -> Prop) :
  P [] -> (forall a, P [a]) -> (forall a b, P [a; b]) ->
  (forall a b c l, P l -> P (a :: b :: c :: l)) ->
  forall l, P l.
Proof.
  intros H0 H1 H2 H3.
  assert (forall l, P l /\ (forall a, P (a :: l)) /\ (forall a b, P (a :: b :: l))) as H.
  { induction l as [|x l (IH0 & IH1 & IH2)]; auto. }
  intros l. apply H.
Qed.

Lemma decode_encode_chars bs :
  Base64url.decodeChars (Base64url.encodeChars bs) = Some bs.
Proof.
  induction bs as [|a|a b|a b c rest IH] using list_ind3.
  - reflexivity.
  - pose proof (to_Z_range a).
    cbn [Base64url.encodeChars Base64url.decodeChars]. unfold Base64url.chunk.
    rewrite !sextet_char by zdiv. cbn [mbind option_bind Base64url.sextet]. padCounts.
    f_equal. f_equal. apply of_Z_mod. zdiv.
  - pose proof (to_Z_range a). pose proof (to_Z_range b).
    cbn [Base64url.encodeChars Base64url.decodeChars]. unfold Base64url.chunk.
    rewrite !sextet_char by zdiv. cbn [mbind option_bind Base64url.sextet]. padCounts.
    f_equal. f_equal; [apply of_Z_mod; zdiv|]. f_equal. apply of_Z_mod. zdiv.
  - pose proof (to_Z_range a). pose proof (to_Z_range b). pose proof (to_Z_range c).
    cbn [Base64url.encodeChars Base64url.decodeChars]. unfold Base64url.chunk.
    rewrite !sextet_char by zdiv. cbn [mbind option_bind Base64url.sextet]. padCounts.
    rewrite IH. cbn [mbind option_bind app].
    f_equal. f_equal; [apply of_Z_mod; zdiv|].
    f_equal; [apply of_Z_mod; zdiv|]. f_equal. apply of_Z_mod. zdiv.
Qed.

Lemma decode_encode bs : Base64url.decode (Base64url.encode bs) = Some bs.
Proof.
  unfold Base64url.decode, Base64url.encode.
  rewrite list_ascii_of_string_of_list_ascii. apply decode_encode_chars.
Qed.

(** ** Strings: splitting a joined string, parsing a printed number *)

Lemma split_avoids sep s : avoids sep s = true -> Js.split sep s = [s].
Proof.
  induction s as [|c s IH]; cbn [Js.split avoids]; [reflexivity|].
  intros H. apply andb_true_iff in H as [Hc Hs]. apply negb_true_iff in Hc.
  rewrite Hc, (IH Hs). reflexivity.
Qed.

Lemma split_app sep s rest :
  avoids sep s = true ->
  Js.split sep (s +:+ String sep rest) = s :: Js.split sep rest.
Proof.
  induction s as [|c s IH].
  - intros _. change (EmptyString +:+ String sep rest) with (String sep rest).
    cbn [Js.split]. rewrite Ascii.eqb_refl. reflexivity.
  - change (String c s +:+ String sep rest) with (String c (s +:+ String sep rest)).
    cbn [Js.split avoids].
    intros H. apply andb_true_iff in H as [Hc Hs]. apply negb_true_iff in Hc.
    rewrite Hc, (IH Hs). reflexivity.
Qed.


Lemma startsWith_app pre s : Js.startsWith (pre +:+ s) pre = true.
Proof.
  unfold Js.startsWith. induction pre as [|c pre IH]; [reflexivity|].
  change (String c pre +:+ s) with (String c (pre +:+ s)).
  cbn [Js.isPrefix]. rewrite Ascii.eqb_refl, IH. reflexivity.
Qed.





(** ** Lengths of digests and derived keys *)









Section DeriveLength.
Variable prf : list byte -> list byte.
Variable n : nat.
Hypothesis prf_length : forall msg, length (prf msg) = n.
Hypothesis n_pos : (0 < n)%nat.




End DeriveLength.



(** ** The constant-time comparison decides equality *)

Lemma diff_zero l d :
  fold_left (fun diff xy => Z.lor diff (Z.lxor (Bytes.to_Z xy.1) (Bytes.to_Z xy.2))) l d = 0
  <-> d = 0 /\ Forall (fun xy : byte * byte => xy.1 = xy.2) l.
Proof.
  revert d. induction l as [|[x y] l IH]; intros d; cbn [fold_left].
  - split; [intros ->; auto|tauto].
  - rewrite IH, Z.lor_eq_0_iff, Z.lxor_eq_0_iff. split.
    + intros [[-> Hxy] Hl]. split; [reflexivity|]. constructor; [|assumption].
      apply to_Z_inj, Hxy.
    + intros [-> Hl]. inversion Hl as [|? ? Hxy Hl']; subst. cbn in Hxy. subst.
      auto.
Qed.

Lemma timingSafeEqual_eq a b : timingSafeEqual a b = true <-> a = b.
Proof.
  unfold timingSafeEqual. destruct (length a =? length b)%nat eqn:Hlen; cbn [negb].
  - apply Nat.eqb_eq in Hlen. rewrite Z.eqb_eq, diff_zero. split.
    + intros [_ H]. revert b Hlen H. induction a as [|x a IH]; intros [|y b] Hlen H;
        try discriminate; [reflexivity|].
      cbn in H. inversion H as [|? ? Hxy Hl]; subst. cbn in Hxy. subst.
      f_equal. apply IH; [cbn in Hlen; lia|assumption].
    + intros <-. split; [reflexivity|]. clear. induction a; cbn; constructor; auto.
  - apply Nat.eqb_neq in Hlen. split; [discriminate|]. intros <-. congruence.
Qed.

(** ** password-hasher.ts: [verify] after [hash] *)











(** ** The workflows *)

(** Unfolds the monad and the primitive effects, nothing else. *)
Ltac run :=
  cbv beta iota zeta delta
    [mbind mret Auth_bind Auth_ret query execute executeReturning executeChecked
     insertRow throw emit
     dateNow fst snd negb orb andb createAuthError default from_option id];
  cbn [withLog withDb withRng db now rng log].

(** Claim C1, amended.  With a non-empty email and password, [loginUser]
    throws the same [INVALID_CREDENTIALS] error (same message, code and
    status 401) when no user has the normalized email and when a user
    with a password exists but verification fails or rejects.  When the
    user exists without a password (an OAuth-only account) it throws a
    different error, code [NO_PASSWORD_SET], status 400. *)
Theorem loginUser_failures w email password context hasher :
  Js.truthy email = true -> Js.truthy password = true ->
  let r := fst (loginUser email password context hasher w) in
  let found := userWithEmail (normalizeEmail email) (db w) in
  (found = None -> r = Thrown invalidCredentials) /\
  (forall u h, found = Some u -> User.password_hash u = Some h -> Js.truthy h = true ->
     PasswordHasher.verify (default defaultPasswordHasher hasher) h password ≠ Some true ->
     r = Thrown invalidCredentials) /\
  (forall u, found = Some u -> Js.truthyOpt (User.password_hash u) = false ->
     r = Thrown noPasswordSet).
Proof.
  intros He Hp r found. subst r found. unfold loginUser. rewrite He, Hp. run.
  destruct (userWithEmail _ _) as [u|].
  2:{ split; [reflexivity|]. split; intros; discriminate. }
  split; [discriminate|]. split.
  - intros u' h [= <-] Hh Ht Hv. unfold Js.truthyOpt. rewrite Hh, Ht. run.
    destruct (PasswordHasher.verify _ h password) as [[|]|]; run; try reflexivity.
    congruence.
  - intros u' [= <-] Hf. rewrite Hf. reflexivity.
Qed.

Lemma loginUser_failures_witness :
  fst (loginUser "Alice@Example.com " "wrong" None (Some stubHasher) exampleWorld)
    = Thrown invalidCredentials
  /\ fst (loginUser "ghost@example.com" "wrong" None (Some stubHasher) exampleWorld)
    = Thrown invalidCredentials
  /\ fst (loginUser "octo@example.com" "wrong" None (Some stubHasher) exampleWorld)
    = Thrown noPasswordSet.
Proof.
  split; [|split].
  - refine (proj1 (proj2 (loginUser_failures exampleWorld "Alice@Example.com " "wrong"
      None (Some stubHasher) eq_refl eq_refl)) alice "stub$correct horse" _ eq_refl eq_refl _).
    + vm_compute. reflexivity.
    + vm_compute. discriminate.
  - refine (proj1 (loginUser_failures exampleWorld "ghost@example.com" "wrong"
      None (Some stubHasher) eq_refl eq_refl) _).
    vm_compute. reflexivity.
  - refine (proj2 (proj2 (loginUser_failures exampleWorld "octo@example.com" "wrong"
      None (Some stubHasher) eq_refl eq_refl)) octo _ eq_refl).
    vm_compute. reflexivity.
Defined.

(** Against claim C1 as stated: the stored user [octo] has a null
    [password_hash], and logging in as [octo] fails with code
    [NO_PASSWORD_SET], not with the code an unknown email gets. *)
Lemma loginUser_oauth_only_not_generic :
  userWithEmail (normalizeEmail "octo@example.com") (db exampleWorld) = Some octo
  /\ User.password_hash octo = None
  /\ thrownCode (fst (loginUser "octo@example.com" "anything" None None exampleWorld))
     = Some "NO_PASSWORD_SET"%string
  /\ thrownCode (fst (loginUser "ghost@example.com" "anything" None None exampleWorld))
     = Some "INVALID_CREDENTIALS"%string
  /\ thrownCode (fst (loginUser "octo@example.com" "anything" None None exampleWorld))
     ≠ thrownCode (fst (loginUser "ghost@example.com" "anything" None None exampleWorld)).
Proof. vm_compute. repeat split; discriminate. Qed.

(** Claim C3.  Whenever [verifyEmail] succeeds, the token was stored;
    the row of the owning user, if there is one, now has
    [email_verified = true]; the token is gone; and [verifyEmail] with
    the same token, on any later state of the world that holds the same
    verification tokens, throws [INVALID_TOKEN] and changes nothing in
    the store. *)
Theorem verifyEmail_consumes_token isValid token w r w1 :
  verifyEmail isValid token w = (Returned r, w1) ->
  exists tokenRecord,
    let owner := EmailVerificationToken.user_id tokenRecord in
    email_verification_tokens (db w) !! token = Some tokenRecord /\
    ve_success r = true /\ ve_userId r = Some owner /\
    db w1 = setEmailVerificationTokens (delete token)
              (updateUser (setEmailVerified true) owner (db w) (now w)) /\
    (forall u, users (db w) !! owner = Some u ->
       exists u', users (db w1) !! owner = Some u' /\ User.email_verified u' = true) /\
    email_verification_tokens (db w1) !! token = None /\
    forall w2, email_verification_tokens (db w2) = email_verification_tokens (db w1) ->
      exists w3, verifyEmail isValid token w2
                 = (Thrown (AuthError "Invalid verification token" "INVALID_TOKEN" 400), w3)
                 /\ db w3 = db w2.
Proof.
  unfold verifyEmail. destruct (blank token) eqn:Hb; run; [discriminate|].
  destruct (email_verification_tokens (db w) !! token) as [rec|] eqn:Hl; run;
    [|discriminate].
  destruct (isValid (now w) rec); run; [|discriminate].
  intros [= <- <-]. exists rec. cbn zeta.
  repeat split; try reflexivity.
  - intros u Hu. cbn. rewrite lookup_alter_eq, Hu. cbn. eauto.
  - cbn. apply lookup_delete_eq.
  - intros w2 H2. cbn in H2. rewrite H2, lookup_delete_eq.
    eexists. split; reflexivity.
Qed.

Lemma verifyEmail_consumes_token_witness :
  let w1 := snd (verifyEmail isValidEmailVerificationToken "verify-1" exampleWorld) in
  (exists u', users (db w1) !! "u-alice" = Some u' /\ User.email_verified u' = true) /\
  thrownCode (fst (verifyEmail isValidEmailVerificationToken "verify-1" w1))
    = Some "INVALID_TOKEN"%string.
Proof.
  intros w1.
  destruct (verifyEmail_consumes_token isValidEmailVerificationToken "verify-1"
              exampleWorld {| ve_success := true; ve_userId := Some "u-alice"%string |} w1)
    as (rec & Hrec & _ & _ & _ & Hu & _ & Hagain).
  { vm_compute. reflexivity. }
  assert (rec = aliceVerification) as ->
    by (vm_compute in Hrec; injection Hrec as <-; reflexivity).
  split.
  - apply (Hu alice). vm_compute. reflexivity.
  - destruct (Hagain w1 eq_refl) as (w3 & -> & _). reflexivity.
Defined.

(** Claim C10, amended.  [verifyResetToken] always returns (it never
    throws); it never changes users, sessions, verification tokens or
    any other reset token.  For a token that is not blank, stored and
    valid now, it answers [valid = true] with the token's owner and
    leaves the store as it was, the token included.  Conversely, when it
    answers [valid = true] the store is unchanged, the token is not
    blank, stored and valid now, and the answer carries its owner.  When
    it answers [valid = false] it carries no user id, and the store is
    unchanged unless the token is stored, not blank and no longer valid:
    then exactly that token is deleted. *)
Theorem verifyResetToken_frame isValid token w :
  exists res w',
    verifyResetToken isValid token w = (Returned res, w') /\
    users (db w') = users (db w) /\
    sessions (db w') = sessions (db w) /\
    email_verification_tokens (db w') = email_verification_tokens (db w) /\
    (forall other, other ≠ token ->
       password_reset_tokens (db w') !! other = password_reset_tokens (db w) !! other) /\
    (forall tokenRecord,
       blank token = false ->
       password_reset_tokens (db w) !! token = Some tokenRecord ->
       isValid (now w) tokenRecord = true ->
       res = {| valid := true;
                userId := Some (PasswordResetToken.user_id tokenRecord) |} /\
       db w' = db w /\
       password_reset_tokens (db w') !! token = Some tokenRecord) /\
    (valid res = true ->
       db w' = db w /\
       blank token = false /\
       exists tokenRecord,
         password_reset_tokens (db w) !! token = Some tokenRecord /\
         isValid (now w) tokenRecord = true /\
         userId res = Some (PasswordResetToken.user_id tokenRecord)) /\
    (valid res = false ->
       userId res = None /\
       match password_reset_tokens (db w) !! token with
       | Some tokenRecord =>
           if blank token || isValid (now w) tokenRecord then db w' = db w
           else password_reset_tokens (db w')
                = delete token (password_reset_tokens (db w))
       | None => db w' = db w
       end).
Proof.
  unfold verifyResetToken. destruct (blank token) eqn:Hb; run.
  { eexists _, _. split; [reflexivity|]. cbn.
    repeat split; auto; try discriminate.
    destruct (_ !! token); reflexivity. }
  destruct (password_reset_tokens (db w) !! token) as [rec|] eqn:Hl; run.
  2:{ eexists _, _. split; [reflexivity|]. cbn.
      repeat split; auto; discriminate. }
  destruct (isValid (now w) rec) eqn:Hv; run.
  - eexists _, _. split; [reflexivity|]. cbn.
    repeat split; auto; try discriminate; try congruence. eauto.
  - eexists _, _. split; [reflexivity|]. cbn.
    repeat split; auto; try discriminate; try congruence.
    intros other Hne. apply lookup_delete_ne. congruence.
Qed.

(** The stored token [reset-1] is valid at the time of the call: the
    answer is [valid = true] for alice, and the token is still stored. *)
Lemma verifyResetToken_frame_witness :
  fst (verifyResetToken isValidPasswordResetToken "reset-1" exampleWorld)
    = Returned {| valid := true; userId := Some "u-alice"%string |}
  /\ db (snd (verifyResetToken isValidPasswordResetToken "reset-1" exampleWorld))
     = db exampleWorld
  /\ password_reset_tokens
       (db (snd (verifyResetToken isValidPasswordResetToken "reset-1" exampleWorld)))
       !! "reset-1" = Some aliceReset.
Proof.
  destruct (verifyResetToken_frame isValidPasswordResetToken "reset-1" exampleWorld)
    as (res & w' & Hrun & _ & _ & _ & _ & Hvalid & _).
  destruct (Hvalid aliceReset eq_refl eq_refl eq_refl) as (-> & Hdb & Hstill).
  rewrite Hrun. cbn [fst snd]. repeat split; assumption.
Defined.

(** Against claim C10 as stated: the stored token [reset-old] expired
    before the call; [verifyResetToken] answers [valid = false] and the
    token is no longer stored afterwards. *)
Lemma verifyResetToken_deletes_expired :
  password_reset_tokens (db exampleWorld) !! "reset-old" = Some aliceExpiredReset
  /\ fst (verifyResetToken isValidPasswordResetToken "reset-old" exampleWorld)
     = Returned {| valid := false; userId := None |}
  /\ password_reset_tokens
       (db (snd (verifyResetToken isValidPasswordResetToken "reset-old" exampleWorld)))
       !! "reset-old" = None
  /\ db (snd (verifyResetToken isValidPasswordResetToken "reset-old" exampleWorld))
     ≠ db exampleWorld.
Proof.
  repeat split; try (vm_compute; reflexivity).
  intros H.
  assert (password_reset_tokens
            (db (snd (verifyResetToken isValidPasswordResetToken "reset-old" exampleWorld)))
            !! "reset-old" = password_reset_tokens (db exampleWorld) !! "reset-old")
    as Hl by (rewrite H; reflexivity).
  vm_compute in Hl. discriminate.
Qed.

(** Claim C2.  For a token that is not blank, stored and valid now,
    and a new password that passes [validatePassword], which the
    workflow checks first, [resetPassword]
    returns success after exactly these effects, in this order: read the
    token, hash the new password, update the owner's [password_hash],
    delete the token, delete every session of the owner.  Afterwards
    [validateSession] on any session id the owner had before the call
    returns no user, whatever the clock says. *)
Theorem resetPassword_effects isValid token newPassword passwordHasher w tokenRecord :
  blank token = false ->
  validatePassword newPassword 8 = None ->
  password_reset_tokens (db w) !! token = Some tokenRecord ->
  isValid (now w) tokenRecord = true ->
  let owner := PasswordResetToken.user_id tokenRecord in
  let passwordHash :=
    fst (PasswordHasher.hash (default defaultPasswordHasher passwordHasher)
           newPassword (rng w)) in
  exists w',
    resetPassword isValid token newPassword passwordHasher w
      = (Returned {| success := true |}, w') /\
    log w' = log w ++ [Sql (SelectPasswordResetToken token);
                       HashPassword newPassword;
                       Sql (UpdateUserPasswordHash owner passwordHash);
                       Sql (DeletePasswordResetToken token);
                       Sql (DeleteSessionsOfUser owner)] /\
    db w' = setSessions (filter (fun kv => Session.user_id kv.2 ≠ owner))
              (setPasswordResetTokens (delete token)
                 (updateUser (setPasswordHash passwordHash) owner (db w) (now w))) /\
    (forall u, users (db w) !! owner = Some u ->
       exists u', users (db w') !! owner = Some u'
                  /\ User.password_hash u' = Some passwordHash) /\
    password_reset_tokens (db w') !! token = None /\
    forall sessionId s w'',
      sessions (db w) !! sessionId = Some s -> Session.user_id s = owner ->
      db w'' = db w' ->
      fst (validateSession sessionId w'') = Returned None.
Proof.
  intros Hb Hp Hl Hv owner passwordHash. subst owner passwordHash.
  unfold resetPassword. rewrite Hb, Hp. run. rewrite Hl. run. rewrite Hv. run.
  unfold hashPassword, deleteAllUserSessions. run.
  destruct (PasswordHasher.hash _ newPassword (rng w)) as [h r] eqn:Hh. run.
  eexists. split; [reflexivity|]. cbn.
  repeat split.
  - rewrite <- !app_assoc. reflexivity.
  - intros u Hu. rewrite lookup_alter_eq, Hu. cbn. eauto.
  - apply lookup_delete_eq.
  - intros sid s w'' Hs Ho Hd. unfold validateSession. run. rewrite Hd. cbn.
    replace (filter _ (sessions (db w)) !! sid) with (@None Session.t); [reflexivity|].
    symmetry. apply map_lookup_filter_None. right. intros s' Hs'. cbn.
    rewrite Hs in Hs'. injection Hs' as <-. intros Hne. apply Hne. exact Ho.
Qed.

Lemma resetPassword_effects_witness :
  let w' := snd (resetPassword isValidPasswordResetToken "reset-1" "a new password"
                   (Some stubHasher) exampleWorld) in
  (exists u', users (db w') !! "u-alice" = Some u'
              /\ User.password_hash u' = Some "stub$a new password"%string) /\
  fst (validateSession "sess-1" exampleWorld) = Returned (Some alice) /\
  fst (validateSession "sess-1" w') = Returned None.
Proof.
  intros w'.
  destruct (resetPassword_effects isValidPasswordResetToken "reset-1" "a new password"
              (Some stubHasher) exampleWorld aliceReset eq_refl eq_refl eq_refl eq_refl)
    as (w1 & Hrun & _ & _ & Hu & _ & Hs).
  assert (w' = w1) as -> by (subst w'; rewrite Hrun; reflexivity).
  split; [|split].
  - apply (Hu alice). vm_compute. reflexivity.
  - vm_compute. reflexivity.
  - apply (Hs "sess-1"%string aliceSession w1); reflexivity.
Defined.

(** The password policy is checked before the token is read: with a
    token that is not blank and a new password that fails
    [validatePassword], [resetPassword] throws [INVALID_PASSWORD] with
    the policy's message and leaves the world as it was, store and log
    included. *)
Lemma resetPassword_validates_password_first isValid token newPassword
    passwordHasher w passwordError :
  blank token = false ->
  validatePassword newPassword 8 = Some passwordError ->
  resetPassword isValid token newPassword passwordHasher w
  = (Thrown (AuthError passwordError "INVALID_PASSWORD" 400), w).
Proof.
  intros Hb Hp. unfold resetPassword. rewrite Hb, Hp. reflexivity.
Qed.

(** With the stored, valid token [reset-1] and a new password of five
    characters, [resetPassword] throws [INVALID_PASSWORD] before it
    reads the token; nothing is hashed, updated or deleted, and the old
    session still validates. *)
Example resetPassword_rejects_weak_password :
  password_reset_tokens (db exampleWorld) !! "reset-1" = Some aliceReset
  /\ isValidPasswordResetToken (now exampleWorld) aliceReset = true
  /\ resetPassword isValidPasswordResetToken "reset-1" "short" None exampleWorld
     = (Thrown (AuthError "Password must be at least 8 characters long"
                          "INVALID_PASSWORD" 400), exampleWorld)
  /\ fst (validateSession "sess-1" exampleWorld) = Returned (Some alice).
Proof. repeat split; vm_compute; reflexivity. Qed.




(** Claim C5, amended.  When a stored user carries the profile's
    provider id and no other user has the profile's email, [upsertOAuthUser]
    returns that user's row with email, name and avatar taken from the
    profile, and stores it; no other row changes.  The email-verified
    flag becomes the profile's claim when the profile carries one, true
    or false, and keeps its previous value only when the profile carries
    none. *)
Theorem upsertOAuthUser_existing provider profile w existingUser :
  userWithProviderId provider (profile_id profile) (db w) = Some existingUser ->
  users (db w) !! User.id existingUser = Some existingUser ->
  emailTaken (profile_email profile) (User.id existingUser) (db w) = false ->
  let updatedUser :=
    touch (now w)
      (setProfile (profile_email profile) (profile_name profile)
         (profile_avatar_url profile)
         (default (User.email_verified existingUser) (profile_email_verified profile))
         existingUser) in
  exists w',
    upsertOAuthUser provider profile w = (Returned updatedUser, w') /\
    users (db w') !! User.id existingUser = Some updatedUser /\
    (forall other, other ≠ User.id existingUser ->
       users (db w') !! other = users (db w) !! other) /\
    User.email updatedUser = profile_email profile /\
    User.name updatedUser = profile_name profile /\
    User.avatar_url updatedUser = profile_avatar_url profile /\
    User.email_verified updatedUser
      = match profile_email_verified profile with
        | Some claim => claim
        | None => User.email_verified existingUser
        end.
Proof.
  intros Hfind Hkey Hfree updatedUser. subst updatedUser.
  unfold upsertOAuthUser. run. rewrite Hfind. run. rewrite Hfree. run.
  unfold executeTakeFirstOrThrow. cbn [users setUsers updateUser].
  rewrite lookup_alter_eq, Hkey. cbn [fmap option_fmap option_map]. run.
  eexists. split; [reflexivity|]. cbn.
  repeat split.
  - rewrite lookup_alter_eq, Hkey. reflexivity.
  - intros other Hne. apply lookup_alter_ne. congruence.
Qed.

Lemma upsertOAuthUser_existing_witness :
  exists u w',
    upsertOAuthUser github (octoProfile None) exampleWorld = (Returned u, w') /\
    User.email u = "octo@users.example.com"%string /\
    User.name u = Some "Octo Cat"%string /\
    User.email_verified u = true.
Proof.
  destruct (upsertOAuthUser_existing github (octoProfile None) exampleWorld octo)
    as (w' & Hrun & _ & _ & He & Hn & _ & Hv).
  - vm_compute. reflexivity.
  - vm_compute. reflexivity.
  - vm_compute. reflexivity.
  - eexists _, w'. split; [exact Hrun|]. split; [exact He|]. split; [exact Hn|exact Hv].
Defined.

(** Against claim C5 as stated: [octo] is stored with GitHub id 42 and
    a verified email; an upsert with a profile that reports the email as
    not verified returns and stores the user with [email_verified =
    false]. *)
Lemma upsertOAuthUser_unverifies :
  userWithProviderId github "42" (db exampleWorld) = Some octo
  /\ User.email_verified octo = true
  /\ exists u w',
       upsertOAuthUser github (octoProfile (Some false)) exampleWorld = (Returned u, w')
       /\ User.email_verified u = false
       /\ User.email_verified <$> users (db w') !! "u-octo" = Some false.
Proof.
  split; [vm_compute; reflexivity|]. split; [reflexivity|].
  eexists _, _. split; [vm_compute; reflexivity|]. split; vm_compute; reflexivity.
Qed.

(** ** The OAuth callback *)

(** Claim C6.  When the stored state differs from the returned state,
    the GitHub and the Google callback handlers throw and make no call
    at all: no authorization-code exchange, no profile fetch. *)
Theorem callback_state_mismatch_makes_no_call remote config code storedState
    returnedState codeVerifier :
  storedState ≠ returnedState ->
  OAuth.handleGitHubCallback remote config code storedState returnedState
    = ([], Thrown (PlainError "Invalid OAuth state parameter"))
  /\ OAuth.handleGoogleCallback remote config code storedState returnedState codeVerifier
    = ([], Thrown (PlainError "Invalid OAuth state parameter")).
Proof.
  intros Hne. apply String.eqb_neq in Hne.
  unfold OAuth.handleGitHubCallback, OAuth.handleGoogleCallback. rewrite Hne.
  split; reflexivity.
Qed.

Lemma callback_state_mismatch_makes_no_call_witness :
  OAuth.handleGitHubCallback exampleRemote exampleConfig "good-code" "state-a" "state-b"
    = ([], Thrown (PlainError "Invalid OAuth state parameter")).
Proof.
  refine (proj1 (callback_state_mismatch_makes_no_call exampleRemote exampleConfig
                   "good-code" "state-a" "state-b" "verifier" _)).
  discriminate.
Defined.

(** With matching states the same handler does reach its remote. *)
Example callback_state_match_calls_remote :
  OAuth.handleGitHubCallback exampleRemote exampleConfig "good-code" "state-a" "state-a"
  = ([OAuth.ValidateAuthorizationCode github "good-code" None;
      OAuth.FetchUser github "gho-token"],
     Returned {| OAuth.result_profile :=
                   {| profile_id := "42"; profile_email := "octo@users.example.com";
                      profile_name := Some "Octo Cat"%string;
                      profile_avatar_url := None;
                      profile_email_verified := Some false |};
                 OAuth.result_accessToken := Some "gho-token"%string;
                 OAuth.result_refreshToken := None |}).
Proof. vm_compute. reflexivity. Qed.

(** ** The query executor *)

(** A call retries some number [n] of times: its steps are the [n]
    failed attempts, each followed by its back-off, then the last
    attempt, whose outcome is the call's outcome. *)
Lemma executeWithRetry_trace this replies a :
  (a <= MechSqlClient.maxRetries this)%nat ->
  exists n,
    (a + n <= MechSqlClient.maxRetries this)%nat /\
    MechSqlClient.executeWithRetry this replies a
      = (retrySteps a n, MechSqlClient.executeOnce this (replies (a + n)%nat)) /\
    (forall k, (a <= k < a + n)%nat ->
       exists err, MechSqlClient.executeOnce this (replies k) = MechSqlClient.Rejected err
                   /\ MechSqlClient.isRetryable err = true) /\
    (forall err,
       MechSqlClient.executeOnce this (replies (a + n)%nat) = MechSqlClient.Rejected err ->
       (a + n)%nat = MechSqlClient.maxRetries this
       \/ MechSqlClient.isRetryable err = false).
Proof.
  funelim (MechSqlClient.executeWithRetry this replies a); intros Hle.
  - exists 0%nat. rewrite Nat.add_0_r, Heq.
    repeat split; try lia; discriminate.
  - exists 0%nat. rewrite Nat.add_0_r, Heq0.
    repeat split; lia.
  - destruct (H ltac:(lia)) as (n & Hn & Hrun & Hk & Hlast).
    exists (S n). replace (attempt + S n)%nat with (S attempt + n)%nat by lia.
    split; [lia|]. split; [|split].
    + rewrite Hrun. reflexivity.
    + intros k Hk'. destruct (decide (k = attempt)) as [->|Hne].
      * exists err. split; assumption.
      * apply Hk. lia.
    + exact Hlast.
  - exists 0%nat. rewrite Nat.add_0_r, Heq1.
    repeat split; try lia. intros e [= <-]. right. assumption.
Qed.

Lemma retrySteps_split a m j :
  retrySteps a (m + S j)
  = concat (map (fun k => [MechSqlClient.Fetch k; MechSqlClient.Sleep (backoff k)])
                (seq a m))
    ++ MechSqlClient.Fetch (a + m) :: MechSqlClient.Sleep (backoff (a + m))
       :: retrySteps (S (a + m)) j.
Proof.
  revert a. induction m as [|m IH]; intros a; cbn.
  - rewrite Nat.add_0_r. reflexivity.
  - rewrite IH. replace (S a + m)%nat with (a + S m)%nat by lia. reflexivity.
Qed.

Lemma retrySteps_fetch a n i :
  In (MechSqlClient.Fetch i) (retrySteps a n) -> (a <= i <= a + n)%nat.
Proof.
  revert a. induction n as [|n IH]; intros a; cbn.
  - intros [[= <-]|[]]. lia.
  - intros [[= <-]|[[=]|H]]; [lia|]. apply IH in H. lia.
Qed.

Lemma sleeps_retrySteps a n : sleeps (retrySteps a n) = map backoff (seq a n).
Proof.
  revert a. induction n as [|n IH]; intros a; [reflexivity|].
  cbn. f_equal. apply IH.
Qed.

(** The guard [attempt < this.maxRetries] on a natural number: what
    [JsNumber.below] counts. *)
Lemma below_spec m (n : nat) :
  m <> JsNumber.Infinity false ->
  JsNumber.ltb (JsNumber.of_Z (Z.of_nat n)) m = true <-> (n < JsNumber.below m)%nat.
Proof.
  intros Hm. destruct m as [|[]|q]; cbn; try (split; [discriminate|lia]); [congruence|].
  rewrite negb_true_iff, <- not_true_iff_false, Qle_bool_iff.
  split.
  - intros Hlt. apply Qnot_le_lt in Hlt.
    assert (Z.of_nat n < Qceiling q); [|lia].
    rewrite Zlt_Qlt. eapply Qlt_le_trans; [exact Hlt|apply Qle_ceiling].
  - intros Hlt. apply Qlt_not_le.
    assert (Z.of_nat n <= Qceiling q - 1) as Hle by lia.
    rewrite Zle_Qle in Hle. eapply Qle_lt_trans; [exact Hle|apply Qceiling_lt].
Qed.

(** What [validateRange] between 0 and 5 lets through admits at most
    five retries. *)
Lemma below_range m :
  MechSqlClient.validateRange m (JsNumber.of_Z 0) (JsNumber.of_Z 5) = false ->
  (JsNumber.below m <= 5)%nat.
Proof.
  unfold MechSqlClient.validateRange.
  destruct m as [|[]|q]; cbn; try lia; try discriminate.
  intros [_ H]%orb_false_iff. rewrite negb_false_iff, Qle_bool_iff in H.
  apply Qceiling_resp_le in H. rewrite Qceiling_Z in H. lia.
Qed.

(** Which errors are retried. *)
Lemma isRetryable_cases err :
  MechSqlClient.isRetryable err = true <->
  (exists retryAfter, err = MechSqlClient.MechRateLimitError retryAfter)
  \/ (exists t, err = MechSqlClient.MechTimeoutError t)
  \/ (exists message status,
        err = MechSqlClient.MechNetworkError message (Some status) /\ 500 <= status).
Proof.
  split.
  - destruct err as [m|m [s|]|t|ra|m]; cbn; try discriminate; eauto.
    intros [_ Hs]%andb_true_iff. right. right. exists m, s. split; [reflexivity|lia].
  - intros [[ra ->]|[[t ->]|(m & s & -> & Hs)]]; cbn; try reflexivity.
    apply andb_true_iff. split; [apply negb_true_iff|]; lia.
Qed.

(** Claim C7, amended.  A call of [execute] makes [n <= maxRetries]
    retries.  Its steps are attempt 0, a sleep of 100 ms, attempt 1, a
    sleep of 200 ms, and so on, each sleep twice the one before, ending
    with attempt [n], whose outcome the caller gets.  Every attempt that
    was retried failed with a retryable error; the last attempt, if it
    failed, either used up the retries or failed with an error that is
    not retried.  The retryable errors are exactly the rate-limit
    errors, the timeouts and the network errors whose status is 500 or
    more, whether or not it is below 600.  A query rejected by the
    store and a network error with a status below 500 are not retried.
    The constructor, given no [maxRetries], accepts the configuration
    whenever it accepts the timeout, and sets [maxRetries] to 2; with
    no timeout either, the client has a timeout of 30000 ms and 2
    retries. *)
Theorem execute_retry_policy this replies :
  exists n,
    (n <= MechSqlClient.maxRetries this)%nat /\
    MechSqlClient.execute this replies
      = (retrySteps 0 n, MechSqlClient.executeOnce this (replies n)) /\
    sleeps (retrySteps 0 n) = map (fun k => 2 ^ Z.of_nat k * 100) (seq 0 n) /\
    (forall k, (k < n)%nat ->
       exists err,
         MechSqlClient.executeOnce this (replies k) = MechSqlClient.Rejected err /\
         MechSqlClient.isRetryable err = true) /\
    (forall err,
       MechSqlClient.executeOnce this (replies n) = MechSqlClient.Rejected err ->
       n = MechSqlClient.maxRetries this \/ MechSqlClient.isRetryable err = false) /\
    (forall err,
       MechSqlClient.isRetryable err = true <->
       (exists retryAfter, err = MechSqlClient.MechRateLimitError retryAfter)
       \/ (exists t, err = MechSqlClient.MechTimeoutError t)
       \/ (exists message status,
             err = MechSqlClient.MechNetworkError message (Some status)
             /\ 500 <= status)) /\
    (forall message,
       MechSqlClient.isRetryable (MechSqlClient.MechSqlError message) = false) /\
    (forall message status, status < 500 ->
       MechSqlClient.isRetryable (MechSqlClient.MechNetworkError message (Some status))
       = false) /\
    MechSqlClient.newClient
      {| MechSqlClient.cfg_timeout := None; MechSqlClient.cfg_maxRetries := None |}
    = Some {| MechSqlClient.timeout := JsNumber.of_Z 30000;
              MechSqlClient.maxRetries := 2 |} /\
    (forall timeout,
       MechSqlClient.validatePositive timeout = false ->
       MechSqlClient.newClient
         {| MechSqlClient.cfg_timeout := Some timeout;
            MechSqlClient.cfg_maxRetries := None |}
       = Some {| MechSqlClient.timeout := timeout; MechSqlClient.maxRetries := 2 |}).
Proof.
  destruct (executeWithRetry_trace this replies 0 ltac:(lia))
    as (n & Hn & Hrun & Hk & Hlast).
  exists n. cbn [Nat.add] in *.
  split; [assumption|]. split; [assumption|]. split; [apply sleeps_retrySteps|].
  split; [intros k Hlt; apply Hk; lia|]. split; [assumption|].
  split; [apply isRetryable_cases|]. split; [reflexivity|].
  split; [|split; [reflexivity|]].
  - intros message status Hs. cbn. apply andb_false_iff. right. lia.
  - intros timeout Ht. unfold MechSqlClient.newClient.
    cbn [default from_option id MechSqlClient.cfg_timeout MechSqlClient.cfg_maxRetries].
    rewrite Ht. reflexivity.
Qed.

(** The default client against a store that always answers 503: two
    retries, as the constructor set them. *)
Lemma execute_retry_policy_witness :
  MechSqlClient.newClient
    {| MechSqlClient.cfg_timeout := None; MechSqlClient.cfg_maxRetries := None |}
  = Some exampleClient /\
  exists n,
    (n <= 2)%nat /\
    MechSqlClient.execute exampleClient (fun _ => serviceUnavailable)
    = (retrySteps 0 n, MechSqlClient.executeOnce exampleClient serviceUnavailable).
Proof.
  destruct (execute_retry_policy exampleClient (fun _ => serviceUnavailable))
    as (n & Hn & Hrun & _ & _ & _ & _ & _ & _ & Hdefault & _).
  split; [exact Hdefault|]. exists n. split; [exact Hn|exact Hrun].
Defined.

(** Against claim C7 as stated: 999 is no 5xx status, yet the default
    client retries a store that answers it, twice. *)
Lemma execute_retries_status_999 :
  MechSqlClient.execute exampleClient
    (fun _ => MechSqlClient.Response 999 "Unassigned" None None)
  = ([MechSqlClient.Fetch 0; MechSqlClient.Sleep 100; MechSqlClient.Fetch 1;
      MechSqlClient.Sleep 200; MechSqlClient.Fetch 2],
     MechSqlClient.Rejected
       (MechSqlClient.MechNetworkError "HTTP 999: Unassigned" (Some 999))).
Proof. vm_compute. reflexivity. Qed.

(** On a store that always answers 503 the default client makes its
    two retries and then surfaces the network error. *)
Example execute_503_exhausts_retries :
  MechSqlClient.execute exampleClient (fun _ => serviceUnavailable)
  = ([MechSqlClient.Fetch 0; MechSqlClient.Sleep 100; MechSqlClient.Fetch 1;
      MechSqlClient.Sleep 200; MechSqlClient.Fetch 2],
     MechSqlClient.Rejected
       (MechSqlClient.MechNetworkError "HTTP 503: Service Unavailable" (Some 503))).
Proof. vm_compute. reflexivity. Qed.

(** One decimal digit read by [parseInt]. *)
Lemma digitsPrefix_digit c s acc k :
  Z.of_nat (nat_of_ascii c) = 48 + k -> 0 <= k <= 9 ->
  MechSqlClient.digitsPrefix (String c s) acc
  = MechSqlClient.digitsPrefix s (Some (default 0 acc * 10 + k)).
Proof.
  intros Hc Hk. cbn [MechSqlClient.digitsPrefix]. cbv zeta. rewrite Hc.
  destruct (Z.leb_spec 48 (48 + k)); [|lia].
  destruct (Z.leb_spec (48 + k) 57); [|lia].
  cbn [andb]. do 3 f_equal. lia.
Qed.

Ltac read_digit :=
  first
    [ rewrite !(digitsPrefix_digit _ _ _ 0) by (vm_compute; intuition congruence)
    | rewrite !(digitsPrefix_digit _ _ _ 1) by (vm_compute; intuition congruence)
    | rewrite !(digitsPrefix_digit _ _ _ 2) by (vm_compute; intuition congruence)
    | rewrite !(digitsPrefix_digit _ _ _ 3) by (vm_compute; intuition congruence)
    | rewrite !(digitsPrefix_digit _ _ _ 4) by (vm_compute; intuition congruence)
    | rewrite !(digitsPrefix_digit _ _ _ 5) by (vm_compute; intuition congruence)
    | rewrite !(digitsPrefix_digit _ _ _ 6) by (vm_compute; intuition congruence)
    | rewrite !(digitsPrefix_digit _ _ _ 7) by (vm_compute; intuition congruence)
    | rewrite !(digitsPrefix_digit _ _ _ 8) by (vm_compute; intuition congruence)
    | rewrite !(digitsPrefix_digit _ _ _ 9) by (vm_compute; intuition congruence) ].

(** [digitsPrefix] reads a run of digits as the Standard Library's
    [Pos.of_uint] does, the most significant digit first. *)
Lemma digitsPrefix_digits d d0 :
  MechSqlClient.digitsPrefix (NilEmpty.string_of_uint d)
    (Some (Z.of_N (DecimalPos.Unsigned.of_lu d0)))
  = Some (Z.of_N (DecimalPos.Unsigned.of_lu (Decimal.revapp d d0))).
Proof.
  revert d0. induction d as [|d IH|d IH|d IH|d IH|d IH|d IH|d IH|d IH|d IH|d IH];
    intros d0; [reflexivity|..];
    cbn [NilEmpty.string_of_uint Decimal.revapp]; rewrite <- IH; read_digit;
    do 2 f_equal; cbn [DecimalPos.Unsigned.of_lu default from_option id]; lia.
Qed.

(** [parseInt] reads back the decimal numeral of a natural number. *)
Lemma parseInt_numberToString n :
  MechSqlClient.parseInt (Js.numberToString n) = Some (Z.of_N n).
Proof.
  unfold Js.numberToString.
  rewrite <- (DecimalN.Unsigned.of_to n) at 2.
  unfold N.of_uint. rewrite DecimalPos.Unsigned.of_uint_alt.
  unfold Decimal.rev.
  pose proof (digitsPrefix_digits (N.to_uint n) Decimal.Nil) as H.
  assert (N.to_uint n <> Decimal.Nil) as Hnil.
  { destruct n; [discriminate|]. apply DecimalPos.Unsigned.to_uint_nonnil. }
  destruct (N.to_uint n) as [|d|d|d|d|d|d|d|d|d|d]; [congruence|..];
    unfold MechSqlClient.parseInt;
    cbn [NilZero.string_of_uint NilEmpty.string_of_uint Js.trimStart] in *;
    (replace (Js.isWhiteSpace _) with false by (vm_compute; reflexivity));
    cbv iota; rewrite <- H;
    change (Z.of_N (DecimalPos.Unsigned.of_lu Decimal.Nil)) with 0;
    read_digit; reflexivity.
Qed.

(** Claim C8, amended.  An attempt fails with a rate-limit error
    exactly when the store answers 429, and the error then carries
    [parseInt(Retry-After ?? "60", 10) * 1000]: 60000 ms when the
    header is absent, [seconds * 1000] ms when the header is the decimal
    numeral of [seconds].  Every rate-limit error is retryable.
    Whenever the executor reaches attempt [k], with retries left, and
    that attempt fails with a rate-limit error, it retries, and it
    sleeps [2^k * 100] ms between attempt [k] and attempt [k + 1],
    whatever retry-after duration the error carries, and also when it
    carries none. *)
Theorem rate_limit_retry_uses_backoff this :
  (forall statusText json,
     MechSqlClient.executeOnce this (MechSqlClient.Response 429 statusText None json)
     = MechSqlClient.Rejected (MechSqlClient.MechRateLimitError (Some 60000))) /\
  (forall statusText json seconds,
     MechSqlClient.executeOnce this
       (MechSqlClient.Response 429 statusText (Some (Js.numberToString seconds)) json)
     = MechSqlClient.Rejected
         (MechSqlClient.MechRateLimitError (Some (Z.of_N seconds * 1000)))) /\
  (forall reply retryAfter,
     MechSqlClient.executeOnce this reply
     = MechSqlClient.Rejected (MechSqlClient.MechRateLimitError retryAfter) <->
     exists statusText header json,
       reply = MechSqlClient.Response 429 statusText header json /\
       retryAfter
       = (fun n => n * 1000) <$> MechSqlClient.parseInt (default "60"%string header)) /\
  (forall retryAfter,
     MechSqlClient.isRetryable (MechSqlClient.MechRateLimitError retryAfter) = true) /\
  forall replies k retryAfter,
    MechSqlClient.executeOnce this (replies k)
      = MechSqlClient.Rejected (MechSqlClient.MechRateLimitError retryAfter) ->
    In (MechSqlClient.Fetch k) (fst (MechSqlClient.execute this replies)) ->
    (k < MechSqlClient.maxRetries this)%nat ->
    exists before after,
      fst (MechSqlClient.execute this replies)
      = before ++ MechSqlClient.Fetch k :: MechSqlClient.Sleep (2 ^ Z.of_nat k * 100)
               :: MechSqlClient.Fetch (S k) :: after.
Proof.
  split; [intros statusText json; reflexivity|].
  split.
  { intros statusText json seconds. cbn [MechSqlClient.executeOnce Z.eqb Pos.eqb].
    cbv zeta. cbn [default from_option id]. rewrite parseInt_numberToString.
    reflexivity. }
  split.
  { intros reply retryAfter. split.
    - destruct reply as [status statusText header json| |message]; cbn;
        [|discriminate..].
      destruct (Z.eqb_spec status 429) as [->|Hne].
      + intros [= <-]. exists statusText, header, json. split; reflexivity.
      + destruct (negb (MechSqlClient.ok status)); [discriminate|].
        destruct json as [json|]; [|discriminate].
        destruct (bool_decide _); discriminate.
    - intros (statusText & header & json & -> & ->). reflexivity. }
  split; [reflexivity|].
  intros replies k retryAfter Hk Hin Hlt.
  destruct (executeWithRetry_trace this replies 0 ltac:(lia))
    as (n & _ & Hrun & _ & Hlast).
  unfold MechSqlClient.execute in *. rewrite Hrun in *. cbn [fst Nat.add] in *.
  apply retrySteps_fetch in Hin.
  assert (k < n)%nat as Hkn.
  { destruct (decide (k = n)) as [->|Hne]; [|lia].
    destruct (Hlast _ Hk) as [Hmax|Hretry]; [lia|discriminate]. }
  replace n with (k + S (n - S k))%nat by lia.
  rewrite retrySteps_split. cbn [Nat.add].
  destruct (n - S k)%nat; cbn [retrySteps]; eexists _, _; reflexivity.
Qed.

(** The default client, told [Retry-After: 60] once: the error carries
    60000 ms, as it would with no header, and the retry follows a sleep
    of 100 ms. *)
Lemma rate_limit_retry_uses_backoff_witness :
  MechSqlClient.executeOnce exampleClient
    (MechSqlClient.Response 429 "Too Many Requests" None None)
  = MechSqlClient.Rejected (MechSqlClient.MechRateLimitError (Some 60000)) /\
  exists before after,
    fst (MechSqlClient.execute exampleClient rateLimitedOnce)
    = before ++ MechSqlClient.Fetch 0 :: MechSqlClient.Sleep 100
             :: MechSqlClient.Fetch 1 :: after.
Proof.
  destruct (rate_limit_retry_uses_backoff exampleClient) as (Habsent & _ & _ & _ & Hsleep).
  split; [apply Habsent|].
  apply (Hsleep rateLimitedOnce 0%nat (Some 60000)).
  - reflexivity.
  - vm_compute. auto.
  - cbn. lia.
Defined.

(** Against claim C8 as stated: the first reply is a 429 whose
    [Retry-After] header says 60 seconds, so the error carries 60000 ms;
    the executor retries after 100 ms. *)
Lemma rate_limit_retry_ignores_retry_after :
  MechSqlClient.executeOnce exampleClient (rateLimitedOnce 0%nat)
    = MechSqlClient.Rejected (MechSqlClient.MechRateLimitError (Some 60000))
  /\ MechSqlClient.execute exampleClient rateLimitedOnce
     = ([MechSqlClient.Fetch 0; MechSqlClient.Sleep 100; MechSqlClient.Fetch 1],
        MechSqlClient.Resolved {| MechSqlClient.rows := []; MechSqlClient.rowCount := 0 |}).
Proof. split; vm_compute; reflexivity. Qed.

(** ** Sessions *)

(** X1.  [createSession] for a stored user, when the generated id is
    not taken, stores one session that expires [expiresInSeconds]
    seconds from now and returns its id; from then on [validateSession]
    on that id answers the user exactly while the clock is before the
    expiry. *)
Theorem createSession_then_validateSession userId expiresInSeconds context w user
    sessionId :
  users (db w) !! userId = Some user ->
  fst (generateSessionId 25 w) = Returned sessionId ->
  sessions (db w) !! sessionId = None ->
  exists w',
    createSession userId expiresInSeconds context w = (Returned sessionId, w') /\
    sessions (db w')
      = <[sessionId := {| Session.id := sessionId; Session.user_id := userId;
                          Session.expires_at := now w + expiresInSeconds * 1000;
                          Session.ip_address := orElse (context ≫= ipAddress) None;
                          Session.user_agent := orElse (context ≫= userAgent) None |}]>
          (sessions (db w)) /\
    users (db w') = users (db w) /\
    now w' = now w /\
    forall w'', db w'' = db w' ->
      fst (validateSession sessionId w'')
      = Returned (if now w'' <? now w + expiresInSeconds * 1000 then Some user else None).
Proof.
  intros Hu Hid Hfresh. revert Hid.
  unfold createSession, generateSessionId, getRandomValues. run.
  destruct (Rng.getRandomValues 25 (rng w)) as [bytes r']. run.
  intros [= ->]. cbn [sessions]. rewrite Hfresh. run.
  eexists. split; [reflexivity|]. cbn. repeat split.
  intros w'' Hd. unfold validateSession. run. rewrite Hd. cbn.
  rewrite lookup_insert_eq. cbn. rewrite Hu. reflexivity.
Qed.

Lemma createSession_then_validateSession_witness :
  exists sessionId w',
    createSession "u-alice" 3600 None exampleWorld = (Returned sessionId, w') /\
    fst (validateSession sessionId w') = Returned (Some alice).
Proof.
  destruct (createSession_then_validateSession "u-alice" 3600 None exampleWorld alice
              ltac:(let t := eval vm_compute in
                             (match fst (generateSessionId 25 exampleWorld) with
                              | Returned t => t
                              | Thrown _ => EmptyString
                              end) in exact t))
    as (w' & Hrun & _ & _ & Hnow & Hvalid).
  - vm_compute. reflexivity.
  - vm_compute. reflexivity.
  - vm_compute. reflexivity.
  - eexists _, w'. split; [exact Hrun|].
    rewrite (Hvalid w' eq_refl), Hnow. reflexivity.
Defined.

(** [validateSession] only reads: it sends one select and changes
    nothing, and it answers a user exactly when the session is stored,
    has not expired, and its user is stored. *)
Theorem validateSession_reads_only sessionId w :
  exists result,
    validateSession sessionId w
      = (Returned result, withLog (Sql (SelectSessionUser sessionId)) w) /\
    forall user,
      result = Some user <->
      exists s, sessions (db w) !! sessionId = Some s
                /\ now w < Session.expires_at s
                /\ users (db w) !! Session.user_id s = Some user.
Proof.
  unfold validateSession. run. eexists. split; [reflexivity|].
  intros user. destruct (sessions (db w) !! sessionId) as [s|]; cbn.
  - destruct (Z.ltb_spec (now w) (Session.expires_at s)); split.
    + intros H'. exists s. auto.
    + intros (s' & [= <-] & _ & H'). exact H'.
    + discriminate.
    + intros (s' & [= <-] & Hlt & _). lia.
  - split; [discriminate|]. intros (s & [=] & _).
Qed.

(** [deleteSession] removes that session and nothing else; from
    then on [validateSession] on its id answers no user. *)
Theorem deleteSession_invalidates sessionId w :
  exists w',
    deleteSession sessionId w = (Returned tt, w') /\
    sessions (db w') = delete sessionId (sessions (db w)) /\
    users (db w') = users (db w) /\
    forall w'', db w'' = db w' -> fst (validateSession sessionId w'') = Returned None.
Proof.
  unfold deleteSession. run. eexists. split; [reflexivity|]. cbn. repeat split.
  intros w'' Hd. unfold validateSession. run. rewrite Hd. cbn.
  rewrite lookup_delete_eq. reflexivity.
Qed.

(** X2.  A successful [loginUser]: with the right password for a stored
    user, and a generated session id that is not taken, it returns the
    user and the id of a new session of 30 days, after exactly one
    select and one insert. *)
Theorem loginUser_success email password context hasher w user h sessionId :
  Js.truthy email = true -> Js.truthy password = true ->
  userWithEmail (normalizeEmail email) (db w) = Some user ->
  User.password_hash user = Some h -> Js.truthy h = true ->
  PasswordHasher.verify (default defaultPasswordHasher hasher) h password = Some true ->
  fst (generateSessionId 25 w) = Returned sessionId ->
  sessions (db w) !! sessionId = None ->
  exists w',
    loginUser email password context hasher w = (Returned (user, sessionId), w') /\
    users (db w') = users (db w) /\
    sessions (db w') !! sessionId
      = Some {| Session.id := sessionId; Session.user_id := User.id user;
                Session.expires_at := now w + 2592000 * 1000;
                Session.ip_address := orElse (context ≫= ipAddress) None;
                Session.user_agent := orElse (context ≫= userAgent) None |} /\
    log w' = log w ++ [Sql (SelectUserByEmail (normalizeEmail email));
                       Sql (InsertSession sessionId (User.id user))].
Proof.
  intros He Hp Hu Hh Ht Hv Hid Hfresh. revert Hid.
  unfold loginUser. rewrite He, Hp. run. rewrite Hu. run.
  unfold Js.truthyOpt. rewrite Hh, Ht. run.
  cbv beta iota delta [default from_option id] in Hv. rewrite Hv. run.
  unfold createSession, generateSessionId, getRandomValues. run.
  destruct (Rng.getRandomValues 25 (rng w)) as [bytes r']. run.
  intros [= ->]. cbn [sessions]. rewrite Hfresh. run.
  eexists. split; [reflexivity|]. cbn. repeat split.
  - apply lookup_insert_eq.
  - rewrite <- app_assoc. reflexivity.
Qed.

Lemma loginUser_success_witness :
  exists sessionId w',
    loginUser " Alice@Example.COM" "correct horse" None (Some stubHasher) exampleWorld
    = (Returned (alice, sessionId), w').
Proof.
  destruct (loginUser_success " Alice@Example.COM" "correct horse" None (Some stubHasher)
              exampleWorld alice "stub$correct horse"
              ltac:(let t := eval vm_compute in
                             (match fst (generateSessionId 25 exampleWorld) with
                              | Returned t => t
                              | Thrown _ => EmptyString
                              end) in exact t))
    as (w' & Hrun & _).
  1-2: reflexivity.
  1: vm_compute; reflexivity.
  1-2: reflexivity.
  1-3: vm_compute; reflexivity.
  eexists _, w'. exact Hrun.
Defined.

(** ** The token workflows: the other outcomes *)

(** X3.  [verifyEmail] on a stored token that is no longer valid throws
    [TOKEN_EXPIRED], deletes the token and leaves the users alone. *)
Theorem verifyEmail_expired_token isValid token w tokenRecord :
  blank token = false ->
  email_verification_tokens (db w) !! token = Some tokenRecord ->
  isValid (now w) tokenRecord = false ->
  exists w',
    verifyEmail isValid token w
      = (Thrown (AuthError "Verification token has expired" "TOKEN_EXPIRED" 400), w') /\
    email_verification_tokens (db w') = delete token (email_verification_tokens (db w)) /\
    users (db w') = users (db w).
Proof.
  intros Hb Hl Hv. unfold verifyEmail. rewrite Hb. run. rewrite Hl. run. rewrite Hv. run.
  eexists. split; [reflexivity|]. split; reflexivity.
Qed.

Lemma verifyEmail_expired_token_witness :
  thrownCode (fst (verifyEmail isValidEmailVerificationToken "verify-1" laterWorld))
  = Some "TOKEN_EXPIRED"%string.
Proof.
  destruct (verifyEmail_expired_token isValidEmailVerificationToken "verify-1" laterWorld
              aliceVerification) as (w' & -> & _).
  - reflexivity.
  - vm_compute. reflexivity.
  - reflexivity.
  - reflexivity.
Defined.

(** X4.  [resetPassword] on a stored token that is no longer valid
    throws [TOKEN_EXPIRED] and deletes the token; no password is hashed
    or changed and no session is deleted. *)
Theorem resetPassword_expired_token isValid token newPassword hasher w tokenRecord :
  blank token = false ->
  validatePassword newPassword 8 = None ->
  password_reset_tokens (db w) !! token = Some tokenRecord ->
  isValid (now w) tokenRecord = false ->
  exists w',
    resetPassword isValid token newPassword hasher w
      = (Thrown (AuthError "Reset token has expired" "TOKEN_EXPIRED" 400), w') /\
    password_reset_tokens (db w') = delete token (password_reset_tokens (db w)) /\
    users (db w') = users (db w) /\
    sessions (db w') = sessions (db w) /\
    log w' = log w ++ [Sql (SelectPasswordResetToken token);
                       Sql (DeletePasswordResetToken token)].
Proof.
  intros Hb Hp Hl Hv. unfold resetPassword. rewrite Hb, Hp. run. rewrite Hl. run.
  rewrite Hv. run.
  eexists. split; [reflexivity|]. cbn. repeat split. rewrite <- app_assoc. reflexivity.
Qed.

Lemma resetPassword_expired_token_witness :
  thrownCode (fst (resetPassword isValidPasswordResetToken "reset-old" "a new password"
                     (Some stubHasher) exampleWorld))
  = Some "TOKEN_EXPIRED"%string.
Proof.
  destruct (resetPassword_expired_token isValidPasswordResetToken "reset-old"
              "a new password" (Some stubHasher) exampleWorld aliceExpiredReset)
    as (w' & -> & _).
  - reflexivity.
  - reflexivity.
  - vm_compute. reflexivity.
  - reflexivity.
  - reflexivity.
Defined.

(** X5.  A token that is not stored: [verifyEmail] and [resetPassword]
    throw [INVALID_TOKEN] and change nothing in the store. *)
Theorem unknown_token_changes_nothing isValidVerification isValidReset token newPassword
    hasher w :
  blank token = false ->
  validatePassword newPassword 8 = None ->
  email_verification_tokens (db w) !! token = None ->
  password_reset_tokens (db w) !! token = None ->
  (exists w', verifyEmail isValidVerification token w
       = (Thrown (AuthError "Invalid verification token" "INVALID_TOKEN" 400), w')
     /\ db w' = db w) /\
  (exists w', resetPassword isValidReset token newPassword hasher w
       = (Thrown (AuthError "Invalid or expired reset token" "INVALID_TOKEN" 400), w')
     /\ db w' = db w /\ rng w' = rng w).
Proof.
  intros Hb Hp Hv Hr. split.
  - unfold verifyEmail. rewrite Hb. run. rewrite Hv. run. eexists. split; reflexivity.
  - unfold resetPassword. rewrite Hb, Hp. run. rewrite Hr. run.
    eexists. repeat split; reflexivity.
Qed.

Lemma unknown_token_changes_nothing_witness :
  thrownCode (fst (verifyEmail isValidEmailVerificationToken "no-such-token" exampleWorld))
  = Some "INVALID_TOKEN"%string.
Proof.
  destruct (unknown_token_changes_nothing isValidEmailVerificationToken
              isValidPasswordResetToken "no-such-token" "a new password" None exampleWorld)
    as [(w' & -> & _) _].
  - reflexivity.
  - reflexivity.
  - vm_compute. reflexivity.
  - vm_compute. reflexivity.
  - reflexivity.
Defined.

(** X6.  [requestPasswordReset] for a user without a password (an
    OAuth-only account) answers success after the one select: nothing
    is stored, no token is generated, no callback is called. *)
Theorem requestPasswordReset_oauth_only email onTokenGenerated w user :
  userWithEmail (normalizeEmail email) (db w) = Some user ->
  Js.truthyOpt (User.password_hash user) = false ->
  requestPasswordReset email onTokenGenerated w
  = (Returned {| rr_success := true; rr_email := normalizeEmail email |},
     withLog (Sql (SelectUserByEmail (normalizeEmail email))) w).
Proof.
  intros Hu Hp. unfold requestPasswordReset. run. rewrite Hu. run. rewrite Hp. run.
  reflexivity.
Qed.

Lemma requestPasswordReset_oauth_only_witness :
  db (snd (requestPasswordReset "octo@example.com" None exampleWorld)) = exampleDb.
Proof.
  rewrite (requestPasswordReset_oauth_only "octo@example.com" None exampleWorld octo).
  - reflexivity.
  - vm_compute. reflexivity.
  - reflexivity.
Defined.

(** X7.  After a [requestPasswordReset] that returns for a user with a
    password, the freshly generated token is that user's only reset
    token: it is stored with an expiry of one hour, and every other
    stored token was there before and belongs to somebody else. *)
Theorem requestPasswordReset_replaces_tokens email onTokenGenerated w w' user result :
  userWithEmail (normalizeEmail email) (db w) = Some user ->
  Js.truthyOpt (User.password_hash user) = true ->
  requestPasswordReset email onTokenGenerated w = (Returned result, w') ->
  exists resetToken,
    fst (generateSecureToken 32 w) = Returned resetToken /\
    password_reset_tokens (db w') !! resetToken
      = Some {| PasswordResetToken.token := resetToken;
                PasswordResetToken.user_id := User.id user;
                PasswordResetToken.expires_at := now w + RESET_TOKEN_EXPIRY |} /\
    forall token tokenRecord,
      token ≠ resetToken ->
      password_reset_tokens (db w') !! token = Some tokenRecord ->
      password_reset_tokens (db w) !! token = Some tokenRecord
      /\ PasswordResetToken.user_id tokenRecord ≠ User.id user.
Proof.
  intros Hu Hp. unfold requestPasswordReset. run. rewrite Hu. run. rewrite Hp. run.
  unfold generateSecureToken, getRandomValues. run.
  destruct (Rng.getRandomValues 32 (rng w)) as [bytes r']. run.
  cbn [password_reset_tokens setPasswordResetTokens].
  destruct (filter _ (password_reset_tokens (db w)) !! _); run; [discriminate|].
  assert (forall w0 : World,
    password_reset_tokens (db w0)
    = <[Js.removeAll "=" (Base64url.encodePadded bytes) :=
          {| PasswordResetToken.token := Js.removeAll "=" (Base64url.encodePadded bytes);
             PasswordResetToken.user_id := User.id user;
             PasswordResetToken.expires_at := now w + RESET_TOKEN_EXPIRY |}]>
        (filter (fun kv => PasswordResetToken.user_id kv.2 ≠ User.id user)
                (password_reset_tokens (db w))) ->
    password_reset_tokens (db w0) !! Js.removeAll "=" (Base64url.encodePadded bytes)
      = Some {| PasswordResetToken.token := Js.removeAll "=" (Base64url.encodePadded bytes);
                PasswordResetToken.user_id := User.id user;
                PasswordResetToken.expires_at := now w + RESET_TOKEN_EXPIRY |} /\
    forall token tokenRecord,
      token ≠ Js.removeAll "=" (Base64url.encodePadded bytes) ->
      password_reset_tokens (db w0) !! token = Some tokenRecord ->
      password_reset_tokens (db w) !! token = Some tokenRecord
      /\ PasswordResetToken.user_id tokenRecord ≠ User.id user) as Hstore.
  { intros w0 ->. split; [apply lookup_insert_eq|]. intros token tokenRecord Hne.
    rewrite lookup_insert_ne by congruence. intros H.
    apply map_lookup_filter_Some in H. exact H. }
  destruct onTokenGenerated as [f|]; run.
  - unfold callTokenCallback. run. destruct (f _ _); run; [|discriminate].
    intros [= <- <-]. eexists. split; [reflexivity|]. apply Hstore. reflexivity.
  - intros [= <- <-]. eexists. split; [reflexivity|]. apply Hstore. reflexivity.
Qed.

Lemma requestPasswordReset_replaces_tokens_witness :
  password_reset_tokens
    (db (snd (requestPasswordReset "alice@example.com" None exampleWorld))) !! "reset-1"
  = None.
Proof.
  destruct (requestPasswordReset_replaces_tokens "alice@example.com" None exampleWorld
              (snd (requestPasswordReset "alice@example.com" None exampleWorld)) alice
              {| rr_success := true; rr_email := "alice@example.com" |})
    as (resetToken & Htok & _ & Hothers).
  - vm_compute. reflexivity.
  - reflexivity.
  - vm_compute. reflexivity.
  - destruct (password_reset_tokens _ !! "reset-1") as [tokenRecord|] eqn:Hl;
      [|reflexivity].
    destruct (Hothers "reset-1"%string tokenRecord) as [Hold Hne].
    + vm_compute in Htok. injection Htok as <-. discriminate.
    + exact Hl.
    + vm_compute in Hold. injection Hold as <-. exfalso. apply Hne. reflexivity.
Defined.

(** X8.  After a [resendVerificationEmail] that returns, the user was
    not verified, and the returned token is that user's only
    verification token: it is stored for the normalized address with an
    expiry of 24 hours, and every other stored token was there before
    and belongs to somebody else. *)
Theorem resendVerificationEmail_replaces_tokens email w w' user verificationToken :
  userWithEmail (normalizeEmail email) (db w) = Some user ->
  resendVerificationEmail email w = (Returned verificationToken, w') ->
  User.email_verified user = false /\
  fst (generateSecureToken 32 w) = Returned verificationToken /\
  users (db w') = users (db w) /\
  email_verification_tokens (db w') !! verificationToken
    = Some {| EmailVerificationToken.token := verificationToken;
              EmailVerificationToken.user_id := User.id user;
              EmailVerificationToken.email := normalizeEmail email;
              EmailVerificationToken.expires_at := now w + VERIFICATION_TOKEN_EXPIRY |} /\
  forall token tokenRecord,
    token ≠ verificationToken ->
    email_verification_tokens (db w') !! token = Some tokenRecord ->
    email_verification_tokens (db w) !! token = Some tokenRecord
    /\ EmailVerificationToken.user_id tokenRecord ≠ User.id user.
Proof.
  intros Hu. unfold resendVerificationEmail. run. rewrite Hu. run.
  destruct (User.email_verified user); run; [discriminate|].
  unfold generateSecureToken, getRandomValues. run.
  destruct (Rng.getRandomValues 32 (rng w)) as [bytes r']. run.
  cbn [email_verification_tokens setEmailVerificationTokens].
  destruct (filter _ (email_verification_tokens (db w)) !! _); run; [discriminate|].
  intros [= <- <-]. cbn.
  split; [reflexivity|]. split; [reflexivity|]. split; [reflexivity|].
  split; [apply lookup_insert_eq|].
  intros token tokenRecord Hne. rewrite lookup_insert_ne by congruence. intros H.
  apply map_lookup_filter_Some in H. exact H.
Qed.

Lemma resendVerificationEmail_replaces_tokens_witness :
  User.email_verified alice = false /\
  users (db (snd (resendVerificationEmail "alice@example.com" exampleWorld)))
  = users exampleDb.
Proof.
  destruct (resendVerificationEmail_replaces_tokens "alice@example.com" exampleWorld
              (snd (resendVerificationEmail "alice@example.com" exampleWorld)) alice
              ltac:(let t := eval vm_compute in
                             (match fst (generateSecureToken 32 exampleWorld) with
                              | Returned t => t
                              | Thrown _ => EmptyString
                              end) in exact t))
    as (Hv & _ & Hu & _).
  - vm_compute. reflexivity.
  - vm_compute. reflexivity.
  - split; [exact Hv|exact Hu].
Defined.

(** ** Linking and creating OAuth users *)

(** X9.  When no user carries the profile's provider id but a stored
    user has the profile's email, [upsertOAuthUser] links the provider
    to that user: the provider id is set, email and password are kept,
    and the email-verified flag becomes the OR of the profile's claim
    and the previous value, so a verified user stays verified. *)
Theorem upsertOAuthUser_links_by_email provider profile w userByEmail :
  userWithProviderId provider (profile_id profile) (db w) = None ->
  userWithEmail (profile_email profile) (db w) = Some userByEmail ->
  users (db w) !! User.id userByEmail = Some userByEmail ->
  exists updatedUser w',
    upsertOAuthUser provider profile w = (Returned updatedUser, w') /\
    users (db w') !! User.id userByEmail = Some updatedUser /\
    (forall other, other ≠ User.id userByEmail ->
       users (db w') !! other = users (db w) !! other) /\
    providerId provider updatedUser = Some (profile_id profile) /\
    User.email updatedUser = User.email userByEmail /\
    User.password_hash updatedUser = User.password_hash userByEmail /\
    User.email_verified updatedUser
      = (default false (profile_email_verified profile)
         || User.email_verified userByEmail) /\
    (User.email_verified userByEmail = true -> User.email_verified updatedUser = true).
Proof.
  intros Hnone Hmail Hkey.
  unfold upsertOAuthUser. run. rewrite Hnone. run. rewrite Hmail. run.
  unfold executeTakeFirstOrThrow. cbn [users setUsers updateUser].
  rewrite lookup_alter_eq, Hkey. cbn [fmap option_fmap option_map]. run.
  eexists _, _. split; [reflexivity|]. cbn.
  repeat split.
  - rewrite lookup_alter_eq, Hkey. reflexivity.
  - intros other Hne. apply lookup_alter_ne. congruence.
  - destruct provider; reflexivity.
  - intros ->. apply orb_true_r.
Qed.

Lemma upsertOAuthUser_links_by_email_witness :
  exists u w',
    upsertOAuthUser google aliceGoogleProfile exampleWorld = (Returned u, w') /\
    User.google_id u = Some "g-1"%string /\
    User.password_hash u = User.password_hash alice /\
    User.email_verified u = true.
Proof.
  destruct (upsertOAuthUser_links_by_email google aliceGoogleProfile exampleWorld alice)
    as (u & w' & Hrun & _ & _ & Hid & _ & Hp & Hv & _).
  - vm_compute. reflexivity.
  - vm_compute. reflexivity.
  - vm_compute. reflexivity.
  - exists u, w'. split; [exact Hrun|]. split; [exact Hid|]. split; [exact Hp|exact Hv].
Defined.

(** X10.  When neither the provider id nor the email of the profile is
    known, and the generated user id is not taken, [upsertOAuthUser]
    inserts one user: without a password, with the provider id, and
    with the profile's claim as email-verified flag, not verified when
    the profile carries no claim. *)
Theorem upsertOAuthUser_creates_user provider profile w id :
  userWithProviderId provider (profile_id profile) (db w) = None ->
  userWithEmail (profile_email profile) (db w) = None ->
  fst (genRandomUuid w) = Returned id ->
  users (db w) !! id = None ->
  exists createdUser w',
    upsertOAuthUser provider profile w = (Returned createdUser, w') /\
    users (db w') = <[id := createdUser]> (users (db w)) /\
    User.id createdUser = id /\
    User.email createdUser = profile_email profile /\
    User.email_verified createdUser = default false (profile_email_verified profile) /\
    User.password_hash createdUser = None /\
    providerId provider createdUser = Some (profile_id profile) /\
    User.name createdUser = profile_name profile /\
    User.avatar_url createdUser = profile_avatar_url profile.
Proof.
  intros Hnone Hmail Hid Hfresh. revert Hid.
  unfold upsertOAuthUser. run. rewrite Hnone. run. rewrite Hmail. run.
  unfold genRandomUuid, getRandomValues. run.
  destruct (Rng.getRandomValues 16 (rng w)) as [bytes r']. run.
  intros [= ->]. cbn [users]. rewrite Hfresh. run.
  eexists _, _. split; [reflexivity|]. cbn.
  repeat split. destruct provider; reflexivity.
Qed.

Lemma upsertOAuthUser_creates_user_witness :
  exists u w',
    upsertOAuthUser google newcomerProfile exampleWorld = (Returned u, w') /\
    User.email u = "newcomer@example.com"%string /\
    User.email_verified u = false /\
    User.password_hash u = None.
Proof.
  destruct (upsertOAuthUser_creates_user google newcomerProfile exampleWorld
              ltac:(let t := eval vm_compute in
                             (match fst (genRandomUuid exampleWorld) with
                              | Returned t => t
                              | Thrown _ => EmptyString
                              end) in exact t))
    as (u & w' & Hrun & _ & _ & He & Hv & Hp & _).
  - vm_compute. reflexivity.
  - vm_compute. reflexivity.
  - vm_compute. reflexivity.
  - vm_compute. reflexivity.
  - exists u, w'. split; [exact Hrun|]. split; [exact He|]. split; [exact Hv|exact Hp].
Defined.

(** ** OAuth profiles *)

(** X11.  A GitHub account with a public email: the profile fetch makes
    the one call to the user endpoint and reports the email as not
    verified. *)
Theorem github_public_email_is_unverified remote accessToken user :
  OAuth.github_user remote accessToken = OAuth.Ok user ->
  Js.truthyOpt (OAuth.gh_email user) = true ->
  exists email,
    OAuth.gh_email user = Some email /\
    OAuth.fetchGitHubUserProfile remote accessToken
    = ([OAuth.FetchUser github accessToken],
       Returned {| profile_id := Js.numberToString (OAuth.gh_id user);
                   profile_email := email;
                   profile_name := OAuth.gh_name user;
                   profile_avatar_url := OAuth.gh_avatar_url user;
                   profile_email_verified := Some false |}).
Proof.
  intros Hu He. unfold OAuth.fetchGitHubUserProfile. rewrite Hu.
  destruct (OAuth.gh_email user) as [email|] eqn:Hemail; [|discriminate].
  exists email. split; [reflexivity|].
  cbn in He. cbn. rewrite Hemail. cbn. rewrite He. cbn. rewrite He. reflexivity.
Qed.

Lemma github_public_email_is_unverified_witness :
  exists profile,
    OAuth.fetchGitHubUserProfile exampleRemote "gho-token"
      = ([OAuth.FetchUser github "gho-token"], Returned profile)
    /\ profile_email_verified profile = Some false.
Proof.
  destruct (github_public_email_is_unverified exampleRemote "gho-token"
              {| OAuth.gh_id := 42; OAuth.gh_login := "octo";
                 OAuth.gh_email := Some "octo@users.example.com"%string;
                 OAuth.gh_name := Some "Octo Cat"%string;
                 OAuth.gh_avatar_url := None |})
    as (email & _ & Hrun).
  - reflexivity.
  - reflexivity.
  - eexists. split; [exact Hrun|reflexivity].
Defined.

(** X12.  With matching states and a configured provider, a failing
    code exchange ends the GitHub callback with that failure: the
    profile is never fetched. *)
Theorem callback_exchange_failure_stops remote config providerConfig code state e :
  OAuth.createProvider github config = ([], Returned providerConfig) ->
  OAuth.token_endpoint remote github code None = Thrown e ->
  OAuth.handleGitHubCallback remote config code state state
  = ([OAuth.ValidateAuthorizationCode github code None], Thrown e).
Proof.
  intros Hc Ht. unfold OAuth.handleGitHubCallback. rewrite String.eqb_refl.
  cbn [negb]. rewrite Hc. cbn. rewrite Ht. reflexivity.
Qed.

Lemma callback_exchange_failure_stops_witness :
  OAuth.handleGitHubCallback exampleRemote exampleConfig "bad-code" "state-a" "state-a"
  = ([OAuth.ValidateAuthorizationCode github "bad-code" None],
     Thrown (PlainError "bad verification code")).
Proof.
  apply (callback_exchange_failure_stops exampleRemote exampleConfig
           {| OAuth.clientId := "client"; OAuth.clientSecret := "secret";
              OAuth.redirectUri := "https://app.example.com/callback" |}).
  - reflexivity.
  - reflexivity.
Defined.

(** The two together on the example data: [octo] is stored as verified,
    logs in through GitHub with a public email, and is stored as not
    verified afterwards. *)
Example github_login_unverifies_public_email :
  exists result u w',
    OAuth.handleGitHubCallback exampleRemote exampleConfig "good-code" "state-a" "state-a"
      = ([OAuth.ValidateAuthorizationCode github "good-code" None;
          OAuth.FetchUser github "gho-token"], Returned result) /\
    User.email_verified octo = true /\
    upsertOAuthUser github (OAuth.result_profile result) exampleWorld = (Returned u, w') /\
    User.id u = User.id octo /\
    User.email_verified u = false.
Proof.
  eexists _, _, _. split; [vm_compute; reflexivity|]. split; [reflexivity|].
  split; [vm_compute; reflexivity|]. split; reflexivity.
Qed.

(** ** The executor's bounds *)

Lemma fetches_retrySteps a n : fetches (retrySteps a n) = seq a (S n).
Proof.
  revert a. induction n as [|n IH]; intros a; [reflexivity|].
  cbn. f_equal. apply IH.
Qed.

(** X13.  A store that fails every attempt in the same way: a retryable
    error is surfaced after exactly [maxRetries] retries, any other
    error after the first attempt. *)
Theorem execute_failing_store this replies err :
  (forall k, MechSqlClient.executeOnce this (replies k) = MechSqlClient.Rejected err) ->
  MechSqlClient.execute this replies
  = (if MechSqlClient.isRetryable err
     then retrySteps 0 (MechSqlClient.maxRetries this)
     else [MechSqlClient.Fetch 0],
     MechSqlClient.Rejected err).
Proof.
  intros Hall.
  destruct (executeWithRetry_trace this replies 0 ltac:(lia))
    as (n & Hn & Hrun & Hk & Hlast).
  unfold MechSqlClient.execute. rewrite Hrun, Hall. cbn [Nat.add] in *.
  f_equal. destruct (MechSqlClient.isRetryable err) eqn:Hr.
  - destruct (Hlast err (Hall n)) as [->|]; [reflexivity|congruence].
  - destruct n as [|n]; [reflexivity|].
    destruct (Hk 0%nat ltac:(lia)) as (e & He & Hre).
    rewrite Hall in He. injection He as <-. congruence.
Qed.

Lemma execute_failing_store_witness :
  fetches (fst (MechSqlClient.execute exampleClient (fun _ => serviceUnavailable)))
  = [0; 1; 2]%nat.
Proof.
  rewrite (execute_failing_store exampleClient (fun _ => serviceUnavailable)
             (MechSqlClient.MechNetworkError "HTTP 503: Service Unavailable" (Some 503))).
  - reflexivity.
  - intros k. reflexivity.
Defined.

(** X14.  A client that passed the constructor's validation has a
    timeout that is positive or [NaN] and at most 5 retries; a call of
    [execute] makes attempts 0 to [n] in order, at most 6 of them, and
    sleeps at most 3100 ms in all. *)
Theorem execute_fetch_bound config this replies :
  MechSqlClient.newClient config = Some this ->
  (JsNumber.ltb (JsNumber.of_Z 0) (MechSqlClient.timeout this) = true
   \/ MechSqlClient.timeout this = JsNumber.NaN) /\
  (MechSqlClient.maxRetries this <= 5)%nat /\
  exists n, fetches (fst (MechSqlClient.execute this replies)) = seq 0 (S n)
            /\ (S n <= 6)%nat
            /\ fold_right Z.add 0 (sleeps (fst (MechSqlClient.execute this replies)))
               <= 3100.
Proof.
  unfold MechSqlClient.newClient.
  destruct (MechSqlClient.validatePositive _) eqn:Ht; [discriminate|].
  destruct (MechSqlClient.validateRange _ _ _) eqn:Hm; [discriminate|].
  apply below_range in Hm.
  intros [= <-]. cbn [MechSqlClient.timeout MechSqlClient.maxRetries].
  split.
  { unfold MechSqlClient.validatePositive, JsNumber.leb in Ht.
    destruct (default (JsNumber.of_Z 30000) (MechSqlClient.cfg_timeout config))
      as [|[]|q]; [right; reflexivity|discriminate|left; reflexivity|left].
    apply negb_false_iff in Ht. exact Ht. }
  split; [assumption|].
  set (this := {| MechSqlClient.timeout := _ |}).
  destruct (executeWithRetry_trace this replies 0 ltac:(lia))
    as (n & Hn & Hrun & _ & _).
  unfold MechSqlClient.execute. rewrite Hrun. cbn [fst Nat.add] in *.
  exists n. rewrite fetches_retrySteps, sleeps_retrySteps.
  split; [reflexivity|]. subst this. cbn [MechSqlClient.maxRetries] in Hn.
  split; [lia|].
  assert (n <= 5)%nat as Hn5 by lia. clear -Hn5.
  do 6 (destruct n as [|n]; [vm_compute; discriminate|]). lia.
Qed.

Lemma execute_fetch_bound_witness :
  JsNumber.ltb (JsNumber.of_Z 0) (MechSqlClient.timeout exampleClient) = true /\
  (MechSqlClient.maxRetries exampleClient <= 5)%nat.
Proof.
  destruct (execute_fetch_bound
              {| MechSqlClient.cfg_timeout := None; MechSqlClient.cfg_maxRetries := None |}
              exampleClient rateLimitedOnce) as ([Ht|Ht] & Hm & _).
  - reflexivity.
  - split; [exact Ht|exact Hm].
  - discriminate Ht.
Defined.

(** [NaN] passes both checks of the constructor: the client then has a
    timeout of [NaN] and never retries.  A fractional [maxRetries] is
    accepted too. *)
Example newClient_accepts_NaN :
  MechSqlClient.newClient
    {| MechSqlClient.cfg_timeout := Some JsNumber.NaN;
       MechSqlClient.cfg_maxRetries := Some JsNumber.NaN |}
  = Some {| MechSqlClient.timeout := JsNumber.NaN; MechSqlClient.maxRetries := 0 |}
  /\ MechSqlClient.newClient
       {| MechSqlClient.cfg_timeout := Some (JsNumber.Finite (1 # 2));
          MechSqlClient.cfg_maxRetries := Some (JsNumber.Finite (5 # 2)) |}
     = Some {| MechSqlClient.timeout := JsNumber.Finite (1 # 2);
               MechSqlClient.maxRetries := 3 |}
  /\ MechSqlClient.newClient
       {| MechSqlClient.cfg_timeout := Some (JsNumber.of_Z 0);
          MechSqlClient.cfg_maxRetries := None |}
     = None
  /\ MechSqlClient.newClient
       {| MechSqlClient.cfg_timeout := None;
          MechSqlClient.cfg_maxRetries := Some (JsNumber.of_Z 6) |}
     = None.
Proof. repeat split. Qed.

(** ** Utilities *)

(** X15.  [decodeBase64UrlNoPadding] undoes [encodeBase64UrlNoPadding]
    on every byte string. *)
Theorem base64url_no_padding_roundtrip bytes :
  decodeBase64UrlNoPadding (encodeBase64UrlNoPadding bytes) = Some bytes.
Proof. apply decode_encode. Qed.

(** [timingSafeEqual] answers true exactly on equal byte strings. *)
Theorem timingSafeEqual_compares_contents a b :
  (timingSafeEqual a b = true <-> a = b) /\ (timingSafeEqual a b = false <-> a <> b).
Proof.
  split; [apply timingSafeEqual_eq|].
  rewrite <- not_true_iff_false, timingSafeEqual_eq. reflexivity.
Qed.

Lemma avoids_removeAll c s : avoids c (Js.removeAll c s) = true.
Proof.
  induction s as [|d s IH]; [reflexivity|]. cbn.
  destruct (Ascii.eqb d c) eqn:E; [assumption|]. cbn. rewrite E. exact IH.
Qed.

(** Generated tokens and session ids carry no padding character,
    and generating one only advances the random source. *)
Theorem generated_ids_are_unpadded n w :
  (exists token, generateSecureToken n w
                 = (Returned token, withRng (snd (Rng.getRandomValues n (rng w))) w)
                 /\ avoids "=" token = true) /\
  (exists sessionId, generateSessionId n w
                 = (Returned sessionId, withRng (snd (Rng.getRandomValues n (rng w))) w)
                 /\ avoids "=" sessionId = true).
Proof.
  unfold generateSecureToken, generateSessionId, getRandomValues. run.
  destruct (Rng.getRandomValues n (rng w)) as [bytes r']. run.
  split; eexists; (split; [reflexivity|apply avoids_removeAll]).
Qed.

(** [validatePassword] accepts exactly the non-empty passwords of
    at least [minLength] characters. *)
Theorem validatePassword_accepts password minLength :
  validatePassword password minLength = None <->
  password <> EmptyString /\ (minLength <= String.length password)%nat.
Proof.
  unfold validatePassword. destruct password as [|c s].
  - cbn. split; [intros [=]|]. intros [H _]. congruence.
  - cbn [Js.truthy negb orb String.length Nat.eqb].
    destruct (Nat.ltb_spec (S (String.length s)) minLength) as [Hlt|Hge].
    + split; [intros [=]|]. intros [_ H]. lia.
    + split; [|reflexivity]. intros _. split; [intros [=]|lia].
Qed.

(** ** Normalized addresses *)

Lemma lowerChar_idem c : Js.lowerChar (Js.lowerChar c) = Js.lowerChar c.
Proof. destruct c as [[] [] [] [] [] [] [] []]; reflexivity. Qed.

Lemma isWhiteSpace_lowerChar c : Js.isWhiteSpace (Js.lowerChar c) = Js.isWhiteSpace c.
Proof. destruct c as [[] [] [] [] [] [] [] []]; reflexivity. Qed.

Lemma list_rev_app s acc :
  list_ascii_of_string (String.rev_app s acc)
  = rev (list_ascii_of_string s) ++ list_ascii_of_string acc.
Proof.
  revert acc. induction s as [|c s IH]; intros acc; [reflexivity|].
  cbn. rewrite IH. cbn. rewrite <- app_assoc. reflexivity.
Qed.

Lemma list_rev s : list_ascii_of_string (String.rev s) = rev (list_ascii_of_string s).
Proof. unfold String.rev. rewrite list_rev_app. apply app_nil_r. Qed.

Lemma list_trimStart s :
  list_ascii_of_string (Js.trimStart s) = dropWhiteSpace (list_ascii_of_string s).
Proof.
  induction s as [|c s IH]; [reflexivity|]. cbn.
  destruct (Js.isWhiteSpace c); [exact IH|reflexivity].
Qed.

Lemma list_toLowerCase s :
  list_ascii_of_string (Js.toLowerCase s) = map Js.lowerChar (list_ascii_of_string s).
Proof. induction s as [|c s IH]; [reflexivity|]. cbn. rewrite IH. reflexivity. Qed.

Lemma list_trim s : list_ascii_of_string (Js.trim s) = trimList (list_ascii_of_string s).
Proof.
  unfold Js.trim, Js.trimEnd, trimList.
  rewrite list_rev, list_trimStart, list_rev, list_trimStart. reflexivity.
Qed.

Lemma list_normalizeEmail s :
  list_ascii_of_string (normalizeEmail s)
  = trimList (map Js.lowerChar (list_ascii_of_string s)).
Proof. unfold normalizeEmail. rewrite list_trim, list_toLowerCase. reflexivity. Qed.

Lemma dropWhiteSpace_map l :
  dropWhiteSpace (map Js.lowerChar l) = map Js.lowerChar (dropWhiteSpace l).
Proof.
  induction l as [|c l IH]; [reflexivity|]. cbn.
  rewrite isWhiteSpace_lowerChar. destruct (Js.isWhiteSpace c); [exact IH|reflexivity].
Qed.

Lemma trimList_map l : trimList (map Js.lowerChar l) = map Js.lowerChar (trimList l).
Proof.
  unfold trimList.
  rewrite dropWhiteSpace_map, <- map_rev, dropWhiteSpace_map, <- map_rev. reflexivity.
Qed.

Lemma dropWhiteSpace_trimmedStart l : trimmedStart (dropWhiteSpace l).
Proof.
  induction l as [|c l IH]; [exact I|]. cbn.
  destruct (Js.isWhiteSpace c) eqn:E; [exact IH|exact E].
Qed.

Lemma dropWhiteSpace_id l : trimmedStart l -> dropWhiteSpace l = l.
Proof. destruct l as [|c l]; [reflexivity|]. cbn. intros ->. reflexivity. Qed.

Lemma dropWhiteSpace_suffix l : exists p, l = p ++ dropWhiteSpace l.
Proof.
  induction l as [|c l [p IH]]; [exists []; reflexivity|]. cbn.
  destruct (Js.isWhiteSpace c).
  - exists (c :: p). cbn. f_equal. exact IH.
  - exists []. reflexivity.
Qed.

Lemma trimList_trimmedStart l : trimmedStart (trimList l).
Proof.
  unfold trimList.
  pose proof (dropWhiteSpace_trimmedStart l) as Hd.
  destruct (dropWhiteSpace_suffix (rev (dropWhiteSpace l))) as [p Hp].
  apply (f_equal (@rev ascii)) in Hp. rewrite rev_involutive, rev_app_distr in Hp.
  rewrite Hp in Hd.
  destruct (rev (dropWhiteSpace (rev (dropWhiteSpace l)))); [exact I|exact Hd].
Qed.

Lemma trimList_idem l : trimList (trimList l) = trimList l.
Proof.
  unfold trimList at 1.
  rewrite (dropWhiteSpace_id (trimList l)) by apply trimList_trimmedStart.
  unfold trimList. rewrite rev_involutive.
  rewrite (dropWhiteSpace_id (dropWhiteSpace _)) by apply dropWhiteSpace_trimmedStart.
  reflexivity.
Qed.

Lemma list_ascii_inj s t : list_ascii_of_string s = list_ascii_of_string t -> s = t.
Proof.
  intros H. rewrite <- (string_of_list_ascii_of_string s),
    <- (string_of_list_ascii_of_string t), H. reflexivity.
Qed.

(** X16.  [normalizeEmail] is idempotent: a normalized address is
    stored and looked up as it is. *)
Theorem normalizeEmail_idempotent email :
  normalizeEmail (normalizeEmail email) = normalizeEmail email.
Proof.
  apply list_ascii_inj. rewrite !list_normalizeEmail.
  set (l := list_ascii_of_string email).
  rewrite <- (trimList_map (map Js.lowerChar l)), map_map.
  rewrite (map_ext _ Js.lowerChar) by apply lowerChar_idem.
  apply trimList_idem.
Qed.

(** ** What the workflows leave alone *)

(** X17.  A successful [resetPassword] touches one account only: every
    other user's row, every session of another user, every other reset
    token and all verification tokens are as before, and
    [validateSession] answers for another user's session as it did. *)
Theorem resetPassword_keeps_other_sessions isValid token newPassword passwordHasher w
    tokenRecord :
  blank token = false ->
  validatePassword newPassword 8 = None ->
  password_reset_tokens (db w) !! token = Some tokenRecord ->
  isValid (now w) tokenRecord = true ->
  let owner := PasswordResetToken.user_id tokenRecord in
  exists w',
    resetPassword isValid token newPassword passwordHasher w
      = (Returned {| success := true |}, w') /\
    (forall other, other ≠ owner -> users (db w') !! other = users (db w) !! other) /\
    (forall sessionId s, sessions (db w) !! sessionId = Some s ->
       Session.user_id s ≠ owner -> sessions (db w') !! sessionId = Some s) /\
    (forall other, other ≠ token ->
       password_reset_tokens (db w') !! other = password_reset_tokens (db w) !! other) /\
    email_verification_tokens (db w') = email_verification_tokens (db w) /\
    forall sessionId s w1 w2,
      sessions (db w) !! sessionId = Some s -> Session.user_id s ≠ owner ->
      db w1 = db w -> db w2 = db w' -> now w1 = now w2 ->
      fst (validateSession sessionId w2) = fst (validateSession sessionId w1).
Proof.
  intros Hb Hp Hl Hv owner. subst owner.
  unfold resetPassword. rewrite Hb, Hp. run. rewrite Hl. run. rewrite Hv. run.
  unfold hashPassword, deleteAllUserSessions. run.
  destruct (PasswordHasher.hash _ newPassword (rng w)) as [h r] eqn:Hh. run.
  eexists. split; [reflexivity|]. cbn.
  split; [|split; [|split; [|split]]].
  - intros other Hne. apply lookup_alter_ne. congruence.
  - intros sid s Hs Hne. apply map_lookup_filter_Some_2; assumption.
  - intros other Hne. apply lookup_delete_ne. congruence.
  - reflexivity.
  - intros sid s w1 w2 Hs Hne H1 H2 Hnow. unfold validateSession. run.
    rewrite H1, H2, Hnow. cbn.
    erewrite map_lookup_filter_Some_2; [|exact Hs|exact Hne]. rewrite Hs. cbn.
    rewrite lookup_alter_ne by congruence. reflexivity.
Qed.

Lemma resetPassword_keeps_other_sessions_witness :
  fst (validateSession "sess-2"
         (snd (resetPassword isValidPasswordResetToken "reset-1" "a new password"
                 (Some stubHasher) exampleWorld)))
  = Returned (Some octo).
Proof.
  destruct (resetPassword_keeps_other_sessions isValidPasswordResetToken "reset-1"
              "a new password" (Some stubHasher) exampleWorld aliceReset
              eq_refl eq_refl eq_refl eq_refl)
    as (w' & Hrun & _ & _ & _ & _ & Hsame).
  rewrite Hrun. cbn [snd].
  rewrite (Hsame "sess-2"%string octoSession
             {| db := exampleDb; now := now w'; rng := exampleRng; log := [] |} w').
  - assert (now w' = 1000) as ->.
    { change (now w') with (now (snd (Returned {| success := true |}, w'))).
      rewrite <- Hrun. vm_compute. reflexivity. }
    vm_compute. reflexivity.
  - vm_compute. reflexivity.
  - discriminate.
  - reflexivity.
  - reflexivity.
  - reflexivity.
Defined.

(** X18.  [cleanupExpiredSessions] leaves the users alone and keeps
    exactly the sessions whose expiry lies after the current time; from
    then on [validateSession] answers for every session id as it would
    have without the sweep. *)
Theorem cleanupExpiredSessions_keeps_valid w :
  let w' := snd (cleanupExpiredSessions w) in
  users (db w') = users (db w) /\
  (forall sessionId s,
     sessions (db w') !! sessionId = Some s <->
     sessions (db w) !! sessionId = Some s /\ now w < Session.expires_at s) /\
  forall sessionId w1 w2,
    db w1 = db w -> db w2 = db w' -> now w1 = now w2 -> now w <= now w1 ->
    fst (validateSession sessionId w2) = fst (validateSession sessionId w1).
Proof.
  intros w'. subst w'. unfold cleanupExpiredSessions. run. cbn.
  split; [reflexivity|].
  split.
  { intros sid s. rewrite map_lookup_filter_Some. cbn.
    split; intros [Hs Hlt]; (split; [assumption|lia]). }
  intros sid w1 w2 H1 H2 Hnow Hle. unfold validateSession. run.
  rewrite H1, H2, Hnow. cbn.
  destruct (filter _ (sessions (db w)) !! sid) as [s'|] eqn:Hf.
  - apply map_lookup_filter_Some in Hf as [Hs _]. rewrite Hs. reflexivity.
  - apply map_lookup_filter_None in Hf as [Hs|Hf]; [rewrite Hs; reflexivity|].
    destruct (sessions (db w) !! sid) as [s|] eqn:Hs; [|reflexivity].
    cbn. specialize (Hf s eq_refl). cbn in Hf.
    replace (now w2 <? Session.expires_at s) with false; [reflexivity|].
    symmetry. apply Z.ltb_ge. lia.
Qed.

(** ** Generated tokens and ids *)

Lemma tokenChar_char v : 0 <= v < 64 -> tokenChar (Base64url.char v) = true.
Proof.
  intros Hv.
  assert (forallb (fun i => tokenChar (Base64url.char (Z.of_nat i))) (seq 0 64) = true)
    as Hall by (vm_compute; reflexivity).
  rewrite forallb_forall in Hall.
  specialize (Hall (Z.to_nat v)). rewrite Z2Nat.id in Hall by lia.
  apply Hall, in_seq. lia.
Qed.

Lemma allChars_string_of_list p l :
  allChars p (string_of_list_ascii l) = forallb p l.
Proof. induction l as [|c l IH]; cbn; [reflexivity|]. rewrite IH. reflexivity. Qed.

Lemma tokenChar_encodeChars bs : forallb tokenChar (Base64url.encodeChars bs) = true.
Proof.
  induction bs as [|a|a b|a b c rest IH] using list_ind3.
  - reflexivity.
  - pose proof (to_Z_range a).
    cbn [Base64url.encodeChars forallb]. rewrite !tokenChar_char by zdiv. reflexivity.
  - pose proof (to_Z_range a). pose proof (to_Z_range b).
    cbn [Base64url.encodeChars forallb]. rewrite !tokenChar_char by zdiv. reflexivity.
  - pose proof (to_Z_range a). pose proof (to_Z_range b). pose proof (to_Z_range c).
    cbn [Base64url.encodeChars forallb]. rewrite !tokenChar_char by zdiv. rewrite IH.
    reflexivity.
Qed.

Lemma removeAll_app_repeat l n :
  forallb tokenChar l = true ->
  Js.removeAll "=" (string_of_list_ascii (l ++ repeat "="%char n)) = string_of_list_ascii l.
Proof.
  induction l as [|c l IH]; cbn [app string_of_list_ascii forallb].
  - intros _. induction n as [|n IHn]; [reflexivity|]. cbn. exact IHn.
  - intros [Hc Hl]%andb_true_iff. cbn [Js.removeAll].
    destruct (Ascii.eqb_spec c "="%char) as [->|_]; [discriminate Hc|].
    rewrite IH by assumption. reflexivity.
Qed.

Lemma removeAll_encodePadded bs :
  Js.removeAll "=" (Base64url.encodePadded bs) = Base64url.encode bs.
Proof. apply removeAll_app_repeat, tokenChar_encodeChars. Qed.

Lemma tokenChar_encode bs : allChars tokenChar (Base64url.encode bs) = true.
Proof.
  unfold Base64url.encode. rewrite allChars_string_of_list. apply tokenChar_encodeChars.
Qed.

Lemma truthy_encode bs : bs <> [] -> Js.truthy (Base64url.encode bs) = true.
Proof. destruct bs as [|a [|b [|c rest]]]; [congruence|reflexivity..]. Qed.

Lemma getRandomValues_nonempty n r : fst (Rng.getRandomValues (S n) r) <> [].
Proof. discriminate. Qed.

(** ** Registration *)

Lemma takeFirst_insert_fresh {A} (P : A -> bool) (m : gmap string A) k v :
  m !! k = None -> takeFirst P m = None -> P v = true ->
  takeFirst P (<[k := v]> m) = Some v.
Proof.
  intros Hk Hnone Hv. unfold takeFirst in *.
  pose proof (map_to_list_insert m k v Hk) as Hperm.
  destruct (find P (map snd (map_to_list (<[k:=v]> m)))) as [y|] eqn:Hf.
  - apply find_some in Hf as [Hin Hy].
    apply in_map_iff in Hin as ([k' y'] & <- & Hin). cbn in *.
    apply list_elem_of_In in Hin. rewrite Hperm in Hin.
    apply elem_of_cons in Hin as [[= -> ->]|Hin]; [reflexivity|].
    exfalso. apply list_elem_of_In in Hin.
    pose proof (find_none _ _ Hnone y') as Hno.
    rewrite Hno in Hy; [discriminate|].
    apply in_map_iff. exists (k', y'). split; [reflexivity|assumption].
  - exfalso. pose proof (find_none _ _ Hf v) as Hno.
    rewrite Hv in Hno. discriminate Hno.
    apply in_map_iff. exists (k, v). split; [reflexivity|].
    apply list_elem_of_In. rewrite Hperm. left.
Qed.

Lemma isValidEmail_truthy email : isValidEmail email = true -> Js.truthy email = true.
Proof. destruct email; [discriminate|reflexivity]. Qed.

Lemma validatePassword_truthy password n :
  validatePassword password n = None -> Js.truthy password = true.
Proof. destruct password; [discriminate|reflexivity]. Qed.

(** What a [registerUser] that returns has done. *)
Lemma registerUser_run email password context hasher w result w1 :
  registerUser email password context hasher w = (Returned result, w1) ->
  let user := reg_user result in
  let passwordHash :=
    fst (PasswordHasher.hash (default defaultPasswordHasher hasher) password (rng w)) in
  isValidEmail email = true /\
  validatePassword password 8 = None /\
  userWithEmail (normalizeEmail email) (db w) = None /\
  users (db w) !! User.id user = None /\
  user = {| User.id := User.id user; User.email := normalizeEmail email;
            User.email_verified := false;
            User.password_hash := Some passwordHash;
            User.github_id := None; User.google_id := None;
            User.name := None; User.avatar_url := None;
            User.created_at := now w; User.updated_at := now w |} /\
  users (db w1) = <[User.id user := user]> (users (db w)) /\
  email_verification_tokens (db w1)
    = <[reg_verificationToken result :=
          {| EmailVerificationToken.token := reg_verificationToken result;
             EmailVerificationToken.user_id := User.id user;
             EmailVerificationToken.email := normalizeEmail email;
             EmailVerificationToken.expires_at := now w + VERIFICATION_TOKEN_EXPIRY |}]>
        (email_verification_tokens (db w)) /\
  email_verification_tokens (db w) !! reg_verificationToken result = None /\
  sessions (db w1)
    = <[reg_sessionId result :=
          {| Session.id := reg_sessionId result; Session.user_id := User.id user;
             Session.expires_at := now w + 2592000 * 1000;
             Session.ip_address := orElse (context ≫= ipAddress) None;
             Session.user_agent := orElse (context ≫= userAgent) None |}]>
        (sessions (db w)) /\
  password_reset_tokens (db w1) = password_reset_tokens (db w) /\
  now w1 = now w.
Proof.
  unfold registerUser.
  destruct (isValidEmail email) eqn:He; run; [|discriminate].
  destruct (validatePassword password 8) as [e|] eqn:Hp; run; [discriminate|].
  destruct (userWithEmail (normalizeEmail email) (db w)) as [u|] eqn:Hu; run;
    [discriminate|].
  unfold hashPassword. run.
  destruct (PasswordHasher.hash _ password (rng w)) as [h r] eqn:Hh. run.
  unfold genRandomUuid, getRandomValues. run.
  destruct (Rng.getRandomValues 16 r) as [idBytes r1]. run.
  cbn [users].
  destruct (users (db w) !! Bytes.hex idBytes) eqn:Hid; run; [discriminate|].
  unfold generateSecureToken, getRandomValues. run.
  destruct (Rng.getRandomValues 32 r1) as [tokenBytes r2]. run.
  cbn [email_verification_tokens setUsers].
  destruct (email_verification_tokens (db w) !! _) eqn:Htok; run; [discriminate|].
  unfold createSession, generateSessionId, getRandomValues. run.
  destruct (Rng.getRandomValues 25 r2) as [sessionBytes r3]. run.
  cbn [sessions setUsers setEmailVerificationTokens].
  destruct (sessions (db w) !! _) eqn:Hsess; run; [discriminate|].
  intros [= <- <-]. cbn.
  repeat split; assumption.
Qed.

Lemma allChars_impl (p q : ascii -> bool) s :
  (forall c, p c = true -> q c = true) -> allChars p s = true -> allChars q s = true.
Proof.
  intros Hpq. induction s as [|c s IH]; cbn; [reflexivity|].
  intros [Hc Hs]%andb_true_iff. rewrite (Hpq c Hc), IH by assumption. reflexivity.
Qed.

Lemma allChars_list p s : allChars p s = forallb p (list_ascii_of_string s).
Proof. induction s as [|c s IH]; cbn; [reflexivity|]. rewrite IH. reflexivity. Qed.

Lemma dropWhiteSpace_none l : forallb notWhiteSpace l = true -> dropWhiteSpace l = l.
Proof.
  destruct l as [|c l]; [reflexivity|]. cbn. unfold notWhiteSpace at 1.
  destruct (Js.isWhiteSpace c); [discriminate|reflexivity].
Qed.

Lemma forallb_rev {A} (p : A -> bool) l : forallb p (rev l) = forallb p l.
Proof.
  induction l as [|a l IH]; [reflexivity|]. cbn [rev forallb].
  rewrite forallb_app, IH. cbn. rewrite andb_true_r. apply andb_comm.
Qed.

Lemma trim_none s : allChars notWhiteSpace s = true -> Js.trim s = s.
Proof.
  intros H. rewrite allChars_list in H. apply list_ascii_inj. rewrite list_trim.
  unfold trimList. rewrite (dropWhiteSpace_none _ H).
  rewrite dropWhiteSpace_none by (rewrite forallb_rev; exact H).
  apply rev_involutive.
Qed.

Lemma tokenChar_notWhiteSpace c : tokenChar c = true -> notWhiteSpace c = true.
Proof. destruct c as [[] [] [] [] [] [] [] []]; vm_compute; congruence. Qed.

Lemma blank_encode bs : bs <> [] -> blank (Base64url.encode bs) = false.
Proof.
  intros Hbs. unfold blank. rewrite truthy_encode by assumption. cbn.
  rewrite trim_none
    by (eapply allChars_impl; [apply tokenChar_notWhiteSpace|apply tokenChar_encode]).
  pose proof (truthy_encode bs Hbs) as Ht.
  destruct (Base64url.encode bs); [discriminate|reflexivity].
Qed.

(** The token and the session id of a registration are encodings of
    random bytes. *)
Lemma registerUser_ids email password context hasher w result w1 :
  registerUser email password context hasher w = (Returned result, w1) ->
  (exists bytes, bytes <> [] /\ reg_verificationToken result = Base64url.encode bytes) /\
  (exists bytes, bytes <> [] /\ reg_sessionId result = Base64url.encode bytes).
Proof.
  unfold registerUser.
  destruct (isValidEmail email) eqn:He; run; [|discriminate].
  destruct (validatePassword password 8) as [e|] eqn:Hp; run; [discriminate|].
  destruct (userWithEmail (normalizeEmail email) (db w)) as [u|] eqn:Hu; run;
    [discriminate|].
  unfold hashPassword. run.
  destruct (PasswordHasher.hash _ password (rng w)) as [h r] eqn:Hh. run.
  unfold genRandomUuid, getRandomValues. run.
  destruct (Rng.getRandomValues 16 r) as [idBytes r1]. run.
  cbn [users].
  destruct (users (db w) !! Bytes.hex idBytes) eqn:Hid; run; [discriminate|].
  unfold generateSecureToken, getRandomValues. run.
  pose proof (getRandomValues_nonempty 31 r1) as Hn1.
  destruct (Rng.getRandomValues 32 r1) as [tokenBytes r2]. run.
  cbn [email_verification_tokens setUsers].
  destruct (email_verification_tokens (db w) !! _) eqn:Htok; run; [discriminate|].
  unfold createSession, generateSessionId, getRandomValues. run.
  pose proof (getRandomValues_nonempty 24 r2) as Hn2.
  destruct (Rng.getRandomValues 25 r2) as [sessionBytes r3]. run.
  cbn [sessions setUsers setEmailVerificationTokens].
  destruct (sessions (db w) !! _) eqn:Hsess; run; [discriminate|].
  intros [= <- <-]. cbn.
  split; eexists; (split; [|apply removeAll_encodePadded]); assumption.
Qed.

(** X19.  What a [registerUser] that returns has done: the email was
    valid and the password passed the policy, no user had the
    normalized address, and one user was added under a fresh id, with
    the normalized address, unverified, with the hash of the password;
    the verification token is stored for that user with an expiry 24
    hours ahead; and [validateSession] on the returned session id
    answers the new user until 30 days after the registration. *)
Theorem registerUser_creates_account email password context hasher w result w1 :
  registerUser email password context hasher w = (Returned result, w1) ->
  let user := reg_user result in
  (isValidEmail email = true /\ validatePassword password 8 = None) /\
  userWithEmail (normalizeEmail email) (db w) = None /\
  users (db w1) = <[User.id user := user]> (users (db w)) /\
  users (db w) !! User.id user = None /\
  (User.email user = normalizeEmail email /\ User.email_verified user = false /\
   User.password_hash user
   = Some (fst (PasswordHasher.hash (default defaultPasswordHasher hasher) password
                  (rng w)))) /\
  email_verification_tokens (db w1) !! reg_verificationToken result
  = Some {| EmailVerificationToken.token := reg_verificationToken result;
            EmailVerificationToken.user_id := User.id user;
            EmailVerificationToken.email := normalizeEmail email;
            EmailVerificationToken.expires_at := now w + 24 * 60 * 60 * 1000 |} /\
  forall w2, db w2 = db w1 ->
    fst (validateSession (reg_sessionId result) w2)
    = Returned (if now w2 <? now w + 2592000 * 1000 then Some user else None).
Proof.
  intros Hrun.
  destruct (registerUser_run _ _ _ _ _ _ _ Hrun)
    as (He & Hp & Hu & Hid & Huser & Husers & Htokens & _ & Hsessions & _ & _).
  cbv zeta in *. repeat split; try assumption.
  - rewrite Huser. reflexivity.
  - rewrite Huser. reflexivity.
  - rewrite Huser. reflexivity.
  - rewrite Htokens. apply lookup_insert_eq.
  - intros w2 Hd. unfold validateSession. run. rewrite Hd, Hsessions, Husers. cbn.
    rewrite lookup_insert_eq. cbn. rewrite lookup_insert_eq. reflexivity.
Qed.

Lemma registerUser_creates_account_witness :
  let run := registerUser "Bob@Example.com" "correct horse" None (Some stubHasher)
               exampleWorld in
  exists result, fst run = Returned result /\
    User.email (reg_user result) = "bob@example.com"%string /\
    fst (validateSession (reg_sessionId result) (snd run)) = Returned (Some (reg_user result)).
Proof.
  intros run.
  pose (result := match fst run with
                  | Returned r => r
                  | Thrown _ => {| reg_user := alice; reg_sessionId := EmptyString;
                                   reg_verificationToken := EmptyString |}
                  end).
  assert (run = (Returned result, snd run)) as Hrun by (vm_compute; reflexivity).
  destruct (registerUser_creates_account _ _ _ _ _ _ _ Hrun)
    as (_ & _ & _ & _ & (Hemail & _) & _ & Hvalid).
  exists result. split; [rewrite Hrun; reflexivity|]. split.
  - rewrite Hemail. vm_compute. reflexivity.
  - rewrite (Hvalid (snd run) eq_refl). vm_compute. reflexivity.
Defined.

Lemma userWithEmail_after_register email password context hasher w result w1 :
  registerUser email password context hasher w = (Returned result, w1) ->
  userWithEmail (normalizeEmail email) (db w1) = Some (reg_user result).
Proof.
  intros Hrun.
  destruct (registerUser_run _ _ _ _ _ _ _ Hrun)
    as (_ & _ & Hu & Hid & Huser & Husers & _).
  cbv zeta in *. unfold userWithEmail in *. rewrite Husers.
  apply takeFirst_insert_fresh; [assumption..|].
  rewrite Huser. cbn. apply String.eqb_refl.
Qed.

(** X20.  After a registration, [loginUser] with the same password and
    any spelling of the address that normalizes to the same string
    signs the new user in, provided the hasher verifies the hash that
    was stored and the generated session id is free: it returns the
    registered user and a new session, and both sessions validate to
    that user. *)
Theorem registerUser_then_loginUser email password context hasher w result w1
    email' context' hasher' sessionId :
  registerUser email password context hasher w = (Returned result, w1) ->
  normalizeEmail email' = normalizeEmail email -> Js.truthy email' = true ->
  (forall h, User.password_hash (reg_user result) = Some h ->
     Js.truthy h = true /\
     PasswordHasher.verify (default defaultPasswordHasher hasher') h password = Some true) ->
  fst (generateSessionId 25 w1) = Returned sessionId ->
  sessions (db w1) !! sessionId = None ->
  exists w2,
    loginUser email' password context' hasher' w1
    = (Returned (reg_user result, sessionId), w2) /\
    users (db w2) = users (db w1) /\
    forall w3, db w3 = db w2 -> now w3 < now w1 + 2592000 * 1000 ->
      fst (validateSession sessionId w3) = Returned (Some (reg_user result)) /\
      fst (validateSession (reg_sessionId result) w3) = Returned (Some (reg_user result)).
Proof.
  intros Hrun Hsame He Hhash Hid Hfresh.
  pose proof (userWithEmail_after_register _ _ _ _ _ _ _ Hrun) as Hfound.
  destruct (registerUser_run _ _ _ _ _ _ _ Hrun)
    as (_ & Hp & _ & _ & Huser & Husers & _ & _ & Hsessions & _ & Hnow).
  cbv zeta in *.
  destruct (User.password_hash (reg_user result)) as [h|] eqn:Hh;
    [|rewrite Huser in Hh; discriminate].
  destruct (Hhash h eq_refl) as [Ht Hv].
  revert Hid. unfold loginUser.
  rewrite He, (validatePassword_truthy _ _ Hp). run. rewrite Hsame, Hfound. run.
  unfold Js.truthyOpt. rewrite Hh, Ht. run.
  cbv beta iota delta [default from_option id] in Hv. rewrite Hv. run.
  unfold createSession, generateSessionId, getRandomValues. run.
  destruct (Rng.getRandomValues 25 (rng w1)) as [bytes r']. run.
  intros [= ->]. cbn [sessions]. rewrite Hfresh. run.
  eexists. split; [reflexivity|]. cbn. split; [reflexivity|].
  intros w3 Hd Hlt. unfold validateSession. run. rewrite Hd. cbn.
  assert (users (db w1) !! User.id (reg_user result) = Some (reg_user result)) as Hstored
    by (rewrite Husers; apply lookup_insert_eq).
  split.
  - rewrite lookup_insert_eq. cbn.
    destruct (Z.ltb_spec (now w3) (now w1 + 2592000 * 1000)); [|lia].
    exact (f_equal Returned Hstored).
  - assert (reg_sessionId result <> sessionId) as Hne.
    { intros Heq. rewrite <- Heq, Hsessions, lookup_insert_eq in Hfresh.
      discriminate. }
    rewrite lookup_insert_ne by congruence.
    rewrite Hsessions, lookup_insert_eq. cbn.
    destruct (Z.ltb_spec (now w3) (now w + 2592000 * 1000)); [|lia].
    exact (f_equal Returned Hstored).
Qed.

Lemma registerUser_then_loginUser_witness :
  let run := registerUser "Bob@Example.com" "correct horse" None (Some stubHasher)
               exampleWorld in
  exists result sessionId w2,
    fst run = Returned result /\
    loginUser " BOB@example.com " "correct horse" None (Some stubHasher) (snd run)
    = (Returned (reg_user result, sessionId), w2).
Proof.
  intros run.
  pose (result := match fst run with
                  | Returned r => r
                  | Thrown _ => {| reg_user := alice; reg_sessionId := EmptyString;
                                   reg_verificationToken := EmptyString |}
                  end).
  assert (run = (Returned result, snd run)) as Hrun by (vm_compute; reflexivity).
  destruct (registerUser_then_loginUser _ _ _ _ _ _ _ " BOB@example.com " None
              (Some stubHasher)
              ltac:(let t := eval vm_compute in
                             (match fst (generateSessionId 25 (snd run)) with
                              | Returned t => t
                              | Thrown _ => EmptyString
                              end) in exact t) Hrun)
    as (w2 & Hlogin & _).
  - vm_compute. reflexivity.
  - reflexivity.
  - intros h Hh. vm_compute in Hh. injection Hh as <-. split; vm_compute; reflexivity.
  - vm_compute. reflexivity.
  - vm_compute. reflexivity.
  - exists result. eexists. exists w2. split; [rewrite Hrun; reflexivity|exact Hlogin].
Defined.

(** X21.  The token a registration returns verifies the account:
    [verifyEmail] on it, while the validity predicate accepts the token,
    succeeds with the new user's id, marks exactly that user verified,
    consumes the token and keeps the sessions. *)
Theorem registerUser_then_verifyEmail isValid email password context hasher w result w1 :
  registerUser email password context hasher w = (Returned result, w1) ->
  (forall tokenRecord,
     email_verification_tokens (db w1) !! reg_verificationToken result = Some tokenRecord ->
     isValid (now w1) tokenRecord = true) ->
  let user := reg_user result in
  exists w2 verified,
    verifyEmail isValid (reg_verificationToken result) w1
    = (Returned {| ve_success := true; ve_userId := Some (User.id user) |}, w2) /\
    users (db w2) = <[User.id user := verified]> (users (db w1)) /\
    verified = touch (now w1) (setEmailVerified true user) /\
    email_verification_tokens (db w2) !! reg_verificationToken result = None /\
    sessions (db w2) = sessions (db w1).
Proof.
  intros Hrun Hvalid user. subst user.
  destruct (registerUser_ids _ _ _ _ _ _ _ Hrun) as [(bytes & Hbytes & Htoken) _].
  destruct (registerUser_run _ _ _ _ _ _ _ Hrun)
    as (_ & _ & _ & _ & _ & Husers & Htokens & _).
  cbv zeta in *.
  assert (blank (reg_verificationToken result) = false) as Hblank
    by (rewrite Htoken; apply blank_encode; assumption).
  unfold verifyEmail. rewrite Hblank. run.
  destruct (email_verification_tokens (db w1) !! reg_verificationToken result)
    as [rec|] eqn:Hl; [|rewrite Htokens, lookup_insert_eq in Hl; discriminate].
  run. rewrite (Hvalid rec eq_refl). run.
  assert (EmailVerificationToken.user_id rec = User.id (reg_user result)) as Howner.
  { rewrite Htokens, lookup_insert_eq in Hl. injection Hl as <-. reflexivity. }
  rewrite Howner.
  eexists _, _. split; [reflexivity|]. cbn.
  split; [|split; [reflexivity|split; [apply lookup_delete_eq|reflexivity]]].
  rewrite Husers. apply map_eq. intros k.
  destruct (decide (k = User.id (reg_user result))) as [->|Hne].
  - rewrite lookup_alter_eq, !lookup_insert_eq. reflexivity.
  - rewrite lookup_alter_ne, !lookup_insert_ne by congruence. reflexivity.
Qed.

Lemma registerUser_then_verifyEmail_witness :
  let run := registerUser "Bob@Example.com" "correct horse" None (Some stubHasher)
               exampleWorld in
  exists result w2,
    fst run = Returned result /\
    verifyEmail isValidEmailVerificationToken (reg_verificationToken result) (snd run)
    = (Returned {| ve_success := true; ve_userId := Some (User.id (reg_user result)) |}, w2).
Proof.
  intros run.
  pose (result := match fst run with
                  | Returned r => r
                  | Thrown _ => {| reg_user := alice; reg_sessionId := EmptyString;
                                   reg_verificationToken := EmptyString |}
                  end).
  assert (run = (Returned result, snd run)) as Hrun by (vm_compute; reflexivity).
  destruct (registerUser_then_verifyEmail isValidEmailVerificationToken
              _ _ _ _ _ _ _ Hrun) as (w2 & verified & Hverify & _).
  - intros rec Hrec. vm_compute in Hrec. injection Hrec as <-. vm_compute. reflexivity.
  - exists result, w2. split; [rewrite Hrun; reflexivity|exact Hverify].
Defined.

(** X22.  After a registration, a second [registerUser] for an address
    that normalizes to the same string never succeeds, whatever the
    password, context and hasher: it throws [EMAIL_EXISTS] (status 409)
    when its input is otherwise valid, the validation error otherwise,
    and leaves the store as it was. *)
Theorem registerUser_rejects_duplicate email password context hasher w result w1
    email' password' context' hasher' :
  registerUser email password context hasher w = (Returned result, w1) ->
  normalizeEmail email' = normalizeEmail email ->
  exists w2,
    registerUser email' password' context' hasher' w1 = 
      (Thrown (if isValidEmail email' then
                 match validatePassword password' 8 with
                 | Some passwordError => AuthError passwordError "INVALID_PASSWORD" 400
                 | None => AuthError "User with this email already exists" "EMAIL_EXISTS" 409
                 end
               else AuthError "Invalid email address" "INVALID_EMAIL" 400), w2) /\
    db w2 = db w1.
Proof.
  intros Hrun Hsame.
  pose proof (userWithEmail_after_register _ _ _ _ _ _ _ Hrun) as Hfound.
  unfold registerUser.
  destruct (isValidEmail email'); run; [|eexists; split; reflexivity].
  destruct (validatePassword password' 8); run; [eexists; split; reflexivity|].
  rewrite Hsame, Hfound. run. eexists; split; reflexivity.
Qed.

Lemma registerUser_rejects_duplicate_witness :
  let run := registerUser "Bob@Example.com" "correct horse" None (Some stubHasher)
               exampleWorld in
  thrownCode (fst (registerUser "BOB@EXAMPLE.COM" "another password" None None (snd run)))
  = Some "EMAIL_EXISTS"%string.
Proof.
  intros run.
  pose (result := match fst run with
                  | Returned r => r
                  | Thrown _ => {| reg_user := alice; reg_sessionId := EmptyString;
                                   reg_verificationToken := EmptyString |}
                  end).
  assert (run = (Returned result, snd run)) as Hrun by (vm_compute; reflexivity).
  destruct (registerUser_rejects_duplicate _ _ _ _ _ _ _ "BOB@EXAMPLE.COM"
              "another password" None None Hrun) as (w2 & Hdup & _).
  - vm_compute. reflexivity.
  - rewrite Hdup. vm_compute. reflexivity.
Defined.

(** ** URI components: decoding undoes encoding *)

Lemma survives_all c : survives c = true.
Proof. destruct c as [[] [] [] [] [] [] [] []]; vm_compute; reflexivity. Qed.

Lemma hexValue_hexDigit n : 0 <= n < 16 -> Uri.hexValue (Uri.hexDigit n) = Some n.
Proof.
  intros Hn.
  assert (forallb (fun i => bool_decide (Uri.hexValue (Uri.hexDigit (Z.of_nat i))
                                         = Some (Z.of_nat i))) (seq 0 16) = true)
    as Hall by (vm_compute; reflexivity).
  rewrite forallb_forall in Hall.
  specialize (Hall (Z.to_nat n)). rewrite Z2Nat.id in Hall by lia.
  eapply bool_decide_eq_true_1, Hall, in_seq. lia.
Qed.

Lemma append_String c s t : String c s +:+ t = String c (s +:+ t).
Proof. reflexivity. Qed.

Lemma append_Empty t : EmptyString +:+ t = t.
Proof. reflexivity. Qed.

Lemma append_assoc s t u : (s +:+ t) +:+ u = s +:+ (t +:+ u).
Proof.
  induction s as [|c s IH]; [reflexivity|]. rewrite !append_String, IH. reflexivity.
Qed.

Lemma tokens_plain c rest :
  Ascii.eqb c "%" = false ->
  Uri.tokens (String c rest) = (fun more => Uri.Plain c :: more) <$> Uri.tokens rest.
Proof. intros Hc. cbn [Uri.tokens]. rewrite Hc. reflexivity. Qed.

Lemma tokens_escape b rest :
  Uri.tokens (Uri.escape b +:+ rest)
  = (fun more => Uri.Escaped (Bytes.to_Z b) :: more) <$> Uri.tokens rest.
Proof.
  pose proof (to_Z_range b) as Hb.
  unfold Uri.escape. rewrite !append_String, append_Empty. cbn [Uri.tokens Ascii.eqb Bool.eqb].
  rewrite !hexValue_hexDigit by zdiv.
  replace (Bytes.to_Z b / 16 * 16 + Bytes.to_Z b mod 16) with (Bytes.to_Z b) by zdiv.
  destruct (Uri.tokens rest); reflexivity.
Qed.

Lemma decodeTokens_ascii b ts :
  (b <? 128) = true ->
  Uri.decodeTokens (Uri.Escaped b :: ts) = Uri.cons (Uri.latin1Char b) (Uri.decodeTokens ts).
Proof. intros Hb. cbn [Uri.decodeTokens]. rewrite Hb. reflexivity. Qed.

Lemma decodeTokens_pair b1 b2 ts :
  Uri.valid2 b1 b2 = true -> ((b1 - 192) * 64 + (b2 - 128) <? 256) = true ->
  Uri.decodeTokens (Uri.Escaped b1 :: Uri.Escaped b2 :: ts)
  = Uri.cons (Uri.latin1Char ((b1 - 192) * 64 + (b2 - 128))) (Uri.decodeTokens ts).
Proof.
  intros Hv Hc. cbn [Uri.decodeTokens]. rewrite Hv, Hc.
  unfold Uri.valid2, Uri.between in *.
  destruct (Z.ltb_spec b1 128); [exfalso; lia|].
  destruct (Z.leb_spec 192 b1); [|exfalso; lia].
  destruct (Z.leb_spec b1 223); [|exfalso; lia].
  reflexivity.
Qed.

Lemma decode_encode_step c s ts :
  Uri.tokens (Uri.encodeURIComponent s) = Some ts ->
  exists ts', Uri.tokens (Uri.encodeURIComponent (String c s)) = Some ts' /\
    Uri.decodeTokens ts' = Uri.cons c (Uri.decodeTokens ts).
Proof.
  intros Hts. pose proof (survives_all c) as Hc. unfold survives in Hc.
  cbn [Uri.encodeURIComponent].
  destruct (Uri.unreserved c).
  - apply negb_true_iff in Hc. rewrite append_String, append_Empty.
    rewrite tokens_plain, Hts by assumption. eexists. split; reflexivity.
  - destruct (Js.utf8Char c) as [|b1 [|b2 [|b3 bs]]]; cbn [map] in Hc;
      try discriminate Hc.
    + apply andb_true_iff in Hc as [Hlt Heq]. apply Ascii.eqb_eq in Heq.
      cbn [map String.concat]. rewrite tokens_escape, Hts.
      eexists. split; [reflexivity|]. rewrite decodeTokens_ascii, Heq by assumption.
      reflexivity.
    + apply andb_true_iff in Hc as [Hc Heq]. apply andb_true_iff in Hc as [Hv Hlt].
      apply Ascii.eqb_eq in Heq.
      cbn [map String.concat]. rewrite append_Empty, append_assoc.
      rewrite tokens_escape, tokens_escape, Hts.
      eexists. split; [reflexivity|]. rewrite decodeTokens_pair, Heq by assumption.
      reflexivity.
Qed.

Lemma decodeURIComponent_encodeURIComponent s :
  Uri.decodeURIComponent (Uri.encodeURIComponent s) = Returned (Latin1 s).
Proof.
  unfold Uri.decodeURIComponent.
  assert (exists ts, Uri.tokens (Uri.encodeURIComponent s) = Some ts /\
                     Uri.decodeTokens ts = Returned (Latin1 s)) as (ts & -> & H);
    [|exact H].
  induction s as [|c s (ts & Hts & Hdec)].
  - exists []. split; reflexivity.
  - destruct (decode_encode_step c s ts Hts) as (ts' & Hts' & Hdec').
    exists ts'. split; [exact Hts'|]. rewrite Hdec', Hdec. reflexivity.
Qed.

(** ** Cookies *)

Lemma allChars_app p s t : allChars p (s +:+ t) = allChars p s && allChars p t.
Proof.
  induction s as [|c s IH]; [reflexivity|]. rewrite append_String. cbn [allChars].
  rewrite IH. apply andb_assoc.
Qed.

Lemma uriChar_hexDigit n : 0 <= n < 16 -> uriChar (Uri.hexDigit n) = true.
Proof.
  intros Hn.
  assert (forallb (fun i => uriChar (Uri.hexDigit (Z.of_nat i))) (seq 0 16) = true)
    as Hall by (vm_compute; reflexivity).
  rewrite forallb_forall in Hall.
  specialize (Hall (Z.to_nat n)). rewrite Z2Nat.id in Hall by lia.
  apply Hall, in_seq. lia.
Qed.

Lemma uriChar_escape b : allChars uriChar (Uri.escape b) = true.
Proof.
  pose proof (to_Z_range b). unfold Uri.escape. cbn [allChars].
  rewrite !uriChar_hexDigit by zdiv. reflexivity.
Qed.

Lemma uriChar_escapes bs :
  allChars uriChar (String.concat EmptyString (map Uri.escape bs)) = true.
Proof.
  induction bs as [|b bs IH]; [reflexivity|].
  destruct bs as [|b' bs]; [apply uriChar_escape|].
  change (String.concat EmptyString (map Uri.escape (b :: b' :: bs)))
    with (Uri.escape b +:+ EmptyString
          +:+ String.concat EmptyString (map Uri.escape (b' :: bs))).
  rewrite append_Empty, allChars_app, uriChar_escape, IH. reflexivity.
Qed.

Lemma uriChar_encodeURIComponent s : allChars uriChar (Uri.encodeURIComponent s) = true.
Proof.
  induction s as [|c s IH]; [reflexivity|]. cbn [Uri.encodeURIComponent].
  rewrite allChars_app, IH, andb_true_r.
  destruct (Uri.unreserved c) eqn:Hc; [|apply uriChar_escapes].
  cbn [allChars]. unfold uriChar. rewrite Hc. reflexivity.
Qed.

Lemma truthy_encodeURIComponent s :
  Js.truthy s = true -> Js.truthy (Uri.encodeURIComponent s) = true.
Proof.
  destruct s as [|c s]; [discriminate|]. intros _. cbn [Uri.encodeURIComponent].
  destruct (Uri.unreserved c); [reflexivity|].
  destruct (Js.utf8Char c) as [|b bs] eqn:Hb.
  - exfalso. revert Hb. unfold Js.utf8Char. destruct (_ <? _)%N; discriminate.
  - destruct bs; reflexivity.
Qed.

Lemma uriChar_cookieNameChar c : uriChar c = true -> cookieNameChar c = true.
Proof. destruct c as [[] [] [] [] [] [] [] []]; vm_compute; congruence. Qed.

Lemma cookieNameChar_notWhiteSpace c : cookieNameChar c = true -> notWhiteSpace c = true.
Proof. unfold cookieNameChar. intros H. repeat apply andb_true_iff in H as [H _]. exact H. Qed.

Lemma allChars_avoids p sep s :
  (forall c, p c = true -> Ascii.eqb c sep = false) ->
  allChars p s = true -> avoids sep s = true.
Proof.
  intros Hp. induction s as [|c s IH]; [reflexivity|]. cbn.
  intros [Hc Hs]%andb_true_iff. rewrite (Hp c Hc), IH by assumption. reflexivity.
Qed.

Lemma cookieNameChar_semicolon c : cookieNameChar c = true -> Ascii.eqb c ";" = false.
Proof.
  unfold cookieNameChar. intros H. apply andb_true_iff in H as [H _].
  apply andb_true_iff in H as [_ H]. apply negb_true_iff, H.
Qed.

Lemma cookieNameChar_equals c : cookieNameChar c = true -> Ascii.eqb c "=" = false.
Proof.
  unfold cookieNameChar. intros H. apply andb_true_iff in H as [_ H].
  apply negb_true_iff, H.
Qed.

Lemma cookiePair_chars name value :
  allChars cookieNameChar name = true ->
  allChars cookieNameChar (Uri.encodeURIComponent value) = true.
Proof.
  intros _. eapply allChars_impl; [apply uriChar_cookieNameChar|].
  apply uriChar_encodeURIComponent.
Qed.

Lemma trim_space s : Js.trim (String " " s) = Js.trim s.
Proof. reflexivity. Qed.

(** One pair of the header, as [parseCookies] handles it. *)
Lemma parse_pair name value :
  cookieName name = true -> Js.truthy value = true ->
  Js.split "=" (Js.trim (cookiePair name value))
  = [name; Uri.encodeURIComponent value] /\
  avoids ";" (cookiePair name value) = true.
Proof.
  unfold cookieName. intros Hn Hv.
  apply andb_true_iff in Hn as [Hn Hchars]. apply andb_true_iff in Hn as [Ht Hproto].
  pose proof (cookiePair_chars name value Hchars) as Henc.
  assert (allChars notWhiteSpace (cookiePair name value) = true) as Hws.
  { unfold cookiePair. rewrite !allChars_app.
    rewrite (allChars_impl _ _ _ cookieNameChar_notWhiteSpace Hchars).
    rewrite (allChars_impl _ _ _ cookieNameChar_notWhiteSpace Henc). reflexivity. }
  split.
  - rewrite trim_none by assumption. unfold cookiePair.
    change ("=" +:+ Uri.encodeURIComponent value)
      with (String "=" (Uri.encodeURIComponent value)).
    rewrite split_app by (eapply allChars_avoids; [apply cookieNameChar_equals|assumption]).
    rewrite split_avoids
      by (eapply allChars_avoids; [apply cookieNameChar_equals|assumption]).
    reflexivity.
  - unfold cookiePair.
    assert (forall s t, avoids ";" (s +:+ t) = avoids ";" s && avoids ";" t) as Happ.
    { intros s t. induction s as [|c s IH]; [reflexivity|].
      rewrite append_String. cbn [avoids]. rewrite IH. apply andb_assoc. }
    rewrite !Happ.
    rewrite (allChars_avoids _ _ _ cookieNameChar_semicolon Hchars).
    rewrite (allChars_avoids _ _ _ cookieNameChar_semicolon Henc). reflexivity.
Qed.

Lemma neq_proto name : negb (String.eqb name "__proto__") = true ->
  forall value cookies, setCookie name value cookies = <[name := value]> cookies.
Proof. intros H value cookies. unfold setCookie. apply negb_true_iff in H. rewrite H. reflexivity. Qed.

(** The loop of [parseCookies] over parts that are pairs written by
    [cookiePair], each after a space or not. *)
Lemma parseCookies_loop
    (step : Outcome (gmap string JsText) -> string -> Outcome (gmap string JsText))
    pairs lead (cookies : gmap string JsText) :
  (forall name value (cookies : gmap string JsText) part,
     cookieName name = true -> Js.truthy value = true ->
     Js.trim part = cookiePair name value ->
     step (Returned cookies) part = Returned (<[name := Latin1 value]> cookies)) ->
  pairs <> [] ->
  Forall (fun p : string * string => cookieName p.1 = true /\ Js.truthy p.2 = true) pairs ->
  let header := String.concat "; " (map (fun p => cookiePair p.1 p.2) pairs) in
  fold_left step (Js.split ";" (if lead : bool then String " " header else header))
    (Returned cookies)
  = Returned (fold_left (fun cookies p => <[p.1 := Latin1 p.2]> cookies) pairs cookies).
Proof.
  intros Hstep Hne Hall header. subst header.
  revert lead cookies Hne.
  induction Hall as [|[name value] pairs [Hn Hv] Hall IH]; [congruence|].
  intros lead cookies _. cbn [fst snd] in *.
  destruct (parse_pair name value Hn Hv) as [_ Havoid].
  assert (Js.trim (cookiePair name value) = cookiePair name value) as Htrim.
  { apply trim_none. unfold cookieName in Hn.
    apply andb_true_iff in Hn as [_ Hchars].
    unfold cookiePair. rewrite !allChars_app.
    rewrite (allChars_impl _ _ _ cookieNameChar_notWhiteSpace Hchars).
    rewrite (allChars_impl _ _ _ cookieNameChar_notWhiteSpace
               (cookiePair_chars name value Hchars)). reflexivity. }
  destruct pairs as [|q pairs].
  - cbn [map String.concat fst snd].
    destruct lead; cbv iota.
    + rewrite split_avoids by (cbn [avoids]; rewrite Havoid; reflexivity).
      cbn [fold_left fst snd]. apply Hstep; assumption.
    + rewrite split_avoids by assumption.
      cbn [fold_left fst snd]. apply Hstep; assumption.
  - change (String.concat "; " (map (fun p => cookiePair p.1 p.2) ((name, value) :: q :: pairs)))
      with (cookiePair name value
            +:+ String ";" (String " " (String.concat "; "
                                          (map (fun p => cookiePair p.1 p.2) (q :: pairs))))).
    destruct lead; cbv iota.
    + rewrite <- append_String.
      rewrite split_app by (cbn [avoids]; rewrite Havoid; reflexivity).
      cbn [fold_left fst snd]. rewrite (Hstep name value) by assumption.
      apply (IH true). congruence.
    + rewrite split_app by assumption.
      cbn [fold_left fst snd]. rewrite (Hstep name value) by assumption.
      apply (IH true). congruence.
Qed.

(** X23.  [parseCookies] reads back what [encodeURIComponent] wrote: on
    a header of pairs [name=encoded value] joined by [; ], with
    non-empty values and names that are not empty, not [__proto__] and
    free of white space, [;] and [=], it returns the decoded values by
    name, a later pair replacing an earlier one of the same name. *)
Theorem parseCookies_reads_pairs pairs :
  Forall (fun p : string * string => cookieName p.1 = true /\ Js.truthy p.2 = true) pairs ->
  parseCookies (String.concat "; " (map (fun p => cookiePair p.1 p.2) pairs))
  = Returned (fold_left (fun cookies p => <[p.1 := Latin1 p.2]> cookies) pairs ∅).
Proof.
  intros Hall. destruct pairs as [|p pairs]; [reflexivity|].
  unfold parseCookies.
  assert (Js.truthy (String.concat "; " (map (fun p => cookiePair p.1 p.2) (p :: pairs)))
          = true) as ->.
  { apply Forall_cons in Hall as [[Hn _] _]. unfold cookieName in Hn.
    apply andb_true_iff in Hn as [Hn _]. apply andb_true_iff in Hn as [Hn _].
    destruct p as [[|c name] value]; [discriminate|].
    cbn [map fst snd String.concat]. unfold cookiePair. rewrite append_String.
    destruct pairs; [reflexivity|]. rewrite append_String. reflexivity. }
  cbn [negb].
  match goal with |- context [fold_left ?f _ _] => set (step := f) end.
  apply (parseCookies_loop step (p :: pairs) false ∅); [|congruence|assumption].
  intros name value cookies part Hn Hv Hpart. unfold step.
  rewrite Hpart. destruct (parse_pair name value Hn Hv) as [Hsplit _].
  assert (Js.trim (cookiePair name value) = cookiePair name value) as Htrim.
  { apply trim_none. unfold cookieName in Hn.
    apply andb_true_iff in Hn as [_ Hchars].
    unfold cookiePair. rewrite !allChars_app.
    rewrite (allChars_impl _ _ _ cookieNameChar_notWhiteSpace Hchars).
    rewrite (allChars_impl _ _ _ cookieNameChar_notWhiteSpace
               (cookiePair_chars name value Hchars)). reflexivity. }
  rewrite Htrim in Hsplit. rewrite Hsplit.
  assert (Js.truthy name = true) as ->.
  { unfold cookieName in Hn. apply andb_true_iff in Hn as [Hn _].
    apply andb_true_iff in Hn as [Hn _]. exact Hn. }
  rewrite truthy_encodeURIComponent by assumption. cbn [andb].
  rewrite decodeURIComponent_encodeURIComponent.
  rewrite neq_proto; [reflexivity|].
  unfold cookieName in Hn. apply andb_true_iff in Hn as [Hn _].
  apply andb_true_iff in Hn as [_ Hn]. exact Hn.
Qed.

Lemma parseCookies_reads_pairs_witness :
  parseCookies "lang=en; session=a%20b%3Bc%3Dd; lang=fr"
  = Returned (<["lang" := Latin1 "fr"]>
                (<["session" := Latin1 "a b;c=d"]> (<["lang" := Latin1 "en"]> ∅))).
Proof.
  apply (parseCookies_reads_pairs
           [("lang", "en"); ("session", "a b;c=d"); ("lang", "fr")]%string).
  repeat constructor.
Defined.

Lemma avoids_app sep s t : avoids sep (s +:+ t) = avoids sep s && avoids sep t.
Proof.
  induction s as [|c s IH]; [reflexivity|].
  rewrite append_String. cbn [avoids]. rewrite IH. apply andb_assoc.
Qed.

Lemma uriChar_semicolon c : uriChar c = true -> Ascii.eqb c ";" = false.
Proof. intros H. apply cookieNameChar_semicolon, uriChar_cookieNameChar, H. Qed.

(** X24.  The value of a cookie cannot add or alter an attribute: when
    the name has no [;], splitting the header of [createCookieHeader]
    at [;] gives the pair [name=encodeURIComponent(value)] followed by
    the same attribute parts as for the empty value. *)
Theorem createCookieHeader_contains_value name value options :
  avoids ";" name = true ->
  Js.split ";" (createCookieHeader name value options)
  = (name +:+ "=" +:+ Uri.encodeURIComponent value)
      :: tl (Js.split ";" (createCookieHeader name EmptyString options)).
Proof.
  intros Hname. unfold createCookieHeader, cookieParts.
  match goal with
  | |- context [[name +:+ "=" +:+ Uri.encodeURIComponent value] ++ ?rest] =>
      set (attributes := rest)
  end.
  assert (forall v, avoids ";" (name +:+ "=" +:+ Uri.encodeURIComponent v) = true) as Hpair.
  { intros v. rewrite !avoids_app, Hname.
    rewrite (allChars_avoids _ _ _ uriChar_semicolon (uriChar_encodeURIComponent v)).
    reflexivity. }
  pose proof (Hpair EmptyString) as Hempty.
  cbn [app Uri.encodeURIComponent] in *.
  destruct attributes as [|a attributes].
  - cbn [String.concat]. rewrite (split_avoids _ _ (Hpair value)).
    rewrite (split_avoids _ _ Hempty). reflexivity.
  - change (String.concat "; " ((name +:+ "=" +:+ Uri.encodeURIComponent value)
                                  :: a :: attributes))
      with ((name +:+ "=" +:+ Uri.encodeURIComponent value)
            +:+ String ";" (String " " (String.concat "; " (a :: attributes)))).
    change (String.concat "; " ((name +:+ "=" +:+ EmptyString) :: a :: attributes))
      with ((name +:+ "=" +:+ EmptyString)
            +:+ String ";" (String " " (String.concat "; " (a :: attributes)))).
    rewrite (split_app _ _ _ (Hpair value)), (split_app _ _ _ Hempty). reflexivity.
Qed.

Lemma createCookieHeader_contains_value_witness :
  Js.split ";" (createCookieHeader "session" "x; Domain=evil.example; Max-Age=999999"
                  {| CookieOptions.httpOnly := None; CookieOptions.secure := None;
                     CookieOptions.sameSite := Some lax;
                     CookieOptions.path := Some "/"%string;
                     CookieOptions.maxAge := Some 60; CookieOptions.expires := None |})
  = ["session=x%3B%20Domain%3Devil.example%3B%20Max-Age%3D999999"; " HttpOnly"; " Secure";
     " SameSite=Lax"; " Path=/"; " Max-Age=60"]%string.
Proof.
  rewrite createCookieHeader_contains_value by reflexivity. vm_compute. reflexivity.
Defined.

(** ** The OAuth callback over HTTP *)

(** X25.  The state check at the HTTP layer: unless the request's
    cookies parse and carry an [oauth_state] cookie equal to its [state]
    parameter, [handleGitHubCallbackRequest] answers 400 without calling
    the provider, without touching the store and without setting a
    cookie. *)
Theorem callback_request_needs_state_cookie remote request config w :
  (forall cookies state,
     parseCookies (default EmptyString (orElse (header request "cookie") (Some EmptyString)))
     = Returned cookies ->
     searchParam request "state" = Some state ->
     cookies !! "oauth_state"%string <> Some (Latin1 state)) ->
  exists message,
    handleGitHubCallbackRequest remote request config w
    = ([], ({| status := 400; body := Some message; responseHeaders := [] |}, w)).
Proof.
  intros Hstate. unfold handleGitHubCallbackRequest, textResponse.
  destruct (Js.truthyOpt (searchParam request "error")); [eexists; reflexivity|].
  destruct (Js.truthyOpt (searchParam request "code")); cbn [negb orb];
    [|eexists; reflexivity].
  destruct (searchParam request "state") as [state|] eqn:Hs; cbn [Js.truthyOpt];
    [|eexists; reflexivity].
  destruct (Js.truthy state); cbn [negb]; [|eexists; reflexivity].
  destruct (parseCookies _) as [cookies|e] eqn:Hparse; [|eexists; reflexivity].
  specialize (Hstate cookies state eq_refl eq_refl).
  destruct (cookies !! "oauth_state"%string) as [[stored|]|]; cbn [negb].
  - destruct (Js.truthy stored); cbn [negb]; [|eexists; reflexivity].
    unfold OAuth.handleGitHubCallback. cbn [default from_option id].
    destruct (String.eqb_spec stored state) as [->|Hne]; [congruence|].
    cbn [negb]. eexists; reflexivity.
  - eexists; reflexivity.
  - eexists; reflexivity.
Qed.

Lemma callback_request_needs_state_cookie_witness :
  exists message,
    handleGitHubCallbackRequest exampleRemote
      (exampleCallbackRequest "session=abc; oauth_state=state-b") exampleHandlerConfig
      exampleWorld
    = ([], ({| status := 400; body := Some message; responseHeaders := [] |}, exampleWorld)).
Proof.
  apply callback_request_needs_state_cookie.
  intros cookies state Hparse Hstate.
  change (Some "state-a"%string = Some state) in Hstate. injection Hstate as <-.
  assert (parseCookies "session=abc; oauth_state=state-b"
          = Returned (<["oauth_state"%string := Latin1 "state-b"]>
                        (<["session"%string := Latin1 "abc"]> ∅))) as Hp
    by (vm_compute; reflexivity).
  change (parseCookies "session=abc; oauth_state=state-b" = Returned cookies) in Hparse.
  rewrite Hp in Hparse. injection Hparse as <-.
  rewrite lookup_insert_eq. discriminate.
Defined.

Lemma encodeURIComponent_unreserved s :
  allChars Uri.unreserved s = true -> Uri.encodeURIComponent s = s.
Proof.
  induction s as [|c s IH]; [reflexivity|]. cbn [allChars Uri.encodeURIComponent].
  intros [Hc Hs]%andb_true_iff. rewrite Hc, IH by assumption. reflexivity.
Qed.

Lemma tokenChar_unreserved c : tokenChar c = true -> Uri.unreserved c = true.
Proof. destruct c as [[] [] [] [] [] [] [] []]; vm_compute; congruence. Qed.

Lemma generateSessionId_encode n w sessionId :
  fst (generateSessionId n w) = Returned sessionId ->
  exists bytes, sessionId = Base64url.encode bytes.
Proof.
  unfold generateSessionId, getRandomValues. run.
  destruct (Rng.getRandomValues n (rng w)) as [bytes r]. run.
  intros [= <-]. exists bytes. apply removeAll_encodePadded.
Qed.

Lemma takeFirst_Some {A} (P : A -> bool) (m : gmap string A) v :
  takeFirst P m = Some v -> exists k, m !! k = Some v.
Proof.
  unfold takeFirst. intros H. apply find_some in H as [Hin _].
  apply in_map_iff in Hin as ([k v'] & <- & Hin).
  exists k. apply elem_of_map_to_list, list_elem_of_In, Hin.
Qed.

(** The user [upsertOAuthUser] returns is a stored row; sessions and
    the clock are as before. *)
Lemma upsertOAuthUser_returns_stored provider profile w user w1 :
  keyed (db w) ->
  upsertOAuthUser provider profile w = (Returned user, w1) ->
  users (db w1) !! User.id user = Some user /\
  sessions (db w1) = sessions (db w) /\ now w1 = now w.
Proof.
  intros Hkeyed. unfold upsertOAuthUser. run.
  destruct (userWithProviderId provider (profile_id profile) (db w))
    as [existingUser|] eqn:Hp; run.
  - destruct (emailTaken _ _ (db w)); run; [discriminate|].
    unfold userWithProviderId in Hp. apply takeFirst_Some in Hp as [k Hk].
    pose proof (Hkeyed _ _ Hk) as Hid. rewrite Hid in *.
    cbn [users updateUser setUsers]. rewrite lookup_alter_eq, Hk.
    cbn. intros [= <- <-]. cbn. rewrite Hid, lookup_alter_eq, Hk. auto.
  - destruct (userWithEmail (profile_email profile) (db w)) as [userByEmail|] eqn:He; run.
    + unfold userWithEmail in He. apply takeFirst_Some in He as [k Hk].
      pose proof (Hkeyed _ _ Hk) as Hid. rewrite Hid in *.
      cbn [users updateUser setUsers]. rewrite lookup_alter_eq, Hk.
      cbn. intros [= <- <-]. cbn.
      destruct provider; cbn; rewrite Hid, lookup_alter_eq, Hk; auto.
    + unfold genRandomUuid, getRandomValues. run.
      destruct (Rng.getRandomValues 16 (rng w)) as [bytes r]. run.
      cbn [users]. destruct (users (db w) !! Bytes.hex bytes); run; [discriminate|].
      intros [= <- <-]. cbn.
      destruct provider; cbn; rewrite lookup_insert_eq; auto.
Qed.

Lemma createCookieHeader_starts name value options seconds :
  CookieOptions.maxAge options = Some seconds ->
  Js.startsWith (createCookieHeader name value options)
    (name +:+ "=" +:+ Uri.encodeURIComponent value +:+ "; ") = true.
Proof.
  intros Hmax. unfold createCookieHeader, cookieParts. rewrite Hmax.
  match goal with
  | |- context [[?pair] ++ ?a ++ ?b ++ ?c ++ ?d ++ [?e] ++ ?f] =>
      set (attributes := a ++ b ++ c ++ d ++ [e] ++ f);
      assert (attributes <> []) as Hne
        by (subst attributes; destruct a, b, c, d; discriminate)
  end.
  destruct attributes as [|a attributes]; [congruence|].
  change (String.concat "; " ([name +:+ "=" +:+ Uri.encodeURIComponent value]
                                ++ a :: attributes))
    with ((name +:+ "=" +:+ Uri.encodeURIComponent value)
          +:+ "; " +:+ String.concat "; " (a :: attributes)).
  rewrite <- !append_assoc. apply startsWith_app.
Qed.

(** X26.  A callback that passes: with a [code], a [state] parameter
    equal to the [oauth_state] cookie, a provider that answers, an
    upsert that returns and a free session id,
    [handleGitHubCallbackRequest] answers 302 to [/] with two cookies:
    the session cookie, which starts with the cookie name, [=] and the
    new session id unescaped, and the deletion of [oauth_state];
    [validateSession] on that id answers the upserted user until the
    configured lifetime (30 days by default) has passed. *)
Theorem callback_request_signs_in remote request (config : HandlerConfig) (w : World)
    code state cookies calls result user w1 sessionId :
  Js.truthyOpt (searchParam request "error") = false ->
  searchParam request "code" = Some code -> Js.truthy code = true ->
  searchParam request "state" = Some state -> Js.truthy state = true ->
  parseCookies (default EmptyString (orElse (header request "cookie") (Some EmptyString)))
  = Returned cookies ->
  cookies !! "oauth_state"%string = Some (Latin1 state) ->
  OAuth.handleGitHubCallback remote (oauth config) code state state
  = (calls, Returned result) ->
  keyed (db w) ->
  upsertOAuthUser github (OAuth.result_profile result) w = (Returned user, w1) ->
  fst (generateSessionId 25 w1) = Returned sessionId ->
  sessions (db w1) !! sessionId = None ->
  let expiresInSeconds := default 2592000 (session config ≫= expiresIn) in
  let cookieName := default "session"%string ((session config ≫= cookie) ≫= cookie_name) in
  exists sessionCookie w2,
    handleGitHubCallbackRequest remote request config w
    = (calls,
       ({| status := 302; body := None;
           responseHeaders :=
             [("Location", "/"); ("Set-Cookie", sessionCookie);
              ("Set-Cookie",
               "oauth_state=; HttpOnly; Secure; Path=/; Max-Age=0; Expires=Thu, 01 Jan 1970 00:00:00 GMT")
             ]%string |}, w2)) /\
    Js.startsWith sessionCookie (cookieName +:+ "=" +:+ sessionId +:+ "; ") = true /\
    forall w3, db w3 = db w2 ->
      fst (validateSession sessionId w3)
      = Returned (if now w3 <? now w + expiresInSeconds * 1000 then Some user else None).
Proof.
  intros Herror Hcode Hc Hstate Hs Hparse Hcookie Hcallback Hkeyed Hupsert Hid Hfresh
    expiresInSeconds cookieName.
  destruct (upsertOAuthUser_returns_stored _ _ _ _ _ Hkeyed Hupsert)
    as (Hstored & Hsessions & Hnow).
  destruct (generateSessionId_encode _ _ _ Hid) as (bytes & Hbytes).
  set (cookieConfig := session config ≫= cookie).
  exists (createCookieHeader cookieName sessionId
            {| CookieOptions.httpOnly :=
                 Some (default true (cookieConfig ≫= cookie_httpOnly));
               CookieOptions.secure :=
                 Some (default (default true (isProduction config))
                               (cookieConfig ≫= cookie_secure));
               CookieOptions.sameSite :=
                 Some (default lax (cookieConfig ≫= cookie_sameSite));
               CookieOptions.path :=
                 Some (default "/"%string (cookieConfig ≫= cookie_path));
               CookieOptions.maxAge := Some expiresInSeconds;
               CookieOptions.expires := None |}).
  assert (exists w2,
            createSession (User.id user) expiresInSeconds
              (Some (getRequestContext request)) w1 = (Returned sessionId, w2) /\
            forall w3, db w3 = db w2 ->
              fst (validateSession sessionId w3)
              = Returned (if now w3 <? now w + expiresInSeconds * 1000
                          then Some user else None)) as (w2 & Hcreate & Hvalid).
  { revert Hid. unfold createSession, generateSessionId, getRandomValues. run.
    destruct (Rng.getRandomValues 25 (rng w1)) as [bytes' r']. run.
    intros [= ->]. cbn [sessions]. rewrite Hfresh. run.
    eexists. split; [reflexivity|].
    intros w3 Hd. unfold validateSession. run. rewrite Hd. cbn.
    rewrite lookup_insert_eq. cbn. rewrite Hstored, Hnow. reflexivity. }
  exists w2. split; [|split; [|exact Hvalid]].
  - unfold handleGitHubCallbackRequest.
    rewrite Herror, Hcode, Hstate. cbn [Js.truthyOpt]. rewrite Hc, Hs. cbn [negb orb].
    rewrite Hparse, Hcookie, Hs. cbn [negb default from_option id].
    rewrite Hcallback, Hupsert.
    fold expiresInSeconds. rewrite Hcreate. reflexivity.
  - rewrite <- (encodeURIComponent_unreserved sessionId) at 2
      by (rewrite Hbytes; eapply allChars_impl;
          [apply tokenChar_unreserved|apply tokenChar_encode]).
    apply createCookieHeader_starts with (seconds := expiresInSeconds). reflexivity.
Qed.

Lemma keyed_exampleDb : keyed exampleDb.
Proof.
  intros k u H. cbn [exampleDb users] in H.
  apply lookup_insert_Some in H as [[<- <-]|[_ H]]; [reflexivity|].
  apply lookup_insert_Some in H as [[<- <-]|[_ H]]; [reflexivity|].
  rewrite lookup_empty in H. discriminate.
Qed.

Lemma callback_request_signs_in_witness :
  exists sessionId sessionCookie w2,
    handleGitHubCallbackRequest exampleRemote
      (exampleCallbackRequest "oauth_state=state-a") exampleHandlerConfig exampleWorld
    = ([OAuth.ValidateAuthorizationCode github "good-code" None;
        OAuth.FetchUser github "gho-token"],
       ({| status := 302; body := None;
           responseHeaders :=
             [("Location", "/"); ("Set-Cookie", sessionCookie);
              ("Set-Cookie",
               "oauth_state=; HttpOnly; Secure; Path=/; Max-Age=0; Expires=Thu, 01 Jan 1970 00:00:00 GMT")
             ]%string |}, w2)) /\
    Js.startsWith sessionCookie ("session=" +:+ sessionId +:+ "; ") = true /\
    exists user, fst (validateSession sessionId w2) = Returned (Some user)
                 /\ User.github_id user = Some "42"%string.
Proof.
  pose (profile := {| profile_id := "42"; profile_email := "octo@users.example.com";
                      profile_name := Some "Octo Cat"%string;
                      profile_avatar_url := None;
                      profile_email_verified := Some false |}).
  pose (upserted := upsertOAuthUser github profile exampleWorld).
  pose (user := match fst upserted with Returned u => u | Thrown _ => octo end).
  destruct (callback_request_signs_in exampleRemote
              (exampleCallbackRequest "oauth_state=state-a") exampleHandlerConfig
              exampleWorld "good-code" "state-a"
              (<["oauth_state"%string := Latin1 "state-a"]> ∅)
              [OAuth.ValidateAuthorizationCode github "good-code" None;
               OAuth.FetchUser github "gho-token"]
              {| OAuth.result_profile := profile;
                 OAuth.result_accessToken := Some "gho-token"%string;
                 OAuth.result_refreshToken := None |}
              user (snd upserted)
              ltac:(let t := eval vm_compute in
                             (match fst (generateSessionId 25 (snd upserted)) with
                              | Returned t => t
                              | Thrown _ => EmptyString
                              end) in exact t))
    as (sessionCookie & w2 & Hrun & Hstart & Hvalid).
  - reflexivity.
  - reflexivity.
  - reflexivity.
  - reflexivity.
  - reflexivity.
  - vm_compute. reflexivity.
  - apply lookup_insert_eq.
  - vm_compute. reflexivity.
  - exact keyed_exampleDb.
  - vm_compute. reflexivity.
  - vm_compute. reflexivity.
  - vm_compute. reflexivity.
  - eexists. exists sessionCookie, w2. split; [exact Hrun|]. split; [exact Hstart|].
    exists user. split.
    + rewrite (Hvalid w2 eq_refl).
      replace (now w2) with 1000; [reflexivity|].
      pose proof (f_equal (fun r : Handled => now (snd (snd r))) Hrun) as Hnow.
      cbn [snd] in Hnow. rewrite <- Hnow. vm_compute. reflexivity.
    + vm_compute. reflexivity.
Defined.

(** ** Regular expressions: [test] decides membership *)

Lemma append_Empty_r s : s +:+ EmptyString = s.
Proof. induction s as [|c s IH]; [reflexivity|]. rewrite append_String, IH. reflexivity. Qed.

Lemma append_eq_Empty a b : a +:+ b = EmptyString -> a = EmptyString /\ b = EmptyString.
Proof. destruct a; [auto|discriminate]. Qed.

Lemma matches_Never s : ~ matches Regex.Never s.
Proof. inversion 1. Qed.

Lemma matches_Empty_inv s : matches Regex.Empty s -> s = EmptyString.
Proof. inversion 1. reflexivity. Qed.

Lemma nullable_matches r : Regex.nullable r = true <-> matches r EmptyString.
Proof.
  induction r as [| |member|r IHr s IHs|r IHr s IHs|r IHr]; cbn [Regex.nullable].
  - split; [discriminate|]. intros H. destruct (matches_Never _ H).
  - split; [constructor|reflexivity].
  - split; [discriminate|]. inversion 1.
  - split.
    + destruct (Regex.nullable r); [|discriminate]. intros Hs.
      change EmptyString with (EmptyString +:+ EmptyString).
      constructor; [apply IHr; reflexivity|apply IHs, Hs].
    + inversion 1 as [| |r' s' a b Ha Hb Heq| | | |]. subst.
      match goal with H : _ +:+ _ = EmptyString |- _ =>
        apply append_eq_Empty in H as [-> ->] end.
      apply IHr in Ha. apply IHs in Hb. rewrite Ha. exact Hb.
  - split.
    + destruct (Regex.nullable r).
      * intros _. apply matches_Alt_l, IHr. reflexivity.
      * intros Hs. apply matches_Alt_r, IHs, Hs.
    + inversion 1; subst.
      * match goal with H : matches r _ |- _ => apply IHr in H; rewrite H end. reflexivity.
      * match goal with H : matches s _ |- _ => apply IHs in H; rewrite H end.
        destruct (Regex.nullable r); reflexivity.
  - split; [constructor|reflexivity].
Qed.

Lemma matches_Seq_inv r s x :
  matches (Regex.Seq r s) x -> exists a b, x = a +:+ b /\ matches r a /\ matches s b.
Proof. inversion 1; subst. eauto. Qed.

Lemma matches_Alt_inv r s x : matches (Regex.Alt r s) x -> matches r x \/ matches s x.
Proof. inversion 1; subst; auto. Qed.

Lemma matches_seq r s x : matches (Regex.seq r s) x <-> matches (Regex.Seq r s) x.
Proof.
  assert (forall x, matches (Regex.Seq Regex.Empty s) x <-> matches s x) as Hl.
  { intros y. split.
    - intros (a & b & -> & Ha & Hb)%matches_Seq_inv.
      apply matches_Empty_inv in Ha as ->. exact Hb.
    - intros H. rewrite <- (append_Empty y). constructor; [constructor|exact H]. }
  assert (forall x, matches (Regex.Seq r Regex.Empty) x <-> matches r x) as Hr.
  { intros y. split.
    - intros (a & b & -> & Ha & Hb)%matches_Seq_inv.
      apply matches_Empty_inv in Hb as ->. rewrite append_Empty_r. exact Ha.
    - intros H. rewrite <- (append_Empty_r y). constructor; [exact H|constructor]. }
  assert (forall x, ~ matches (Regex.Seq Regex.Never s) x) as Hnl.
  { intros y (a & b & -> & Ha & Hb)%matches_Seq_inv. destruct (matches_Never _ Ha). }
  assert (forall x, ~ matches (Regex.Seq r Regex.Never) x) as Hnr.
  { intros y (a & b & -> & Ha & Hb)%matches_Seq_inv. destruct (matches_Never _ Hb). }
  destruct r, s; cbn [Regex.seq];
    first [ reflexivity
          | symmetry; apply Hl
          | symmetry; apply Hr
          | split; [intros H; destruct (matches_Never _ H)
                   |intros H; first [destruct (Hnl _ H)|destruct (Hnr _ H)]] ].
Qed.

Lemma matches_alt r s x : matches (Regex.alt r s) x <-> matches (Regex.Alt r s) x.
Proof.
  assert (matches (Regex.Alt Regex.Never s) x <-> matches s x) as Hl.
  { split; [|apply matches_Alt_r].
    intros [H|H]%matches_Alt_inv; [destruct (matches_Never _ H)|exact H]. }
  assert (matches (Regex.Alt r Regex.Never) x <-> matches r x) as Hr.
  { split; [|apply matches_Alt_l].
    intros [H|H]%matches_Alt_inv; [exact H|destruct (matches_Never _ H)]. }
  destruct r, s; cbn [Regex.alt];
    first [ reflexivity | symmetry; apply Hl | symmetry; apply Hr ].
Qed.

Lemma matches_Star_inv r c x :
  matches (Regex.Star r) (String c x) ->
  exists a b, x = a +:+ b /\ matches r (String c a) /\ matches (Regex.Star r) b.
Proof.
  intros H. remember (Regex.Star r) as star eqn:Hstar.
  remember (String c x) as cx eqn:Hcx. revert x Hcx.
  induction H as [| | | | | |r' a b Ha _ Hb IHb]; try discriminate.
  injection Hstar as ->. intros x Hcx.
  destruct a as [|d a].
  - rewrite append_Empty in Hcx. apply (IHb eq_refl), Hcx.
  - rewrite append_String in Hcx. injection Hcx as -> <-. eauto.
Qed.

Lemma derive_matches r c x : matches (Regex.derive c r) x <-> matches r (String c x).
Proof.
  revert x. induction r as [| |member|r IHr s IHs|r IHr s IHs|r IHr]; intros x;
    cbn [Regex.derive].
  - split; inversion 1.
  - split; inversion 1.
  - split.
    + destruct (member c) eqn:Hc; [|inversion 1].
      intros ->%matches_Empty_inv. constructor. exact Hc.
    + inversion 1; subst.
      match goal with H : member c = true |- _ => rewrite H end. constructor.
  - rewrite matches_alt. split.
    + intros [H|H]%matches_Alt_inv.
      * apply matches_seq in H. apply matches_Seq_inv in H as (a & b & -> & Ha & Hb).
        rewrite <- append_String. constructor; [apply IHr, Ha|exact Hb].
      * destruct (Regex.nullable r) eqn:Hn; [|destruct (matches_Never _ H)].
        rewrite <- (append_Empty (String c x)).
        constructor; [apply nullable_matches, Hn|apply IHs, H].
    + intros (a & b & Heq & Ha & Hb)%matches_Seq_inv.
      destruct a as [|d a].
      * rewrite append_Empty in Heq. subst b. apply matches_Alt_r.
        apply nullable_matches in Ha. rewrite Ha. apply IHs, Hb.
      * rewrite append_String in Heq. injection Heq as <- ->.
        apply matches_Alt_l, matches_seq. constructor; [apply IHr, Ha|exact Hb].
  - rewrite matches_alt. split.
    + intros [H|H]%matches_Alt_inv;
        [apply matches_Alt_l, IHr, H|apply matches_Alt_r, IHs, H].
    + intros [H|H]%matches_Alt_inv;
        [apply matches_Alt_l, IHr, H|apply matches_Alt_r, IHs, H].
  - rewrite matches_seq. split.
    + intros (a & b & -> & Ha & Hb)%matches_Seq_inv.
      rewrite <- append_String. constructor; [apply IHr, Ha|exact Hb].
    + intros (a & b & -> & Ha & Hb)%matches_Star_inv.
      constructor; [apply IHr, Ha|exact Hb].
Qed.

(** [test] decides membership. *)
Lemma test_matches r s : Regex.test r s = true <-> matches r s.
Proof.
  revert r. induction s as [|c s IH]; intros r; cbn [Regex.test].
  - apply nullable_matches.
  - rewrite IH. apply derive_matches.
Qed.

Lemma matches_text t s : matches (Regex.text t) s <-> s = t.
Proof.
  revert s. induction t as [|c t IH]; intros s; cbn [Regex.text].
  - split; [apply matches_Empty_inv|intros ->; constructor].
  - split.
    + intros (a & b & -> & Ha & Hb)%matches_Seq_inv.
      apply IH in Hb as ->. inversion Ha as [|member d Hd| | | | |]; subst.
      apply Ascii.eqb_eq in Hd as ->. reflexivity.
    + intros ->. change (String c t) with (String c EmptyString +:+ t).
      constructor; [constructor; apply Ascii.eqb_refl|apply IH; reflexivity].
Qed.

(** ** Routing *)

Lemma matches_providerName s :
  matches providerName s -> s = "github"%string \/ s = "google"%string.
Proof.
  intros [H|H]%matches_Alt_inv; apply matches_text in H; auto.
Qed.

Lemma isOAuthRoute_paths pathname :
  isOAuthRoute pathname = true <-> In (normalizeAuthPath pathname) oauthPaths.
Proof.
  unfold isOAuthRoute. set (path := normalizeAuthPath pathname). clearbody path.
  split.
  - intros (pattern & Hin & Htest)%existsb_exists. apply test_matches in Htest.
    unfold oauthPatterns in Hin. cbn [In] in Hin.
    destruct Hin as [<-|[<-|[<-|[<-|[]]]]];
      apply matches_Seq_inv in Htest as (a & b & -> & Ha & Hb);
      apply matches_text in Ha as ->.
    + apply matches_providerName in Hb as [-> | ->]; cbn; auto 10.
    + apply matches_Seq_inv in Hb as (b1 & b2 & -> & Hb1 & Hb2).
      apply matches_text in Hb2 as ->.
      apply matches_providerName in Hb1 as [-> | ->]; cbn; auto 10.
    + apply matches_providerName in Hb as [-> | ->]; cbn; auto 10.
    + apply matches_Seq_inv in Hb as (b1 & b2 & -> & Hb1 & Hb2).
      apply matches_text in Hb2 as ->.
      apply matches_providerName in Hb1 as [-> | ->]; cbn; auto 10.
  - intros Hin. cbn [In oauthPaths] in Hin.
    repeat (destruct Hin as [<-|Hin]; [vm_compute; reflexivity|]). destruct Hin.
Qed.

Lemma isAuthRoute_paths pathname :
  isAuthRoute pathname = true <-> In (normalizeAuthPath pathname) authPaths.
Proof.
  unfold isAuthRoute. set (path := normalizeAuthPath pathname). clearbody path.
  split.
  - intros (pattern & Hin & Htest)%existsb_exists. apply test_matches in Htest.
    unfold authPatterns in Hin. cbn [In] in Hin.
    repeat (destruct Hin as [<-|Hin];
            [apply matches_text in Htest as ->; cbn; auto 10|]).
    destruct Hin.
  - intros Hin. cbn [In authPaths] in Hin.
    repeat (destruct Hin as [<-|Hin]; [vm_compute; reflexivity|]). destruct Hin.
Qed.

(** X27.  The route test of the unified handler and the dispatch of the
    OAuth handler agree: a path [isOAuthRoute] accepts reaches one of
    the four provider handlers, and a path it rejects would get the
    OAuth handler's 404. *)
Theorem oauth_routing_agrees {R} (handlers : OAuthHandlers R) pathname :
  (isOAuthRoute pathname = true ->
   In (handleOAuthRequest handlers pathname)
      [gitHubLogin handlers; gitHubCallback handlers; googleLogin handlers;
       googleCallback handlers]) /\
  (isOAuthRoute pathname = false ->
   handleOAuthRequest handlers pathname = oauthNotFound handlers).
Proof.
  split.
  - intros Hin%isOAuthRoute_paths. unfold handleOAuthRequest.
    cbn [In oauthPaths] in Hin.
    repeat (destruct Hin as [<-|Hin]; [cbn; auto 10|]). destruct Hin.
  - intros Hnot. unfold handleOAuthRequest.
    assert (forall path, In path oauthPaths ->
              String.eqb (normalizeAuthPath pathname) path = false) as Hne.
    { intros path Hin. destruct (String.eqb_spec (normalizeAuthPath pathname) path)
        as [Heq|]; [|reflexivity].
      rewrite <- Heq in Hin. apply isOAuthRoute_paths in Hin. congruence. }
    rewrite !Hne by (cbn; auto 10). reflexivity.
Qed.

Lemma dropTrailingSlash_app q : dropTrailingSlash (q +:+ "/") = q.
Proof.
  induction q as [|c q IH]; [reflexivity|].
  rewrite append_String. cbn [dropTrailingSlash].
  destruct (q +:+ "/") eqn:Hq; [destruct q; discriminate|].
  cbn [Js.truthy negb]. rewrite andb_false_r, IH. reflexivity.
Qed.

Lemma isPrefix_slice pre s :
  Js.isPrefix pre s = true -> s = pre +:+ Js.slice (String.length pre) s.
Proof.
  revert s. induction pre as [|a pre IH]; intros s; [reflexivity|].
  destruct s as [|b s]; [discriminate|]. cbn [Js.isPrefix String.length Js.slice].
  intros [Hab Hs]%andb_true_iff. apply Ascii.eqb_eq in Hab as ->.
  rewrite append_String. f_equal. apply IH, Hs.
Qed.

(** The paths whose normal form is [path]: with or without [/api] in
    front and a slash at the end. *)
Lemma normalizeAuthPath_trailing q path :
  normalizeAuthPath (q +:+ "/") = path -> In path authPaths ->
  q = path \/ q = "/api" +:+ path.
Proof.
  unfold normalizeAuthPath. rewrite dropTrailingSlash_app.
  destruct (Js.startsWith q "/api/auth") eqn:Hs.
  - intros <- _. right.
    rewrite (isPrefix_slice _ _ Hs) at 1. 
    rewrite (isPrefix_slice _ _ Hs). reflexivity.
  - intros <- _. left. reflexivity.
Qed.

(** What [handleAuthRequest] does with an accepted path that ends in a
    slash. *)
Lemma handleAuthRequest_trailing_slash {R} (handlers : AuthHandlers R) method q :
  isAuthRoute (q +:+ "/") = true ->
  isOAuthRoute (q +:+ "/") = false /\
  handleAuthRequest handlers method (q +:+ "/")
  = (if String.eqb method "POST" then authNotFound handlers
     else methodNotAllowed handlers).
Proof.
  intros Hroute. apply isAuthRoute_paths in Hroute as Hin.
  split.
  - destruct (isOAuthRoute (q +:+ "/")) eqn:Ho; [|reflexivity].
    apply isOAuthRoute_paths in Ho. exfalso.
    set (path := normalizeAuthPath (q +:+ "/")) in *. clearbody path.
    cbn [In authPaths] in Hin.
    repeat (destruct Hin as [<-|Hin];
            [cbn in Ho; intuition discriminate|]). destruct Hin.
  - destruct (normalizeAuthPath_trailing q _ eq_refl Hin) as [Hq|Hq];
      set (path := normalizeAuthPath (q +:+ "/")) in *; clearbody path;
      subst q; cbn [In authPaths] in Hin;
      repeat (destruct Hin as [<-|Hin];
              [unfold handleAuthRequest;
               destruct (String.eqb method "GET"), (String.eqb method "POST");
               reflexivity|]);
      destruct Hin.
Qed.

(** X28.  A trailing slash is accepted by the route test and refused by
    the handler behind it: when [isAuthRoute] accepts a path that ends
    in [/], a request for it that is no CORS preflight goes through
    [handleMechAuthRequest] to [handleAuthRequest], which serves it
    with none of its handlers: the answer is the 404 of
    [handleAuthRequest] for a POST and its 405 for any other method,
    with the CORS headers when CORS is configured. *)
Theorem trailing_slash_auth_route_unserved {R} (handlers : MechAuthHandlers R)
    corsConfigured method q :
  isAuthRoute (q +:+ "/") = true ->
  String.eqb method "OPTIONS" && corsConfigured = false ->
  let response :=
    if String.eqb method "POST" then authNotFound (authHandlers handlers)
    else methodNotAllowed (authHandlers handlers) in
  handleMechAuthRequest handlers corsConfigured method (q +:+ "/")
  = (if corsConfigured then addCorsHeaders handlers response else response).
Proof.
  intros Hroute Hpreflight response. subst response.
  destruct (handleAuthRequest_trailing_slash (authHandlers handlers) method q Hroute)
    as [Hoauth Hauth].
  unfold handleMechAuthRequest. rewrite Hpreflight, Hoauth, Hroute, Hauth. reflexivity.
Qed.

Lemma trailing_slash_auth_route_unserved_witness :
  isAuthRoute "/api/auth/login/" = true /\
  handleMechAuthRequest exampleRoutes true "POST" "/api/auth/login/"
  = "404 (auth), with CORS headers"%string.
Proof.
  split; [reflexivity|].
  exact (trailing_slash_auth_route_unserved exampleRoutes true "POST" "/api/auth/login"
           eq_refl eq_refl).
Defined.

(** ** CORS *)


(** The headers of the default configuration. *)
Example createCorsHeaders_default origin :
  createCorsHeaders origin None
  = [("Access-Control-Allow-Origin", "*"); ("Access-Control-Allow-Credentials", "true");
     ("Access-Control-Allow-Methods", "GET, POST, OPTIONS");
     ("Access-Control-Allow-Headers", "Content-Type, Authorization");
     ("Access-Control-Max-Age", "86400")]%string.
Proof. reflexivity. Qed.

(** ** Accepted addresses *)

Lemma matches_alphabet r s : matches r s -> allChars (alphabet r) s = true.
Proof.
  induction 1 as [|member c Hc|r s a b _ IHa _ IHb|r s a _ IH|r s a _ IH|r
                  |r a b _ IHa _ IHb].
  - reflexivity.
  - cbn. rewrite Hc. reflexivity.
  - rewrite allChars_app. apply andb_true_intro. split.
    + exact (allChars_impl _ (alphabet (Regex.Seq r s)) a
               (fun c H => orb_true_intro _ _ (or_introl H)) IHa).
    + exact (allChars_impl _ (alphabet (Regex.Seq r s)) b
               (fun c H => orb_true_intro _ _ (or_intror H)) IHb).
  - exact (allChars_impl _ (alphabet (Regex.Alt r s)) a
             (fun c H => orb_true_intro _ _ (or_introl H)) IH).
  - exact (allChars_impl _ (alphabet (Regex.Alt r s)) a
             (fun c H => orb_true_intro _ _ (or_intror H)) IH).
  - reflexivity.
  - rewrite allChars_app. apply andb_true_intro. split; [|exact IHb].
    exact (allChars_impl _ (alphabet (Regex.Star r)) a (fun c H => H) IHa).
Qed.

Lemma alphabet_email c :
  alphabet EMAIL_REGEX c = true -> inRange 33 126 c = true.
Proof. destruct c as [[] [] [] [] [] [] [] []]; vm_compute; congruence. Qed.

Lemma alphabet_local c :
  alphabet (Regex.plus (Regex.Class
              (fun c => alphanumeric c || oneOf ".!#$%&'*+/=?^_`{|}~-" c))) c = true ->
  Ascii.eqb c "@" = false.
Proof. destruct c as [[] [] [] [] [] [] [] []]; vm_compute; congruence. Qed.

Lemma alphabet_domain c : alphabet emailDomain c = true -> Ascii.eqb c "@" = false.
Proof. destruct c as [[] [] [] [] [] [] [] []]; vm_compute; congruence. Qed.

Lemma includes_app a b sub : Js.includes b sub = true -> Js.includes (a +:+ b) sub = true.
Proof.
  intros H. induction a as [|c a IH]; [exact H|].
  rewrite append_String. cbn [Js.includes]. rewrite IH. apply orb_true_r.
Qed.

Lemma includes_prefix s sub : Js.isPrefix sub s = true -> Js.includes s sub = true.
Proof. intros H. destruct s; cbn [Js.includes]; rewrite H; reflexivity. Qed.

Lemma isPrefix_app pre s : Js.isPrefix pre (pre +:+ s) = true.
Proof.
  induction pre as [|c pre IH]; [reflexivity|]. rewrite append_String.
  cbn [Js.isPrefix]. rewrite Ascii.eqb_refl, IH. reflexivity.
Qed.

Lemma matches_char c s : matches (Regex.char c) s -> s = String c EmptyString.
Proof.
  inversion 1 as [|member d Hd| | | | |]; subst.
  apply Ascii.eqb_eq in Hd as ->. reflexivity.
Qed.

Lemma matches_plus_truthy r s :
  Regex.nullable r = false -> matches (Regex.plus r) s -> Js.truthy s = true.
Proof.
  intros Hr (a & b & -> & Ha & _)%matches_Seq_inv.
  destruct a as [|c a]; [|reflexivity].
  apply nullable_matches in Ha. congruence.
Qed.

(** X30.  What an address [isValidEmail] accepts looks like: it has at
    most 254 characters and no space, and its normalized form has no
    two dots in a row, consists of printable ASCII characters, and
    splits at its only [@] into a non-empty local part, which neither
    starts nor ends with a dot, and a domain that contains a dot. *)
Theorem isValidEmail_shape email :
  isValidEmail email = true ->
  (String.length email <= 254)%nat /\
  Js.includes email " " = false /\
  Js.includes (normalizeEmail email) ".." = false /\
  allChars (inRange 33 126) (normalizeEmail email) = true /\
  exists localPart domain,
    normalizeEmail email = localPart +:+ "@" +:+ domain /\
    Js.truthy localPart = true /\
    Js.startsWith localPart "." = false /\ Js.endsWith localPart "." = false /\
    avoids "@" localPart = true /\ avoids "@" domain = true /\
    Js.includes domain "." = true.
Proof.
  unfold isValidEmail.
  destruct (Js.truthy email); cbn [negb orb]; [|discriminate].
  destruct (Nat.ltb_spec 254 (String.length email)) as [|Hlen]; [discriminate|].
  destruct (Js.includes email " "); [discriminate|].
  fold (normalizeEmail email). set (t := normalizeEmail email).
  destruct (Js.includes t ".."); [discriminate|].
  destruct (Js.startsWith _ ".") eqn:Hstart; cbn [orb]; [discriminate|].
  destruct (Js.endsWith _ ".") eqn:Hend; [discriminate|].
  intros Hm%test_matches.
  pose proof (matches_alphabet _ _ Hm) as Hchars.
  apply (allChars_impl _ _ _ alphabet_email) in Hchars.
  unfold EMAIL_REGEX in Hm.
  apply matches_Seq_inv in Hm as (localPart & rest & Ht & Hlocal & Hrest).
  apply matches_Seq_inv in Hrest as (at' & domain & -> & Hat & Hdomain).
  apply matches_char in Hat as ->.
  fold emailDomain in Hdomain.
  pose proof (matches_alphabet _ _ Hlocal) as Hl.
  pose proof (matches_alphabet _ _ Hdomain) as Hd.
  apply (allChars_avoids _ "@" _ alphabet_local) in Hl.
  apply (allChars_avoids _ "@" _ alphabet_domain) in Hd.
  assert (hd EmptyString (Js.split "@" t) = localPart) as Hhd.
  { rewrite Ht. change ("@" +:+ domain) with (String "@" domain).
    rewrite split_app by assumption. reflexivity. }
  rewrite Hhd in Hstart, Hend.
  repeat split; try assumption; try lia.
  exists localPart, domain. repeat split; try assumption.
  - eapply matches_plus_truthy; [|exact Hlocal]. reflexivity.
  - apply matches_Seq_inv in Hdomain as (label & more & -> & _ & Hmore).
    apply includes_app.
    apply matches_Seq_inv in Hmore as (first & others & -> & Hfirst & _).
    apply matches_Seq_inv in Hfirst as (dot & label' & -> & Hdot & _).
    apply matches_char in Hdot as ->.
    apply includes_prefix. rewrite !append_assoc. apply (isPrefix_app ".").
Qed.

Lemma isValidEmail_shape_witness :
  exists localPart domain,
    normalizeEmail "Alice.Smith@Mail.Example.com" = localPart +:+ "@" +:+ domain /\
    avoids "@" domain = true /\ Js.includes domain "." = true.
Proof.
  destruct (isValidEmail_shape "Alice.Smith@Mail.Example.com")
    as (_ & _ & _ & _ & localPart & domain & Ht & _ & _ & _ & _ & Hd & Hdot).
  - vm_compute. reflexivity.
  - exists localPart, domain. auto.
Defined.
